(** * Chatrix: message store, realtime transport and shared-secret encryption

    A shallow embedding of the core of the Chatrix client:
    - [src/store/chat-store.ts]    the zustand store ([Store]),
    - [lib/realtime-communication] the socket transport ([Realtime]),
    - [src/lib/advanced-crypto.ts] the shared-secret cipher ([AdvancedCrypto]),
    - [App.tsx]                    explicit chat creation ([App]).

    JavaScript numbers that hold counters and [Date.now()] readings are
    integers ([Z]); strings are [string]; [Uint8Array]s are lists of bytes;
    [Record<string, T>] is a [gmap string T] and [Set<string>] a
    [gset string].  Every [Date.now()], [nanoid()] and [randomBytes()] reading
    is an explicit argument of the function that performs it.

    The store is wrapped in zustand's [immer] middleware.  Two things
    follow for the actions: what a function given to [set] returns is
    frozen, and a field of the draft that holds a [Set] cannot be read,
    because [enableMapSet()] is called nowhere. *)

From Stdlib Require Import ZArith Lia.
From Stdlib Require Strings.String Strings.Ascii Strings.Byte.
From stdpp Require Import gmap strings list fin_maps sorting pretty.

Local Open Scope Z_scope.

(* ================================================================== *)
(** * JavaScript runtime notions used by the sources                   *)
(* ================================================================== *)

Module JS.

(** A computation either returns or throws ([throw new Error(msg)]). *)
Inductive result (A : Type) : Type :=
| Ret (a : A)
| Throw (e : string).
Arguments Ret {A} a.
Arguments Throw {A} e.

Definition bind {A B} (r : result A) (k : A -> result B) : result B :=
  match r with
  | Ret a => k a
  | Throw e => Throw e
  end.

(** [try { body } catch (error) { handler(error) }] *)
Definition try_catch {A} (body : result A) (handler : string -> result A)
  : result A :=
  match body with
  | Ret a => Ret a
  | Throw e => handler e
  end.

(** [Array.prototype.sort(cmp)]: the sort is stable, and an element moves
    behind a later one only when the comparator is positive on the pair. *)
Fixpoint sort_insert {A} (cmp : A -> A -> Z) (x : A) (l : list A) : list A :=
  match l with
  | [] => [x]
  | y :: l' => if cmp x y <=? 0 then x :: y :: l' else y :: sort_insert cmp x l'
  end.

Definition Array_sort {A} (cmp : A -> A -> Z) (l : list A) : list A :=
  foldr (sort_insert cmp) [] l.

(** The comparator of [sort()] without argument: code unit order. *)
Definition defaultCompare (x y : string) : Z :=
  match String.compare x y with
  | Lt => -1
  | Eq => 0
  | Gt => 1
  end.

(** [Array.prototype.find] *)
Definition Array_find {A} (p : A -> bool) (l : list A) : option A :=
  List.find p l.

(** [Array.prototype.findIndex], with [None] for [-1]. *)
Fixpoint Array_findIndex {A} (p : A -> bool) (l : list A) : option nat :=
  match l with
  | [] => None
  | x :: l' => if p x then Some 0%nat else S <$> Array_findIndex p l'
  end.

(** [Array.prototype.includes] on strings. *)
Definition Array_includes (l : list string) (x : string) : bool :=
  bool_decide (x ∈ l).

(** [a ?? b] / [a || b] on an optional value that is never falsy when
    present. *)
Definition or_else {A} (o : option A) (d : A) : A := from_option id d o.

End JS.

Import JS.

Notation "'let!' x ':=' c1 'in' c2" := (JS.bind c1 (fun x => c2))
  (at level 10, x name, c1 at level 100, c2 at level 200).

Abbreviation bytes := (list Byte.byte).

Global Instance byte_eq_dec : EqDecision Byte.byte := Byte.byte_eq_dec.

(* ================================================================== *)
(** * types/message.ts                                                 *)
(* ================================================================== *)

Inductive MessageStatus := Sending | Sent | Delivered | Read | Failed.
Inductive MessageType := TText | TFile | TImage | TVoice | TSystem.
Inductive ChatType := Direct | Group | Channel.
Inductive PresenceStatus := Online | Away | Busy | Offline.
Inductive ConnectionStatus := Connected | Disconnected | Reconnecting.

Global Instance MessageStatus_eq_dec : EqDecision MessageStatus.
Proof. solve_decision. Defined.
Global Instance MessageType_eq_dec : EqDecision MessageType.
Proof. solve_decision. Defined.
Global Instance ChatType_eq_dec : EqDecision ChatType.
Proof. solve_decision. Defined.
Global Instance PresenceStatus_eq_dec : EqDecision PresenceStatus.
Proof. solve_decision. Defined.
Global Instance ConnectionStatus_eq_dec : EqDecision ConnectionStatus.
Proof. solve_decision. Defined.

(** [interface Message].  The optional attachment, reaction, edit and thread
    fields are written by none of the functions below and are left out. *)
Record Message := mkMessage {
  msg_id : string;
  msg_sender : string;
  msg_senderUsername : option string;
  msg_recipient : string;
  msg_content : string;
  msg_encrypted : option string;
  msg_nonce : string;
  msg_timestamp : Z;
  msg_status : MessageStatus;
  msg_messageType : MessageType;
}.

(** [Partial<Message>]: the fields an update carries. *)
Record MessageUpdates := mkMessageUpdates {
  upd_id : option string;
  upd_sender : option string;
  upd_senderUsername : option (option string);
  upd_recipient : option string;
  upd_content : option string;
  upd_encrypted : option (option string);
  upd_nonce : option string;
  upd_timestamp : option Z;
  upd_status : option MessageStatus;
  upd_messageType : option MessageType;
}.

Definition no_updates : MessageUpdates :=
  mkMessageUpdates None None None None None None None None None None.

(** [{ status: st }] *)
Definition status_update (st : MessageStatus) : MessageUpdates :=
  mkMessageUpdates None None None None None None None None (Some st) None.

(** [{ ...msg, ...updates }] *)
Definition spread_message (msg : Message) (u : MessageUpdates) : Message :=
  {| msg_id := or_else (upd_id u) (msg_id msg);
     msg_sender := or_else (upd_sender u) (msg_sender msg);
     msg_senderUsername := or_else (upd_senderUsername u) (msg_senderUsername msg);
     msg_recipient := or_else (upd_recipient u) (msg_recipient msg);
     msg_content := or_else (upd_content u) (msg_content msg);
     msg_encrypted := or_else (upd_encrypted u) (msg_encrypted msg);
     msg_nonce := or_else (upd_nonce u) (msg_nonce msg);
     msg_timestamp := or_else (upd_timestamp u) (msg_timestamp msg);
     msg_status := or_else (upd_status u) (msg_status msg);
     msg_messageType := or_else (upd_messageType u) (msg_messageType msg) |}.

(** [interface Peer] (avatar, activity and trust fields left out).  An
    optional key is absent ([None]) or present, and a present key may hold
    [undefined] ([Some None]): [username: incoming.senderUsername] is a
    present key whatever the value is.  A spread tells the two apart. *)
Record Peer := mkPeer {
  peer_publicKey : string;
  peer_username : option (option string);
  peer_nickname : option (option string);
  peer_lastSeen : Z;
  peer_messageCount : Z;
  peer_isOnline : option (option bool);
  peer_status : option (option PresenceStatus);
}.

(** [peer.key] for an optional key: absent reads as [undefined]. *)
Definition read {A} (key : option (option A)) : option A := or_else key None.

(** [{ ...old, ...peer }]: every key that [peer] has is taken from [peer],
    also when it holds [undefined]; a key that [peer] lacks keeps what
    [old] had. *)
Definition spread_peer (old peer : Peer) : Peer :=
  {| peer_publicKey := peer_publicKey peer;
     peer_username :=
       match peer_username peer with
       | Some v => Some v
       | None => peer_username old
       end;
     peer_nickname :=
       match peer_nickname peer with
       | Some v => Some v
       | None => peer_nickname old
       end;
     peer_lastSeen := peer_lastSeen peer;
     peer_messageCount := peer_messageCount peer;
     peer_isOnline :=
       match peer_isOnline peer with
       | Some v => Some v
       | None => peer_isOnline old
       end;
     peer_status :=
       match peer_status peer with
       | Some v => Some v
       | None => peer_status old
       end |}.

(** [interface UserProfile] (presentation fields left out). *)
Record UserProfile := mkUserProfile {
  user_publicKey : string;
  user_username : string;
  user_updatedAt : Z;
  user_createdAt : Z;
}.

(** [interface Chat] (name, description, avatar, permissions left out). *)
Record Chat := mkChat {
  chat_id : string;
  chat_type : ChatType;
  chat_participants : list string;
  chat_createdBy : string;
  chat_createdAt : Z;
  chat_lastMessage : option Message;
  chat_lastActivity : Z;
  chat_unreadCount : Z;
  chat_isPinned : bool;
  chat_isMuted : bool;
  chat_isArchived : bool;
}.

Record TypingIndicator := mkTypingIndicator {
  typing_chatId : string;
  typing_userId : string;
  typing_username : string;
  typing_timestamp : Z;
}.

Global Instance Message_eq_dec : EqDecision Message.
Proof. solve_decision. Defined.
Global Instance Peer_eq_dec : EqDecision Peer.
Proof. solve_decision. Defined.
Global Instance UserProfile_eq_dec : EqDecision UserProfile.
Proof. solve_decision. Defined.
Global Instance Chat_eq_dec : EqDecision Chat.
Proof. solve_decision. Defined.
Global Instance TypingIndicator_eq_dec : EqDecision TypingIndicator.
Proof. solve_decision. Defined.

(* ================================================================== *)
(** * src/lib/advanced-crypto.ts                                       *)
(* ================================================================== *)

Module AdvancedCrypto.

Inductive Algorithm := NaclBox | NaclSecretbox | AesGcm.

(** [interface EncryptedData] *)
Record EncryptedData := mkEncryptedData {
  encrypted : string;
  nonce : string;
  ephemeralPublicKey : option string;
  signature : option string;
  algorithm : Algorithm;
  version : string;
}.

Definition VERSION : string := "2.0".

(** The imported primitives: [secretbox] and [secretbox.open] of tweetnacl,
    [encode]/[decode] of bs58 and of @stablelib/utf8.  tweetnacl throws on
    a key or nonce of the wrong size; [secretbox.open] returns [null]
    ([None]) when the authenticator does not verify; the decoders throw on
    malformed input.  Strings stand for well-formed text, on which the
    UTF-8 encoder is total. *)
Class Primitives := {
  secretbox : bytes -> bytes -> bytes -> result bytes;
  secretbox_open : bytes -> bytes -> bytes -> result (option bytes);
  encodeBase58 : bytes -> string;
  decodeBase58 : string -> result bytes;
  encodeUTF8 : string -> bytes;
  decodeUTF8 : bytes -> result string;
}.

(** [secretbox.keyLength] and [secretbox.nonceLength] *)
Definition secretbox_keyLength : nat := 32.
Definition secretbox_nonceLength : nat := 24.

(** What the libraries document about these primitives. *)
Class PrimitivesSpec (P : Primitives) : Prop := {
  base58_decode_encode : forall b : bytes, decodeBase58 (encodeBase58 b) = Ret b;
  utf8_decode_encode : forall s : string, decodeUTF8 (encodeUTF8 s) = Ret s;
  secretbox_open_secretbox : forall m n k : bytes,
    length k = secretbox_keyLength ->
    length n = secretbox_nonceLength ->
    exists c, secretbox m n k = Ret c /\ secretbox_open c n k = Ret (Some m);
}.

Section WithPrimitives.
Context {P : Primitives}.

(** [encryptWithSharedSecret(message, sharedSecret)]; [nonce] is the
    reading of [randomBytes(secretbox.nonceLength)].  A [Uint8Array] is
    never falsy, so the [if (!encrypted)] guard cannot fire on a value
    that [secretbox] returned. *)
Definition encryptWithSharedSecret (message : string) (sharedSecret : bytes)
    (nonce : bytes) : result EncryptedData :=
  let messageBytes := encodeUTF8 message in
  let! encrypted := secretbox messageBytes nonce sharedSecret in
  Ret {| encrypted := encodeBase58 encrypted;
         nonce := encodeBase58 nonce;
         ephemeralPublicKey := None;
         signature := None;
         algorithm := NaclSecretbox;
         version := VERSION |}.

(** [decryptWithSharedSecret(encryptedData, sharedSecret)] *)
Definition decryptWithSharedSecret (encryptedData : EncryptedData)
    (sharedSecret : bytes) : result (option string) :=
  try_catch
    (let! encryptedBytes := decodeBase58 (encrypted encryptedData) in
     let! nonceBytes := decodeBase58 (nonce encryptedData) in
     let! decrypted := secretbox_open encryptedBytes nonceBytes sharedSecret in
     match decrypted with
     | None => Ret None
     | Some d => let! text := decodeUTF8 d in Ret (Some text)
     end)
    (fun _ => Ret None).

End WithPrimitives.

End AdvancedCrypto.

(** An instance of the primitives on which the functions can be run: an
    xor-pad cipher with a 16-byte tag, and the byte-wise conversion between
    strings and byte arrays for both codecs.  The proofs below rely only on
    [PrimitivesSpec], which this instance has. *)
Module Reference.

Import AdvancedCrypto.

Definition xor_bits (a b : bool * (bool * (bool * (bool * (bool * (bool * (bool * bool)))))))
  : bool * (bool * (bool * (bool * (bool * (bool * (bool * bool)))))) :=
  let '(a0, (a1, (a2, (a3, (a4, (a5, (a6, a7))))))) := a in
  let '(b0, (b1, (b2, (b3, (b4, (b5, (b6, b7))))))) := b in
  (xorb a0 b0, (xorb a1 b1, (xorb a2 b2, (xorb a3 b3,
    (xorb a4 b4, (xorb a5 b5, (xorb a6 b6, xorb a7 b7))))))).

Definition xor_byte (a b : Byte.byte) : Byte.byte :=
  Byte.of_bits (xor_bits (Byte.to_bits a) (Byte.to_bits b)).

(** The pad byte at position [i] for key [k] and nonce [n]. *)
Definition pad (k n : bytes) (i : nat) : Byte.byte :=
  xor_byte (nth (i mod 32) k Byte.x00) (nth (i mod 24) n Byte.x00).

Fixpoint xor_stream (p : nat -> Byte.byte) (i : nat) (m : bytes) : bytes :=
  match m with
  | [] => []
  | b :: m' => xor_byte b (p i) :: xor_stream p (S i) m'
  end.

Definition tag (k n : bytes) : bytes := take 16 (zip_with xor_byte k n).

Definition checkLengths {A} (k n : bytes) (body : result A) : result A :=
  if bool_decide (length k = secretbox_keyLength) then
    if bool_decide (length n = secretbox_nonceLength) then body
    else Throw "bad nonce size"
  else Throw "bad key size".

Definition ref_secretbox (m n k : bytes) : result bytes :=
  checkLengths k n (Ret (tag k n ++ xor_stream (pad k n) 0 m)).

Definition ref_secretbox_open (c n k : bytes) : result (option bytes) :=
  checkLengths k n
    (if bool_decide (take 16 c = tag k n)
     then Ret (Some (xor_stream (pad k n) 0 (drop 16 c)))
     else Ret None).

Definition primitives : Primitives :=
  {| secretbox := ref_secretbox;
     secretbox_open := ref_secretbox_open;
     encodeBase58 := String.string_of_list_byte;
     decodeBase58 := fun s => Ret (String.list_byte_of_string s);
     encodeUTF8 := String.list_byte_of_string;
     decodeUTF8 := fun b => Ret (String.string_of_list_byte b) |}.

End Reference.

(* ================================================================== *)
(** * lib/realtime-communication.ts                                    *)
(* ================================================================== *)

Module Realtime.

Inductive EnvelopeType :=
  EMessage | ETyping | EPresence | EDeliveryReceipt | EReadReceipt.

(** The [data] object that [sendMessage] builds. *)
Record MessageData := mkMessageData {
  data_messageId : string;
  data_content : string;
  data_senderUsername : option string;
  data_messageType : MessageType;
  data_timestamp : Z;
}.

(** [interface RealtimeMessage]; [from] is [this.currentUser!]. *)
Record RealtimeMessage := mkRealtimeMessage {
  rm_id : string;
  rm_type : EnvelopeType;
  rm_from : option string;
  rm_to : string;
  rm_data : MessageData;
  rm_timestamp : Z;
}.

(** What has been handed to [socket.emit], oldest first. *)
Inductive Emitted :=
| EmitRegister (userId : option string)
| EmitMessage (m : RealtimeMessage).

Record Socket := mkSocket {
  connected : bool;
  emitted : list Emitted;
}.

(** [class RealtimeService]: its fields, the statuses reported through
    [onConnectionStatusChange] and the delays given to [setTimeout]. *)
Record RealtimeService := mkRealtimeService {
  socket : option Socket;
  currentUser : option string;
  messageQueue : list RealtimeMessage;
  reconnectAttempts : nat;
  maxReconnectAttempts : nat;
  heartbeatInterval : bool;
  statusReports : list ConnectionStatus;
  timeouts : list Z;
}.

(** [new RealtimeService()] *)
Definition new : RealtimeService :=
  {| socket := None; currentUser := None; messageQueue := [];
     reconnectAttempts := 0; maxReconnectAttempts := 5;
     heartbeatInterval := false; statusReports := []; timeouts := [] |}.

Definition set_socket (f : option Socket -> option Socket) (rs : RealtimeService) :=
  {| socket := f (socket rs); currentUser := currentUser rs;
     messageQueue := messageQueue rs;
     reconnectAttempts := reconnectAttempts rs;
     maxReconnectAttempts := maxReconnectAttempts rs;
     heartbeatInterval := heartbeatInterval rs;
     statusReports := statusReports rs; timeouts := timeouts rs |}.

Definition set_user (u : option string) (rs : RealtimeService) :=
  {| socket := socket rs; currentUser := u;
     messageQueue := messageQueue rs;
     reconnectAttempts := reconnectAttempts rs;
     maxReconnectAttempts := maxReconnectAttempts rs;
     heartbeatInterval := heartbeatInterval rs;
     statusReports := statusReports rs; timeouts := timeouts rs |}.

Definition set_messageQueue (q : list RealtimeMessage) (rs : RealtimeService) :=
  {| socket := socket rs; currentUser := currentUser rs;
     messageQueue := q;
     reconnectAttempts := reconnectAttempts rs;
     maxReconnectAttempts := maxReconnectAttempts rs;
     heartbeatInterval := heartbeatInterval rs;
     statusReports := statusReports rs; timeouts := timeouts rs |}.

Definition set_heartbeatInterval (b : bool) (rs : RealtimeService) :=
  {| socket := socket rs; currentUser := currentUser rs;
     messageQueue := messageQueue rs;
     reconnectAttempts := reconnectAttempts rs;
     maxReconnectAttempts := maxReconnectAttempts rs;
     heartbeatInterval := b;
     statusReports := statusReports rs; timeouts := timeouts rs |}.

(** [this.onConnectionStatusChange?.(status)] *)
Definition reportStatus (st : ConnectionStatus) (rs : RealtimeService) :=
  {| socket := socket rs; currentUser := currentUser rs;
     messageQueue := messageQueue rs;
     reconnectAttempts := reconnectAttempts rs;
     maxReconnectAttempts := maxReconnectAttempts rs;
     heartbeatInterval := heartbeatInterval rs;
     statusReports := statusReports rs ++ [st]; timeouts := timeouts rs |}.

(** [private isConnected()]: [!!this.socket?.connected] *)
Definition isConnected (rs : RealtimeService) : bool :=
  match socket rs with
  | Some sock => connected sock
  | None => false
  end.

(** [this.socket?.emit(...)] *)
Definition emit (e : Emitted) (rs : RealtimeService) : RealtimeService :=
  set_socket
    (fun o => (fun sock => {| connected := connected sock;
                             emitted := emitted sock ++ [e] |}) <$> o)
    rs.

(** [private sendRealtimeMessage(message)] *)
Definition sendRealtimeMessage (message : RealtimeMessage) (rs : RealtimeService)
  : RealtimeService :=
  emit (EmitMessage message) rs.

(** The arguments of one [sendMessage(content, recipientPublicKey,
    senderPrivateKey, messageType, fileData, senderUsername)] call (without
    the attachment) and its readings: [messageId] of [nanoid()], [now1] and
    [now2] of [Date.now()]. *)
Record SendRequest := mkSendRequest {
  req_content : string;
  req_recipientPublicKey : string;
  req_senderPrivateKey : bytes;
  req_messageType : MessageType;
  req_senderUsername : option string;
  req_messageId : string;
  req_now1 : Z;
  req_now2 : Z;
}.

(** The [realtimeMessage] object that [sendMessage] builds. *)
Definition envelope (from : option string) (r : SendRequest) : RealtimeMessage :=
  {| rm_id := req_messageId r;
     rm_type := EMessage;
     rm_from := from;
     rm_to := req_recipientPublicKey r;
     rm_data := {| data_messageId := req_messageId r;
                   data_content := req_content r;
                   data_senderUsername := req_senderUsername r;
                   data_messageType := req_messageType r;
                   data_timestamp := req_now1 r |};
     rm_timestamp := req_now2 r |}.

(** [sendMessage(...)]: the service afterwards and what the promise
    settles to.  Nothing in the [try] block throws, so the [catch] that
    rethrows is never entered. *)
Definition sendMessage (r : SendRequest) (rs : RealtimeService)
  : RealtimeService * result string :=
  let messageId := req_messageId r in
  let realtimeMessage := envelope (currentUser rs) r in
  if isConnected rs
  then (sendRealtimeMessage realtimeMessage rs, Ret messageId)
  else (set_messageQueue (messageQueue rs ++ [realtimeMessage]) rs, Ret messageId).

(** Several [sendMessage] calls in a row. *)
Definition sendMessages (rq : list SendRequest) (rs : RealtimeService)
  : RealtimeService :=
  foldl (fun rs r => fst (sendMessage r rs)) rs rq.

(** The [while (this.messageQueue.length > 0)] loop of
    [processMessageQueue], one [shift()] per iteration. *)
Fixpoint processMessageQueue_loop (fuel : nat) (rs : RealtimeService)
  : RealtimeService :=
  match fuel with
  | O => rs
  | S fuel' =>
      match messageQueue rs with
      | [] => rs
      | message :: rest =>
          processMessageQueue_loop fuel'
            (sendRealtimeMessage message (set_messageQueue rest rs))
      end
  end.

(** [private processMessageQueue()]: every iteration removes one element,
    so the length of the queue bounds the number of iterations. *)
Definition processMessageQueue (rs : RealtimeService) : RealtimeService :=
  processMessageQueue_loop (length (messageQueue rs)) rs.

(** [private startHeartbeat()] *)
Definition startHeartbeat (rs : RealtimeService) : RealtimeService :=
  set_heartbeatInterval true rs.

(** [Math.min(1000 * Math.pow(2, attempts), 30000)] *)
Definition reconnectDelay (attempts : nat) : Z :=
  Z.min (1000 * 2 ^ Z.of_nat attempts) 30000.

(** [private scheduleReconnect()]: the service afterwards and the delay
    given to [setTimeout], if a timer was set. *)
Definition scheduleReconnect (rs : RealtimeService)
  : RealtimeService * option Z :=
  if bool_decide (reconnectAttempts rs < maxReconnectAttempts rs)%nat then
    let attempts := S (reconnectAttempts rs) in
    let delay := reconnectDelay attempts in
    ({| socket := socket rs; currentUser := currentUser rs;
        messageQueue := messageQueue rs;
        reconnectAttempts := attempts;
        maxReconnectAttempts := maxReconnectAttempts rs;
        heartbeatInterval := heartbeatInterval rs;
        statusReports := statusReports rs;
        timeouts := timeouts rs ++ [delay] |}, Some delay)
  else (rs, None).

(** [connect(userId)]; [io_result] is what the call [io(url, ...)] does:
    it returns a socket or throws.  [userId] is optional because the
    reconnect timer passes [this.currentUser!], which is not checked when
    the program runs. *)
Definition connect (userId : option string) (io_result : result Socket)
    (rs : RealtimeService) : RealtimeService * option Z :=
  let rs := set_user userId rs in
  match io_result with
  | Ret sock => (set_socket (fun _ => Some sock) rs, None)
  | Throw _ => scheduleReconnect (reportStatus Disconnected rs)
  end.

(** The callback of [setTimeout] in [scheduleReconnect]. *)
Definition reconnectTimer (io_result : result Socket) (rs : RealtimeService)
  : RealtimeService * option Z :=
  connect (currentUser rs) io_result (reportStatus Reconnecting rs).

(** The handler of the socket's ['connect'] event. *)
Definition onConnect (rs : RealtimeService) : RealtimeService :=
  let rs := set_socket
              (fun o => (fun sock => {| connected := true;
                                       emitted := emitted sock |}) <$> o) rs in
  let rs := reportStatus Connected rs in
  let rs := emit (EmitRegister (currentUser rs)) rs in
  let rs := startHeartbeat rs in
  processMessageQueue rs.

(** The handler of the socket's ['disconnect'] event. *)
Definition onDisconnect (rs : RealtimeService) : RealtimeService :=
  let rs := set_socket
              (fun o => (fun sock => {| connected := false;
                                       emitted := emitted sock |}) <$> o) rs in
  reportStatus Disconnected rs.

(** [k] reconnect timers in a row whose connection attempt throws [e];
    a timer is followed by the next one only if it set one.  Returns the
    delays that were scheduled. *)
Fixpoint failedRetries (e : string) (k : nat) (rs : RealtimeService) : list Z :=
  match k with
  | O => []
  | S k' =>
      match reconnectTimer (Throw e) rs with
      | (rs', Some delay) => delay :: failedRetries e k' rs'
      | (_, None) => []
      end
  end.

(** A [connect(userId)] that throws [e], followed by [k] reconnect timers
    that fail in the same way: the delays that were scheduled. *)
Definition failedAttempts (userId e : string) (k : nat) (rs : RealtimeService)
  : list Z :=
  match connect (Some userId) (Throw e) rs with
  | (rs', Some delay) => delay :: failedRetries e k rs'
  | (_, None) => []
  end.

(** A [connect(userId)] on which [io] returns [sock], followed by the
    ['connect'] event of that socket. *)
Definition connectAndOpen (userId : string) (sock : Socket) (rs : RealtimeService)
  : RealtimeService :=
  onConnect (connect (Some userId) (Ret sock) rs).1.

(** Several [socket.emit] calls in a row. *)
Definition emitAll (es : list Emitted) (rs : RealtimeService) : RealtimeService :=
  foldl (fun rs e => emit e rs) rs es.

(** Everything emitted on the socket so far. *)
Definition emittedLog (rs : RealtimeService) : list Emitted :=
  match socket rs with
  | Some sock => emitted sock
  | None => []
  end.

End Realtime.

(* ================================================================== *)
(** * src/store/chat-store.ts                                          *)
(* ================================================================== *)

Module Store.

Import AdvancedCrypto.

Record Loading := mkLoading {
  loading_messages : bool;
  loading_chats : bool;
  loading_sendingMessage : bool;
  loading_fileUpload : bool;
}.

(** [interface ChatState], data part.  The upload maps, the message cache
    and the view flags (sidebar, search, selection, reply, pickers) are
    touched by none of the actions below and are left out.
    [encryptionKeysFrozen] says whether the object that [encryptionKeys]
    holds is frozen: the store is created through zustand's [immer]
    middleware, so what a function given to [set] returns comes out of
    immer's [produce] frozen, and [sendEncryptedMessage] writes into the
    object of [encryptionKeys] in place. *)
Record ChatState := mkChatState {
  currentUser : option UserProfile;
  chats : list Chat;
  messages : gmap string (list Message);
  activeChat : option string;
  drafts : gmap string string;
  peers : list Peer;
  onlinePeers : gset string;
  typingIndicators : list TypingIndicator;
  blockedUsers : gset string;
  encryptionKeys : gmap string bytes;
  messageQueue : list Message;
  connectionStatus : ConnectionStatus;
  loading : Loading;
  lastSyncTimestamp : Z;
  encryptionKeysFrozen : bool;
}.

(** The initial state of the store. *)
Definition initial : ChatState :=
  {| currentUser := None; chats := []; messages := ∅; activeChat := None;
     drafts := ∅; peers := []; onlinePeers := ∅; typingIndicators := [];
     blockedUsers := ∅; encryptionKeys := ∅; messageQueue := [];
     connectionStatus := Disconnected;
     loading := mkLoading false false false false;
     lastSyncTimestamp := 0;
     encryptionKeysFrozen := false |}.

(** [set({ field: v })] merges one field into the state. *)
Definition set_currentUser v (s : ChatState) : ChatState :=
  mkChatState v (chats s) (messages s) (activeChat s) (drafts s) (peers s)
    (onlinePeers s) (typingIndicators s) (blockedUsers s) (encryptionKeys s)
    (messageQueue s) (connectionStatus s) (loading s) (lastSyncTimestamp s)
    (encryptionKeysFrozen s).
Definition set_chats v (s : ChatState) : ChatState :=
  mkChatState (currentUser s) v (messages s) (activeChat s) (drafts s) (peers s)
    (onlinePeers s) (typingIndicators s) (blockedUsers s) (encryptionKeys s)
    (messageQueue s) (connectionStatus s) (loading s) (lastSyncTimestamp s)
    (encryptionKeysFrozen s).
Definition set_messages v (s : ChatState) : ChatState :=
  mkChatState (currentUser s) (chats s) v (activeChat s) (drafts s) (peers s)
    (onlinePeers s) (typingIndicators s) (blockedUsers s) (encryptionKeys s)
    (messageQueue s) (connectionStatus s) (loading s) (lastSyncTimestamp s)
    (encryptionKeysFrozen s).
Definition set_activeChat v (s : ChatState) : ChatState :=
  mkChatState (currentUser s) (chats s) (messages s) v (drafts s) (peers s)
    (onlinePeers s) (typingIndicators s) (blockedUsers s) (encryptionKeys s)
    (messageQueue s) (connectionStatus s) (loading s) (lastSyncTimestamp s)
    (encryptionKeysFrozen s).
Definition set_drafts v (s : ChatState) : ChatState :=
  mkChatState (currentUser s) (chats s) (messages s) (activeChat s) v (peers s)
    (onlinePeers s) (typingIndicators s) (blockedUsers s) (encryptionKeys s)
    (messageQueue s) (connectionStatus s) (loading s) (lastSyncTimestamp s)
    (encryptionKeysFrozen s).
Definition set_peers v (s : ChatState) : ChatState :=
  mkChatState (currentUser s) (chats s) (messages s) (activeChat s) (drafts s) v
    (onlinePeers s) (typingIndicators s) (blockedUsers s) (encryptionKeys s)
    (messageQueue s) (connectionStatus s) (loading s) (lastSyncTimestamp s)
    (encryptionKeysFrozen s).
Definition set_onlinePeers v (s : ChatState) : ChatState :=
  mkChatState (currentUser s) (chats s) (messages s) (activeChat s) (drafts s)
    (peers s) v (typingIndicators s) (blockedUsers s) (encryptionKeys s)
    (messageQueue s) (connectionStatus s) (loading s) (lastSyncTimestamp s)
    (encryptionKeysFrozen s).
Definition set_typingIndicators v (s : ChatState) : ChatState :=
  mkChatState (currentUser s) (chats s) (messages s) (activeChat s) (drafts s)
    (peers s) (onlinePeers s) v (blockedUsers s) (encryptionKeys s)
    (messageQueue s) (connectionStatus s) (loading s) (lastSyncTimestamp s)
    (encryptionKeysFrozen s).
Definition set_blockedUsers v (s : ChatState) : ChatState :=
  mkChatState (currentUser s) (chats s) (messages s) (activeChat s) (drafts s)
    (peers s) (onlinePeers s) (typingIndicators s) v (encryptionKeys s)
    (messageQueue s) (connectionStatus s) (loading s) (lastSyncTimestamp s)
    (encryptionKeysFrozen s).
Definition set_encryptionKeys v (s : ChatState) : ChatState :=
  mkChatState (currentUser s) (chats s) (messages s) (activeChat s) (drafts s)
    (peers s) (onlinePeers s) (typingIndicators s) (blockedUsers s) v
    (messageQueue s) (connectionStatus s) (loading s) (lastSyncTimestamp s)
    (encryptionKeysFrozen s).
Definition set_connectionStatus v (s : ChatState) : ChatState :=
  mkChatState (currentUser s) (chats s) (messages s) (activeChat s) (drafts s)
    (peers s) (onlinePeers s) (typingIndicators s) (blockedUsers s)
    (encryptionKeys s) (messageQueue s) v (loading s) (lastSyncTimestamp s)
    (encryptionKeysFrozen s).
Definition set_loading v (s : ChatState) : ChatState :=
  mkChatState (currentUser s) (chats s) (messages s) (activeChat s) (drafts s)
    (peers s) (onlinePeers s) (typingIndicators s) (blockedUsers s)
    (encryptionKeys s) (messageQueue s) (connectionStatus s) v
    (lastSyncTimestamp s)
    (encryptionKeysFrozen s).
Definition set_lastSyncTimestamp v (s : ChatState) : ChatState :=
  mkChatState (currentUser s) (chats s) (messages s) (activeChat s) (drafts s)
    (peers s) (onlinePeers s) (typingIndicators s) (blockedUsers s)
    (encryptionKeys s) (messageQueue s) (connectionStatus s) (loading s) v
    (encryptionKeysFrozen s).
Definition set_encryptionKeysFrozen v (s : ChatState) : ChatState :=
  mkChatState (currentUser s) (chats s) (messages s) (activeChat s) (drafts s)
    (peers s) (onlinePeers s) (typingIndicators s) (blockedUsers s)
    (encryptionKeys s) (messageQueue s) (connectionStatus s) (loading s)
    (lastSyncTimestamp s) v.

(** [state.messages[chatId] || []] *)
Definition chatMessages (chatId : string) (s : ChatState) : list Message :=
  or_else (messages s !! chatId) [].

(** [(a, b) => a.timestamp - b.timestamp] *)
Definition byTimestamp (a b : Message) : Z := msg_timestamp a - msg_timestamp b.

Definition setCurrentUser (user : option UserProfile) (s : ChatState) :=
  set_currentUser user s.

Definition setActiveChat (chatId : option string) (s : ChatState) :=
  set_activeChat chatId s.

(** [addChat(chat)] *)
Definition addChat (chat : Chat) (s : ChatState) : ChatState :=
  set_messages (<[chat_id chat := []]> (messages s))
    (set_chats (chats s ++ [chat]) s).

(** [removeChat(chatId)] *)
Definition removeChat (chatId : string) (s : ChatState) : ChatState :=
  set_activeChat
    (if bool_decide (activeChat s = Some chatId) then None else activeChat s)
    (set_messages (delete chatId (messages s))
       (set_chats
          (filter (fun chat => chat_id chat <> chatId) (chats s)) s)).

(** [addMessage(chatId, message)] *)
Definition addMessage (chatId : string) (message : Message) (s : ChatState)
  : ChatState :=
  let chatMessages := chatMessages chatId s in
  let newMessages :=
    <[chatId := Array_sort byTimestamp (chatMessages ++ [message])]> (messages s) in
  let updatedChats :=
    (fun chat =>
       if bool_decide (chat_id chat = chatId) then
         {| chat_id := chat_id chat;
            chat_type := chat_type chat;
            chat_participants := chat_participants chat;
            chat_createdBy := chat_createdBy chat;
            chat_createdAt := chat_createdAt chat;
            chat_lastMessage := Some message;
            chat_lastActivity := msg_timestamp message;
            chat_unreadCount :=
              if bool_decide (Some (chat_id chat) = activeChat s)
              then 0 else chat_unreadCount chat + 1;
            chat_isPinned := chat_isPinned chat;
            chat_isMuted := chat_isMuted chat;
            chat_isArchived := chat_isArchived chat |}
       else chat) <$> chats s in
  set_chats updatedChats (set_messages newMessages s).

(** [updateMessage(chatId, messageId, updates)] *)
Definition updateMessage (chatId messageId : string) (updates : MessageUpdates)
    (s : ChatState) : ChatState :=
  set_messages
    (<[chatId :=
         (fun msg => if bool_decide (msg_id msg = messageId)
                     then spread_message msg updates else msg)
           <$> chatMessages chatId s]> (messages s))
    s.

(** [removeMessage(chatId, messageId)] *)
Definition removeMessage (chatId messageId : string) (s : ChatState)
  : ChatState :=
  set_messages
    (<[chatId := filter (fun msg => msg_id msg <> messageId)
                   (chatMessages chatId s)]> (messages s))
    s.

(** [setMessages(chatId, messages)] *)
Definition setMessages (chatId : string) (msgs : list Message) (s : ChatState)
  : ChatState :=
  set_messages (<[chatId := Array_sort byTimestamp msgs]> (messages s)) s.

(** [addPeer(peer)] *)
Definition addPeer (peer : Peer) (s : ChatState) : ChatState :=
  match Array_findIndex
          (fun p => bool_decide (peer_publicKey p = peer_publicKey peer))
          (peers s) with
  | Some existingIndex =>
      set_peers
        (alter (fun old => spread_peer old peer) existingIndex (peers s)) s
  | None => set_peers (peers s ++ [peer]) s
  end.

(** [removePeer(publicKey)] *)
Definition removePeer (publicKey : string) (s : ChatState) : ChatState :=
  set_peers (filter (fun peer => peer_publicKey peer <> publicKey) (peers s)) s.

(** Inside [set((state) => ...)] the [state] is an immer draft.  Reading
    a field of the draft that holds a [Set] makes immer look for its MapSet
    plugin; [enableMapSet()] is called nowhere in the repository, so the
    read throws this error and the function given to [set] is left. *)
Definition mapSetError : string :=
  "[Immer] The plugin for 'MapSet' has not been loaded into Immer. To enable the plugin, import and call `enableMapSet()` when initializing your application.".

(** [state.blockedUsers], [state.onlinePeers] on the draft. *)
Definition draftSet (value : gset string) : result (gset string) :=
  Throw mapSetError.

(** [blockUser(userId)]: the store afterwards and what the call does. *)
Definition blockUser (userId : string) (s : ChatState)
  : ChatState * result unit :=
  match draftSet (blockedUsers s) with
  | Ret blocked => (set_blockedUsers (blocked ∪ {[userId]}) s, Ret tt)
  | Throw e => (s, Throw e)
  end.

(** [unblockUser(userId)] *)
Definition unblockUser (userId : string) (s : ChatState)
  : ChatState * result unit :=
  match draftSet (blockedUsers s) with
  | Ret blocked => (set_blockedUsers (blocked ∖ {[userId]}) s, Ret tt)
  | Throw e => (s, Throw e)
  end.

(** [saveDraft(chatId, content)] and [loadDraft(chatId)] *)
Definition saveDraft (chatId content : string) (s : ChatState) : ChatState :=
  set_drafts (<[chatId := content]> (drafts s)) s.

Definition loadDraft (chatId : string) (s : ChatState) : string :=
  or_else (drafts s !! chatId) "".

(** [generateSharedKey(userId, theirPublicKey)]; [sharedKey] is the reading
    of [crypto.getRandomValues] on a 32-byte array.  The new object of
    [encryptionKeys] is returned from a function given to [set], so it is
    frozen. *)
Definition generateSharedKey (userId : string) (theirPublicKey sharedKey : bytes)
    (s : ChatState) : ChatState :=
  set_encryptionKeysFrozen true
    (set_encryptionKeys (<[userId := sharedKey]> (encryptionKeys s)) s).

Definition getSharedKey (userId : string) (s : ChatState) : option bytes :=
  encryptionKeys s !! userId.

(** The id both [initializeRealtime] and [createDirectChat] build:
    [[a, b].sort()] and then [`direct_${p[0]}_${p[1]}`]. *)
Definition directChatId (a b : string) : string :=
  let participants := Array_sort defaultCompare [a; b] in
  "direct_" +:+ nth 0 participants "" +:+ "_" +:+ nth 1 participants "".

(** The test both use to find the direct chat of two users. *)
Definition isDirectChatOf (a b : string) (c : Chat) : bool :=
  bool_decide (chat_type c = Direct)
  && Array_includes (chat_participants c) a
  && Array_includes (chat_participants c) b.

(** The callback that [initializeRealtime] gives to [onMessage].  [selfId]
    is the public key of the user captured when the callback was made;
    [createdAt], [lastActivity] and [lastSeen] are the readings of
    [Date.now()]. *)
Definition onMessage (selfId : string) (incoming : Message)
    (createdAt lastActivity lastSeen : Z) (state : ChatState) : ChatState :=
  let senderId := msg_sender incoming in
  match Array_find (isDirectChatOf selfId senderId) (chats state) with
  | Some chat => addMessage (chat_id chat) incoming state
  | None =>
      let newChat :=
        {| chat_id := directChatId selfId senderId;
           chat_type := Direct;
           chat_participants := [selfId; senderId];
           chat_createdBy := senderId;
           chat_createdAt := createdAt;
           chat_lastMessage := None;
           chat_lastActivity := lastActivity;
           chat_unreadCount := 0;
           chat_isPinned := false;
           chat_isMuted := false;
           chat_isArchived := false |} in
      let s1 := addChat newChat state in
      let s2 :=
        match Array_find (fun p => bool_decide (peer_publicKey p = senderId))
                (peers state) with
        | Some _ => s1
        | None =>
            addPeer {| peer_publicKey := senderId;
                       peer_username := Some (msg_senderUsername incoming);
                       peer_nickname := None;
                       peer_lastSeen := lastSeen;
                       peer_messageCount := 0;
                       peer_isOnline := Some (Some true);
                       peer_status := Some (Some Online) |} s1
        end in
      addMessage (chat_id newChat) incoming s2
  end.

(** [set((state) => ({ loading: { ...state.loading, sendingMessage: b } }))] *)
Definition setSendingMessage (b : bool) (s : ChatState) : ChatState :=
  set_loading
    {| loading_messages := loading_messages (loading s);
       loading_chats := loading_chats (loading s);
       loading_sendingMessage := b;
       loading_fileUpload := loading_fileUpload (loading s) |} s.

(** [new Uint8Array(32)] *)
Definition mockKey : bytes := replicate 32 Byte.x00.

(** The [TypeError] of an assignment that adds a key to a frozen object
    (the module is in strict mode). *)
Definition frozenWriteError (key : string) : string :=
  "Cannot add property " +:+ key +:+ ", object is not extensible".

Section WithPrimitives.
Context {P : Primitives}.

(** [sendEncryptedMessage(chatId, content, recipientKey)] up to its
    [await]: the store at the suspension point and the message that was
    appended, or the error the promise rejects with.  [nonce], [secureId]
    and [now] are the readings of [randomBytes], of [generateSecureId()]
    and of [Date.now()]. *)
Definition sendEncryptedMessage_begin (chatId content recipientKey : string)
    (nonce : bytes) (secureId : string) (now : Z) (state : ChatState)
  : ChatState * result Message :=
  match currentUser state with
  | None => (state, Throw "No current user")
  | Some currentUser =>
      (* try *)
      let s1 := setSendingMessage true state in
      let keyStep : result (bytes * ChatState) :=
        match encryptionKeys s1 !! recipientKey with
        | Some key => Ret (key, s1)
        | None =>
            (* state.encryptionKeys[recipientKey] = sharedKey *)
            if encryptionKeysFrozen s1 then Throw (frozenWriteError recipientKey)
            else
              Ret (mockKey,
                   set_encryptionKeys
                     (<[recipientKey := mockKey]> (encryptionKeys s1)) s1)
        end in
      match keyStep with
      | Throw e =>
          (* catch: rethrow; finally *)
          (setSendingMessage false s1, Throw e)
      | Ret (sharedKey, s2) =>
          match encryptWithSharedSecret content sharedKey nonce with
          | Throw e =>
              (* catch: rethrow; finally *)
              (setSendingMessage false s2, Throw e)
          | Ret encryptedData =>
              let message :=
                {| msg_id := secureId;
                   msg_sender := user_publicKey currentUser;
                   msg_senderUsername := Some (user_username currentUser);
                   msg_recipient := recipientKey;
                   msg_content := content;
                   msg_encrypted := Some (encrypted encryptedData);
                   msg_nonce := AdvancedCrypto.nonce encryptedData;
                   msg_timestamp := now;
                   msg_status := Sending;
                   msg_messageType := TText |} in
              (addMessage chatId message s2, Ret message)
          end
      end
  end.

(** The rest of [sendEncryptedMessage] once the awaited
    [realtimeService.sendMessage(...)] has settled to [transport];
    [state] is the store at that moment. *)
Definition sendEncryptedMessage_settle (chatId : string) (message : Message)
    (transport : result string) (state : ChatState)
  : ChatState * result unit :=
  match transport with
  | Ret messageId =>
      let s := updateMessage chatId (msg_id message) (status_update Sent) state in
      (* finally *)
      (setSendingMessage false s, Ret tt)
  | Throw e =>
      (* catch: rethrow; finally *)
      (setSendingMessage false state, Throw e)
  end.

(** The whole call when nothing else touches the store during the
    [await]. *)
Definition sendEncryptedMessage (chatId content recipientKey : string)
    (nonce : bytes) (secureId : string) (now : Z)
    (transport : result string) (state : ChatState)
  : ChatState * result unit :=
  match sendEncryptedMessage_begin chatId content recipientKey nonce
          secureId now state with
  | (s, Ret message) => sendEncryptedMessage_settle chatId message transport s
  | (s, Throw e) => (s, Throw e)
  end.

End WithPrimitives.

(** What [partialize] hands to the [persist] middleware. *)
Record Persisted := mkPersisted {
  persisted_currentUser : option UserProfile;
  persisted_chats : list Chat;
  persisted_messages : gmap string (list Message);
  persisted_peers : list Peer;
  persisted_drafts : gmap string string;
  persisted_encryptionKeys : gmap string bytes;
  persisted_lastSyncTimestamp : Z;
}.

(** [partialize: (state) => ({ ... })] *)
Definition partialize (state : ChatState) : Persisted :=
  {| persisted_currentUser := currentUser state;
     persisted_chats := chats state;
     persisted_messages := messages state;
     persisted_peers := peers state;
     persisted_drafts := drafts state;
     persisted_encryptionKeys := ∅;
     persisted_lastSyncTimestamp := lastSyncTimestamp state |}.

(** The message of [chatId] with id [messageId], if the chat has one. *)
Definition findMessage (chatId messageId : string) (s : ChatState)
  : option Message :=
  Array_find (fun m => bool_decide (msg_id m = messageId)) (chatMessages chatId s).

(** Ascending order of timestamp. *)
Definition ascending (l : list Message) : Prop :=
  StronglySorted (fun a b => msg_timestamp a <= msg_timestamp b) l.

(** Several [addMessage] calls on one chat, in the order of the list. *)
Definition addMessages (chatId : string) (l : list Message) (s : ChatState)
  : ChatState :=
  foldl (fun st m => addMessage chatId m st) s l.

(** What [updateMessage] and [removeMessage] leave behind when there is
    nothing to change in the chat. *)
Definition afterAbsent (chatId : string) (s : ChatState) : ChatState :=
  match messages s !! chatId with
  | Some _ => s
  | None => set_messages (<[chatId := []]> (messages s)) s
  end.

End Store.

(* ================================================================== *)
(** * App.tsx                                                          *)
(* ================================================================== *)

Module App.

Import Store.

(** [createDirectChat(peerPublicKey, peerUsername)] of [MessengerApp];
    [publicKey] is the wallet's key, [chats] and [peers] are read from the
    store state the component was rendered with.  Returns the chat id and
    the store afterwards. *)
Definition createDirectChat (publicKey peerPublicKey : string)
    (peerUsername : option string) (createdAt lastActivity lastSeen : Z)
    (state : ChatState) : string * ChatState :=
  let expectedChatId := directChatId publicKey peerPublicKey in
  match Array_find
          (fun chat => bool_decide (chat_id chat = expectedChatId)
                       || isDirectChatOf peerPublicKey publicKey chat)
          (chats state) with
  | Some existingChat =>
      (chat_id existingChat, setActiveChat (Some (chat_id existingChat)) state)
  | None =>
      let chatId := directChatId publicKey peerPublicKey in
      let newChat :=
        {| chat_id := chatId;
           chat_type := Direct;
           chat_participants := [publicKey; peerPublicKey];
           chat_createdBy := publicKey;
           chat_createdAt := createdAt;
           chat_lastMessage := None;
           chat_lastActivity := lastActivity;
           chat_unreadCount := 0;
           chat_isPinned := false;
           chat_isMuted := false;
           chat_isArchived := false |} in
      let s1 := setActiveChat (Some chatId) (addChat newChat state) in
      let s2 :=
        match Array_find (fun p => bool_decide (peer_publicKey p = peerPublicKey))
                (peers state) with
        | Some _ => s1
        | None =>
            addPeer {| peer_publicKey := peerPublicKey;
                       peer_username := Some peerUsername;
                       peer_nickname := None;
                       peer_lastSeen := lastSeen;
                       peer_messageCount := 0;
                       peer_isOnline := Some (Some false);
                       peer_status := Some (Some Offline) |} s1
        end in
      (chatId, s2)
  end.

End App.

(* ================================================================== *)
(** * Sample data                                                      *)
(* ================================================================== *)

Module Sample.

Import Store.

Definition alice : UserProfile :=
  {| user_publicKey := "alice"; user_username := "Alice";
     user_updatedAt := 0; user_createdAt := 0 |}.

(** The store of a user who has just logged in. *)
Definition loggedIn : ChatState := setCurrentUser (Some alice) initial.

Definition nonce24 : bytes := replicate 24 Byte.x01.
Definition key32 : bytes := replicate 32 Byte.x2a.
Definition otherKey32 : bytes := replicate 32 Byte.x07.

(** A message as the transport delivers it. *)
Definition fromMallory : Message :=
  {| msg_id := "m1"; msg_sender := "mallory";
     msg_senderUsername := Some "Mallory"; msg_recipient := "alice";
     msg_content := "hello"; msg_encrypted := None; msg_nonce := "";
     msg_timestamp := 1700000000000; msg_status := Delivered;
     msg_messageType := TText |}.

Definition fromBob (id : string) (timestamp : Z) : Message :=
  {| msg_id := id; msg_sender := "bob";
     msg_senderUsername := Some "Bob"; msg_recipient := "alice";
     msg_content := "hi"; msg_encrypted := None; msg_nonce := "";
     msg_timestamp := timestamp; msg_status := Delivered;
     msg_messageType := TText |}.

(** A store with one chat that holds two messages. *)
Definition withChat : ChatState :=
  addMessage "direct_alice_bob" (fromBob "b1" 10)
    (addMessage "direct_alice_bob" (fromBob "b2" 20) loggedIn).

(** A transport that lost its connection. *)
Definition offlineService : Realtime.RealtimeService :=
  Realtime.set_socket
    (fun _ => Some {| Realtime.connected := false; Realtime.emitted := [] |})
    (Realtime.set_user (Some "alice") Realtime.new).

Definition request (id content : string) (now : Z) : Realtime.SendRequest :=
  {| Realtime.req_content := content;
     Realtime.req_recipientPublicKey := "bob";
     Realtime.req_senderPrivateKey := Store.mockKey;
     Realtime.req_messageType := TText;
     Realtime.req_senderUsername := Some "Alice";
     Realtime.req_messageId := id;
     Realtime.req_now1 := now;
     Realtime.req_now2 := now |}.

End Sample.

(* ================================================================== *)
(** * src/store/chat-store.ts: the remaining actions and the selectors *)
(* ================================================================== *)

Module StoreActions.

Import AdvancedCrypto Store.

(** [setTyping(indicator)] *)
Definition setTyping (indicator : TypingIndicator) (s : ChatState) : ChatState :=
  let filtered :=
    filter (fun t => ~ (typing_chatId t = typing_chatId indicator
                        /\ typing_userId t = typing_userId indicator))
      (typingIndicators s) in
  set_typingIndicators (filtered ++ [indicator]) s.

(** [clearTyping(chatId, userId)] *)
Definition clearTyping (chatId userId : string) (s : ChatState) : ChatState :=
  set_typingIndicators
    (filter (fun t => ~ (typing_chatId t = chatId /\ typing_userId t = userId))
       (typingIndicators s)) s.

(** [setPeerOnline(publicKey, online)]: the store afterwards and what
    the call does.  Its first statement reads [state.onlinePeers] on the
    draft.  [Date.now()] would be read once for every matching peer;
    [clock i] is the reading for the peer at index [i]. *)
Definition setPeerOnline (publicKey : string) (online : bool) (clock : nat -> Z)
    (s : ChatState) : ChatState * result unit :=
  match draftSet (onlinePeers s) with
  | Throw e => (s, Throw e)
  | Ret onlineBefore =>
      let newOnlinePeers :=
        if online then onlineBefore ∪ {[publicKey]}
        else onlineBefore ∖ {[publicKey]} in
      (set_peers
         (imap (fun i peer =>
                  if bool_decide (peer_publicKey peer = publicKey) then
                    {| peer_publicKey := peer_publicKey peer;
                       peer_username := peer_username peer;
                       peer_nickname := peer_nickname peer;
                       peer_lastSeen :=
                         if online then clock i else peer_lastSeen peer;
                       peer_messageCount := peer_messageCount peer;
                       peer_isOnline := Some (Some online);
                       peer_status := peer_status peer |}
                  else peer) (peers s))
         (set_onlinePeers newOnlinePeers s), Ret tt)
  end.

(** [interface PresenceData] (the device is left out). *)
Record PresenceData := mkPresenceData {
  presence_userId : string;
  presence_status : PresenceStatus;
  presence_lastSeen : Z;
}.

(** The callback that [initializeRealtime] gives to [onPresence]; what
    [setPeerOnline] throws leaves the callback. *)
Definition onPresence (presence : PresenceData) (clock : nat -> Z)
    (s : ChatState) : ChatState * result unit :=
  setPeerOnline (presence_userId presence)
    (bool_decide (presence_status presence = Online)) clock s.

(** The callback that [initializeRealtime] gives to [onConnectionStatus]. *)
Definition onConnectionStatus (status : ConnectionStatus) (s : ChatState)
  : ChatState :=
  set_connectionStatus status s.

(** [syncMessages()]; [currentTime] is the reading of [Date.now()]. *)
Definition syncMessages (currentTime : Z) (s : ChatState) : ChatState :=
  set_lastSyncTimestamp currentTime s.

(** [useActiveChat()] *)
Definition useActiveChat (s : ChatState) : option Chat :=
  Array_find (fun chat => bool_decide (Some (chat_id chat) = activeChat s)) (chats s).

(** [useActiveChatMessages()] *)
Definition useActiveChatMessages (s : ChatState) : list Message :=
  match activeChat s with
  | Some activeChat => or_else (messages s !! activeChat) []
  | None => []
  end.

(** [useUnreadCount()] *)
Definition useUnreadCount (s : ChatState) : Z :=
  foldl (fun total chat => total + chat_unreadCount chat) 0 (chats s).

(** [usePeerByPublicKey(publicKey)] *)
Definition usePeerByPublicKey (publicKey : string) (s : ChatState) : option Peer :=
  Array_find (fun peer => bool_decide (peer_publicKey peer = publicKey)) (peers s).

(** [useTypingInChat(chatId)] *)
Definition useTypingInChat (chatId : string) (s : ChatState)
  : list TypingIndicator :=
  filter (fun t => typing_chatId t = chatId) (typingIndicators s).

(** The public keys of the peer list, in its order. *)
Definition peerKeys (s : ChatState) : list string := peer_publicKey <$> peers s.

Section WithPrimitives.
Context {P : Primitives}.

(** [sendEncryptedMessage(chatId, content, recipientKey)] together with the
    transport it calls, when nothing else runs during the [await].
    [messageId], [now1] and [now2] are the readings that
    [realtimeService.sendMessage] makes. *)
Definition sendEncryptedMessageVia (chatId content recipientKey : string)
    (nonce : bytes) (secureId : string) (now : Z)
    (messageId : string) (now1 now2 : Z)
    (world : ChatState * Realtime.RealtimeService)
  : (ChatState * Realtime.RealtimeService) * result unit :=
  let '(state, rs) := world in
  match currentUser state with
  | None => ((state, rs), Throw "No current user")
  | Some currentUser =>
      match sendEncryptedMessage_begin chatId content recipientKey nonce
              secureId now state with
      | (s, Throw e) => ((s, rs), Throw e)
      | (s, Ret message) =>
          let request :=
            {| Realtime.req_content := content;
               Realtime.req_recipientPublicKey := recipientKey;
               Realtime.req_senderPrivateKey := replicate 32 Byte.x00;
               Realtime.req_messageType := TText;
               Realtime.req_senderUsername := Some (user_username currentUser);
               Realtime.req_messageId := messageId;
               Realtime.req_now1 := now1;
               Realtime.req_now2 := now2 |} in
          let '(rs', transport) := Realtime.sendMessage request rs in
          let '(s', outcome) :=
            sendEncryptedMessage_settle chatId message transport s in
          ((s', rs'), outcome)
      end
  end.

(** What can happen to the store: a call of one of its actions, with the
    readings the call makes, or an event that one of the callbacks of
    [initializeRealtime] receives. *)
Inductive Action :=
| SetCurrentUser (user : option UserProfile)
| SetActiveChat (chatId : option string)
| AddChat (chat : Chat)
| RemoveChat (chatId : string)
| AddMessage (chatId : string) (message : Message)
| UpdateMessage (chatId messageId : string) (updates : MessageUpdates)
| RemoveMessage (chatId messageId : string)
| SetMessages (chatId : string) (msgs : list Message)
| AddPeer (peer : Peer)
| RemovePeer (publicKey : string)
| SetPeerOnline (publicKey : string) (online : bool) (clock : nat -> Z)
| SetTyping (indicator : TypingIndicator)
| ClearTyping (chatId userId : string)
| BlockUser (userId : string)
| UnblockUser (userId : string)
| SaveDraft (chatId content : string)
| SyncMessages (currentTime : Z)
| GenerateSharedKey (userId : string) (theirPublicKey sharedKey : bytes)
| SendEncryptedMessage (chatId content recipientKey : string) (nonce : bytes)
    (secureId : string) (now : Z) (transport : result string)
| CreateDirectChat (publicKey peerPublicKey : string)
    (peerUsername : option string) (createdAt lastActivity lastSeen : Z)
| InboundMessage (selfId : string) (incoming : Message)
    (createdAt lastActivity lastSeen : Z)
| InboundPresence (presence : PresenceData) (clock : nat -> Z)
| ConnectionStatusChange (status : ConnectionStatus).

(** The store after an action; what the action returns or throws is
    dropped. *)
Definition perform (a : Action) (s : ChatState) : ChatState :=
  match a with
  | SetCurrentUser user => setCurrentUser user s
  | SetActiveChat chatId => setActiveChat chatId s
  | AddChat chat => addChat chat s
  | RemoveChat chatId => removeChat chatId s
  | AddMessage chatId message => addMessage chatId message s
  | UpdateMessage chatId messageId updates =>
      updateMessage chatId messageId updates s
  | RemoveMessage chatId messageId => removeMessage chatId messageId s
  | SetMessages chatId msgs => setMessages chatId msgs s
  | AddPeer peer => addPeer peer s
  | RemovePeer publicKey => removePeer publicKey s
  | SetPeerOnline publicKey online clock =>
      (setPeerOnline publicKey online clock s).1
  | SetTyping indicator => setTyping indicator s
  | ClearTyping chatId userId => clearTyping chatId userId s
  | BlockUser userId => (blockUser userId s).1
  | UnblockUser userId => (unblockUser userId s).1
  | SaveDraft chatId content => saveDraft chatId content s
  | SyncMessages currentTime => syncMessages currentTime s
  | GenerateSharedKey userId theirPublicKey sharedKey =>
      generateSharedKey userId theirPublicKey sharedKey s
  | SendEncryptedMessage chatId content recipientKey nonce secureId now
      transport =>
      (sendEncryptedMessage chatId content recipientKey nonce secureId now
         transport s).1
  | CreateDirectChat publicKey peerPublicKey peerUsername createdAt
      lastActivity lastSeen =>
      (App.createDirectChat publicKey peerPublicKey peerUsername createdAt
         lastActivity lastSeen s).2
  | InboundMessage selfId incoming createdAt lastActivity lastSeen =>
      onMessage selfId incoming createdAt lastActivity lastSeen s
  | InboundPresence presence clock => (onPresence presence clock s).1
  | ConnectionStatusChange status => onConnectionStatus status s
  end.

(** Actions one after the other. *)
Definition performAll (actions : list Action) (s : ChatState) : ChatState :=
  foldl (fun s a => perform a s) s actions.

End WithPrimitives.

End StoreActions.

(* ================================================================== *)
(** * App.tsx: the details of the active chat                          *)
(* ================================================================== *)

Module AppView.

Import Store.

(** [s.slice(0, 4)] and [s.slice(-4)] *)
Definition slice_first4 (s : string) : string := String.substring 0 4 s.
Definition slice_last4 (s : string) : string :=
  String.substring (String.length s - 4) 4 s.

(** [a || b] on strings that may be absent: absent and empty are falsy. *)
Definition truthy (o : option string) : option string :=
  match o with
  | Some "" => None
  | other => other
  end.

(** What [getActiveChatDetails] returns for a direct chat. *)
Record ChatDetails := mkChatDetails {
  details_id : string;
  details_name : string;
  details_recipientId : option string;
  details_isOnline : bool;
}.

(** [getActiveChatDetails()] of [MessengerApp]; [None] when it returns
    [null] or falls through. *)
Definition getActiveChatDetails (publicKey : string) (s : ChatState)
  : option ChatDetails :=
  match activeChat s with
  | None => None
  | Some active =>
      match Array_find (fun c => bool_decide (chat_id c = active)) (chats s) with
      | None => None
      | Some chat =>
          if bool_decide (chat_type chat = Direct) then
            let otherParticipant :=
              Array_find (fun p => bool_decide (p <> publicKey))
                (chat_participants chat) in
            let peer :=
              match otherParticipant with
              | Some other =>
                  Array_find (fun p => bool_decide (peer_publicKey p = other))
                    (peers s)
              | None => None
              end in
            let shortened :=
              match otherParticipant with
              | Some other => slice_first4 other +:+ "..." +:+ slice_last4 other
              | None => "undefined...undefined"
              end in
            Some {| details_id := chat_id chat;
                    details_name :=
                      match truthy (peer ≫= fun p => read (peer_username p)) with
                      | Some name => name
                      | None =>
                          match truthy (peer ≫= fun p => read (peer_nickname p)) with
                          | Some name => name
                          | None => shortened
                          end
                      end;
                    details_recipientId := otherParticipant;
                    details_isOnline :=
                      match peer ≫= fun p => read (peer_isOnline p) with
                      | Some true => true
                      | _ => false
                      end |}
          else None
      end
  end.

End AppView.

(* ================================================================== *)
(** * lib/realtime-communication.ts: disconnecting, and runs of events *)
(* ================================================================== *)

Module Transport.

Import Realtime.

(** [disconnect()] *)
Definition disconnect (rs : RealtimeService) : RealtimeService :=
  let rs := match socket rs with
            | Some _ => set_socket (fun _ => None) rs
            | None => rs
            end in
  let rs := if heartbeatInterval rs then set_heartbeatInterval false rs else rs in
  reportStatus Disconnected rs.

(** The handler of the socket's ['reconnect_attempt'] event. *)
Definition onReconnectAttempt (rs : RealtimeService) : RealtimeService :=
  reportStatus Reconnecting rs.

(** What can happen to a service: the calls of its public methods and the
    callbacks it has registered. *)
Inductive Event :=
| Connect (userId : string) (io_result : result Socket)
| TimerFires (io_result : result Socket)
| SocketConnects
| SocketDisconnects
| SocketReconnectAttempt
| Send (r : SendRequest)
| Disconnect.

Definition step (e : Event) (rs : RealtimeService) : RealtimeService :=
  match e with
  | Connect userId io_result => (connect (Some userId) io_result rs).1
  | TimerFires io_result => (reconnectTimer io_result rs).1
  | SocketConnects => onConnect rs
  | SocketDisconnects => onDisconnect rs
  | SocketReconnectAttempt => onReconnectAttempt rs
  | Send r => (sendMessage r rs).1
  | Disconnect => disconnect rs
  end.

Definition run (es : list Event) (rs : RealtimeService) : RealtimeService :=
  foldl (fun rs e => step e rs) rs es.

(** [io(url, ...)] hands out a socket that is not connected yet. *)
Definition freshSockets (e : Event) : Prop :=
  match e with
  | Connect _ (Ret sock) | TimerFires (Ret sock) => connected sock = false
  | _ => True
  end.

End Transport.

(* ================================================================== *)
(** * src/lib/advanced-crypto.ts: key pairs, signatures, key exchange  *)
(* ================================================================== *)

Module AsymmetricCrypto.

Import AdvancedCrypto.

(** [interface KeyPair] *)
Record KeyPair := mkKeyPair {
  publicKey : bytes;
  secretKey : bytes;
}.

(** [interface MessageSignature] *)
Record MessageSignature := mkMessageSignature {
  sig_signature : string;
  sig_publicKey : string;
  sig_timestamp : Z;
}.

(** The rest of what is imported from tweetnacl: [box], [box.open],
    [box.before], [box.keyPair.fromSecretKey], [hash], [sign.detached] and
    [sign.detached.verify].  [box_publicKey] is the public key that
    tweetnacl computes for a box secret key, [sign_publicKey] the one it
    computes for a signing seed.  All of them throw on arguments of the
    wrong size. *)
Class NaclPrimitives := {
  box : bytes -> bytes -> bytes -> bytes -> result bytes;
  box_open : bytes -> bytes -> bytes -> bytes -> result (option bytes);
  box_before : bytes -> bytes -> result bytes;
  box_publicKey : bytes -> bytes;
  box_keyPair_fromSecretKey : bytes -> result KeyPair;
  hash : bytes -> bytes;
  sign_publicKey : bytes -> bytes;
  sign_detached : bytes -> bytes -> result bytes;
  sign_detached_verify : bytes -> bytes -> bytes -> result bool;
}.

(** [box.nonceLength], [box.secretKeyLength], [sign.secretKeyLength] *)
Definition box_nonceLength : nat := 24.
Definition box_secretKeyLength : nat := 32.
Definition sign_secretKeyLength : nat := 64.

Section WithNacl.
Context {N : NaclPrimitives}.

(** A signing secret key as tweetnacl makes it: the seed followed by the
    public key of the seed. *)
Definition signingKey (privateKey : bytes) : Prop :=
  length privateKey = sign_secretKeyLength
  /\ drop 32 privateKey = sign_publicKey (take 32 privateKey).

(** What tweetnacl documents about these primitives. *)
Class NaclSpec : Prop := {
  hash_length : forall b : bytes, length (hash b) = 64%nat;
  fromSecretKey_returns : forall sk : bytes,
    length sk = box_secretKeyLength ->
    box_keyPair_fromSecretKey sk
    = Ret {| publicKey := box_publicKey sk; secretKey := sk |};
  box_open_box : forall m n skA skB : bytes,
    length n = box_nonceLength ->
    length skA = box_secretKeyLength ->
    length skB = box_secretKeyLength ->
    exists c, box m n (box_publicKey skB) skA = Ret c
              /\ box_open c n (box_publicKey skA) skB = Ret (Some m);
  box_before_agrees : forall skA skB : bytes,
    length skA = box_secretKeyLength ->
    length skB = box_secretKeyLength ->
    exists k, box_before (box_publicKey skB) skA = Ret k
              /\ box_before (box_publicKey skA) skB = Ret k
              /\ length k = secretbox_keyLength;
  verify_sign : forall m privateKey : bytes,
    signingKey privateKey ->
    exists sig, sign_detached m privateKey = Ret sig
                /\ sign_detached_verify m sig (drop 32 privateKey) = Ret true;
}.

Context {P : Primitives}.

(** [a && b] on an optional string: absent and empty are falsy. *)
Definition present (o : option string) : option string :=
  match o with
  | Some "" => None
  | other => other
  end.

(** The loop of [deriveKey]: [rounds] times [derived = hash(derived)]. *)
Fixpoint hashRounds (rounds : nat) (derived : bytes) : bytes :=
  match rounds with
  | O => derived
  | S rounds' => hashRounds rounds' (hash derived)
  end.

(** [deriveKey(password, salt)] *)
Definition deriveKey (password : string) (salt : bytes) : bytes :=
  let passwordBytes := encodeUTF8 password in
  let derived := passwordBytes ++ salt in
  take 32 (hashRounds 1000 derived).

(** [encryptWithForwardSecrecy(message, recipientPublicKey,
    senderPrivateKey?)]; [recipientPublicKey] stands for its [toBytes()],
    [ephemeralKeyPair] and [nonce] are the readings of [box.keyPair()] and
    of [randomBytes(box.nonceLength)]. *)
Definition encryptWithForwardSecrecy (message : string)
    (recipientPublicKey : bytes) (senderPrivateKey : option bytes)
    (ephemeralKeyPair : KeyPair) (nonce : bytes) : result EncryptedData :=
  try_catch
    (let messageBytes := encodeUTF8 message in
     let! encrypted := box messageBytes nonce recipientPublicKey
                         (secretKey ephemeralKeyPair) in
     let! signature :=
       match senderPrivateKey with
       | Some privateKey =>
           let messageHash := hash messageBytes in
           let! signatureBytes := sign_detached messageHash privateKey in
           Ret (Some (encodeBase58 signatureBytes))
       | None => Ret None
       end in
     Ret {| encrypted := encodeBase58 encrypted;
            AdvancedCrypto.nonce := encodeBase58 nonce;
            ephemeralPublicKey := Some (encodeBase58 (publicKey ephemeralKeyPair));
            signature := signature;
            algorithm := NaclBox;
            version := VERSION |})
    (fun _ => Throw "Failed to encrypt message").

(** [decryptWithForwardSecrecy(encryptedData, recipientPrivateKey,
    senderPublicKey?)]; bs58 throws when it is given [undefined]. *)
Definition decryptWithForwardSecrecy (encryptedData : EncryptedData)
    (recipientPrivateKey : bytes) (senderPublicKey : option bytes)
  : result (option string) :=
  try_catch
    (match algorithm encryptedData with
     | NaclBox =>
         let! encryptedBytes := decodeBase58 (encrypted encryptedData) in
         let! nonceBytes := decodeBase58 (AdvancedCrypto.nonce encryptedData) in
         let! ephemeralPublicKeyBytes :=
           match ephemeralPublicKey encryptedData with
           | Some key => decodeBase58 key
           | None => Throw "Expected String"
           end in
         let! decrypted := box_open encryptedBytes nonceBytes
                             ephemeralPublicKeyBytes recipientPrivateKey in
         match decrypted with
         | None => Ret None
         | Some decrypted =>
             let! message := decodeUTF8 decrypted in
             match present (signature encryptedData), senderPublicKey with
             | Some signature, Some senderPubKeyBytes =>
                 let messageHash := hash decrypted in
                 let! signatureBytes := decodeBase58 signature in
                 let! isValid := sign_detached_verify messageHash signatureBytes
                                   senderPubKeyBytes in
                 if isValid then Ret (Some message) else Ret None
             | _, _ => Ret (Some message)
             end
         end
     | _ => Throw "Unsupported encryption algorithm"
     end)
    (fun _ => Ret None).

(** [signMessage(message, privateKey)]; [now] is the reading of
    [Date.now()]. *)
Definition signMessage (message : string) (privateKey : bytes) (now : Z)
  : result MessageSignature :=
  let messageBytes := encodeUTF8 message in
  let messageHash := hash messageBytes in
  let! signature := sign_detached messageHash privateKey in
  let publicKey := drop 32 privateKey in
  Ret {| sig_signature := encodeBase58 signature;
         sig_publicKey := encodeBase58 publicKey;
         sig_timestamp := now |}.

(** [verifyMessageSignature(message, signature, publicKey?)] *)
Definition verifyMessageSignature (message : string)
    (signature : MessageSignature) (publicKey : option bytes) : result bool :=
  try_catch
    (let messageBytes := encodeUTF8 message in
     let messageHash := hash messageBytes in
     let! signatureBytes := decodeBase58 (sig_signature signature) in
     let! publicKeyBytes :=
       match publicKey with
       | Some key => Ret key
       | None => decodeBase58 (sig_publicKey signature)
       end in
     sign_detached_verify messageHash signatureBytes publicKeyBytes)
    (fun _ => Ret false).

(** [hashData(data)] for a string and for a byte array. *)
Definition hashData (data : string + bytes) : string :=
  let dataBytes := match data with
                   | inl text => encodeUTF8 text
                   | inr raw => raw
                   end in
  encodeBase58 (hash dataBytes).

(** [generateDeterministicKey(seed)] *)
Definition generateDeterministicKey (seed : string) : result KeyPair :=
  let seedBytes := encodeUTF8 seed in
  let hashedSeed := hash seedBytes in
  box_keyPair_fromSecretKey (take 32 hashedSeed).

(** [performKeyExchange(myPrivateKey, theirPublicKey)] *)
Definition performKeyExchange (myPrivateKey theirPublicKey : bytes)
  : result bytes :=
  box_before theirPublicKey myPrivateKey.

End WithNacl.

End AsymmetricCrypto.

(** An instance of the asymmetric primitives on which the functions can be
    run, built on the cipher of [Reference]: the public key of a secret is
    the secret itself and two parties share the xor of their secrets.  The
    proofs rely only on [NaclSpec], which this instance has. *)
Module ReferenceNacl.

Import AdvancedCrypto AsymmetricCrypto Reference.

Definition shared (theirPublic mySecret : bytes) : bytes :=
  zip_with xor_byte theirPublic mySecret.

Definition checkKeys {A} (pk sk : bytes) (body : result A) : result A :=
  if bool_decide (length pk = 32%nat) then
    if bool_decide (length sk = 32%nat) then body
    else Throw "bad secret key size"
  else Throw "bad public key size".

Definition digest (m : bytes) : Byte.byte := foldr xor_byte Byte.x00 m.

Definition mac (m pk : bytes) : bytes :=
  pk ++ ((fun b => xor_byte b (digest m)) <$> pk).

Definition primitives : NaclPrimitives :=
  {| box := fun m n pk sk =>
       checkKeys pk sk (ref_secretbox m n (shared pk sk));
     box_open := fun c n pk sk =>
       checkKeys pk sk (ref_secretbox_open c n (shared pk sk));
     box_before := fun pk sk => checkKeys pk sk (Ret (shared pk sk));
     box_publicKey := fun sk => sk;
     box_keyPair_fromSecretKey := fun sk =>
       if bool_decide (length sk = 32%nat)
       then Ret {| publicKey := sk; secretKey := sk |}
       else Throw "bad secret key size";
     hash := fun m => replicate 64 (digest m);
     sign_publicKey := fun seed => seed;
     sign_detached := fun m sk =>
       if bool_decide (length sk = 64%nat) then Ret (mac m (drop 32 sk))
       else Throw "bad secret key size";
     sign_detached_verify := fun m sig pk =>
       if bool_decide (length sig = 64%nat) then
         if bool_decide (length pk = 32%nat)
         then Ret (bool_decide (sig = mac m pk))
         else Throw "bad public key size"
       else Throw "bad signature size" |}.

(** A signing secret key of the instance: seed and public key are equal. *)
Definition signingSecret : bytes :=
  replicate 32 Byte.x05 ++ replicate 32 Byte.x05.

End ReferenceNacl.

(* ================================================================== *)
(** * lib/solana-name-service.ts                                       *)
(* ================================================================== *)

(** Strings here are sequences of code units below 256, one per
    character of the [string]. *)
Module SolanaNameService.

Import Stdlib.Strings.Ascii.

(** The code unit of a character. *)
Definition code (c : ascii) : nat := Ascii.nat_of_ascii c.

Definition between (lo hi n : nat) : bool := (lo <=? n)%nat && (n <=? hi)%nat.

(** [String.prototype.toLowerCase] on one code unit below 256: the Latin
    capital letters, with and without accent, move up by 32. *)
Definition lowerChar (c : ascii) : ascii :=
  let n := code c in
  if between 65 90 n || between 192 214 n || between 216 222 n
  then Ascii.ascii_of_nat (n + 32) else c.

Fixpoint toLowerCase (s : string) : string :=
  match s with
  | EmptyString => EmptyString
  | String c rest => String (lowerChar c) (toLowerCase rest)
  end.

(** The class [[a-zA-Z0-9_-]]. *)
Definition nameChar (c : ascii) : bool :=
  let n := code c in
  between 97 122 n || between 65 90 n || between 48 57 n
  || (n =? 95)%nat || (n =? 45)%nat.

(** The class [[A-Za-z0-9]]. *)
Definition alnumChar (c : ascii) : bool :=
  let n := code c in
  between 65 90 n || between 97 122 n || between 48 57 n.

(** [/^[...]+$/.test(s)] for a class of characters. *)
Fixpoint allChars (p : ascii -> bool) (s : string) : bool :=
  match s with
  | EmptyString => true
  | String c rest => p c && allChars p rest
  end.

Definition matchesClass (p : ascii -> bool) (s : string) : bool :=
  negb (String.eqb s "") && allChars p s.

(** [s.startsWith(c)] and [s.endsWith(c)] for a string [c] of one
    character. *)
Definition startsWith (c : ascii) (s : string) : bool :=
  match s with
  | String first _ => Ascii.eqb first c
  | EmptyString => false
  end.

Fixpoint endsWith (c : ascii) (s : string) : bool :=
  match s with
  | EmptyString => false
  | String last EmptyString => Ascii.eqb last c
  | String _ rest => endsWith c rest
  end.

(** What [validateUsername] returns. *)
Record Validation := mkValidation {
  valid : bool;
  validation_error : option string;
}.

Definition reserved : list string :=
  ["admin"; "root"; "system"; "solana"; "sol"; "chat"; "support"; "help"].

(** [private validateUsername(username)] *)
Definition validateUsername (username : string) : Validation :=
  if (String.length username <? 3)%nat then
    mkValidation false (Some "Username must be at least 3 characters long")
  else if (32 <? String.length username)%nat then
    mkValidation false (Some "Username must be less than 32 characters long")
  else if negb (matchesClass nameChar username) then
    mkValidation false
      (Some "Username can only contain letters, numbers, underscores, and hyphens")
  else if startsWith "-" username || endsWith "-" username
          || startsWith "_" username || endsWith "_" username then
    mkValidation false (Some "Username cannot start or end with special characters")
  else if Array_includes reserved (toLowerCase username) then
    mkValidation false (Some "This username is reserved")
  else mkValidation true None.

(** [interface SolanaNameRecord] *)
Record SolanaNameRecord := mkSolanaNameRecord {
  domain : string;
  owner : string;
  resolver : string;
  ttl : Z;
  records : gmap string string;
  createdAt : Z;
  expiresAt : Z;
}.

(** The two maps of [class SolanaNameService]. *)
Record Registry := mkRegistry {
  nameRegistry : gmap string SolanaNameRecord;
  reverseRegistry : gmap string string;
}.

(** A service whose storage holds nothing. *)
Definition empty : Registry := mkRegistry ∅ ∅.

(** What [registerUsername] resolves to. *)
Record Registration := mkRegistration {
  success : bool;
  registration_error : option string;
  txId : option string;
}.

(** An optional string as a condition: absent and empty are falsy. *)
Definition truthy (o : option string) : option string :=
  match o with
  | Some "" => None
  | other => other
  end.

(** [registerUsername(username, walletAddress, signTransaction)];
    [signing] is what building the transaction and awaiting
    [signTransaction] does, [mockTxId] the id that is made up, and
    [created], [createdAtNow], [expiresFrom] the three readings of
    [Date.now()]. *)
Definition registerUsername (username walletAddress : string)
    (signing : result unit) (mockTxId : string)
    (created createdAtNow expiresFrom : Z) (st : Registry)
  : Registry * Registration :=
  let validation := validateUsername username in
  if negb (valid validation) then
    (st, mkRegistration false (validation_error validation) None)
  else if bool_decide (is_Some (nameRegistry st !! toLowerCase username)) then
    (st, mkRegistration false (Some "Username is already taken") None)
  else
    match truthy (reverseRegistry st !! walletAddress) with
    | Some existingUsername =>
        (st, mkRegistration false
               (Some "Wallet already has a registered username") None)
    | None =>
        match signing with
        | Throw _ =>
            (* catch *)
            (st, mkRegistration false (Some "Failed to register username") None)
        | Ret _ =>
            let record :=
              {| domain := toLowerCase username;
                 owner := walletAddress;
                 resolver := walletAddress;
                 ttl := 86400;
                 records := <["created" := pretty created]>
                              {["wallet" := walletAddress]};
                 createdAt := createdAtNow;
                 expiresAt := expiresFrom + 365 * 24 * 60 * 60 * 1000 |} in
            ({| nameRegistry :=
                  <[toLowerCase username := record]> (nameRegistry st);
                reverseRegistry :=
                  <[walletAddress := toLowerCase username]> (reverseRegistry st) |},
             mkRegistration true None (Some mockTxId))
        end
    end.

(** [resolveUsername(username)]; [now] is the reading of [Date.now()]. *)
Definition resolveUsername (username : string) (now : Z) (st : Registry)
  : Registry * option string :=
  match nameRegistry st !! toLowerCase username with
  | None => (st, None)
  | Some record =>
      if (expiresAt record <? now)%Z then
        ({| nameRegistry := delete (toLowerCase username) (nameRegistry st);
            reverseRegistry := delete (owner record) (reverseRegistry st) |},
         None)
      else (st, Some (owner record))
  end.

(** [reverseResolve(walletAddress)] *)
Definition reverseResolve (walletAddress : string) (now : Z) (st : Registry)
  : Registry * option string :=
  match truthy (reverseRegistry st !! walletAddress) with
  | None => (st, None)
  | Some username =>
      let purged :=
        {| nameRegistry := delete username (nameRegistry st);
           reverseRegistry := delete walletAddress (reverseRegistry st) |} in
      match nameRegistry st !! username with
      | None => (purged, None)
      | Some record =>
          if (expiresAt record <? now)%Z then (purged, None)
          else (st, Some username)
      end
  end.

(** [isUsernameAvailable(username)] *)
Definition isUsernameAvailable (username : string) (now : Z) (st : Registry)
  : Registry * bool :=
  if negb (valid (validateUsername username)) then (st, false)
  else
    match nameRegistry st !! toLowerCase username with
    | None => (st, true)
    | Some record =>
        if (expiresAt record <? now)%Z then
          ({| nameRegistry := delete (toLowerCase username) (nameRegistry st);
              reverseRegistry := delete (owner record) (reverseRegistry st) |},
           true)
        else (st, false)
    end.

(** [formatDisplayName(address, username?)] *)
Definition formatDisplayName (address : string) (username : option string)
  : string :=
  match truthy username with
  | Some name => "@" +:+ name
  | None =>
      String.substring 0 4 address +:+ "..."
      +:+ String.substring (String.length address - 4) 4 address
  end.

Inductive InputType := IsUsername | IsAddress.

Record UserInput := mkUserInput {
  input_type : InputType;
  input_value : string;
}.

(** [parseUserInput(input)] *)
Definition parseUserInput (input : string) : UserInput :=
  if startsWith "@" input then
    mkUserInput IsUsername (String.substring 1 (String.length input - 1) input)
  else if (32 <=? String.length input)%nat && matchesClass alnumChar input then
    mkUserInput IsAddress input
  else mkUserInput IsUsername input.

(** The two maps describe the same ownership, and no name is empty. *)
Definition consistent (st : Registry) : Prop :=
  (forall name record, nameRegistry st !! name = Some record ->
     reverseRegistry st !! owner record = Some name)
  /\ (forall wallet name, reverseRegistry st !! wallet = Some name ->
        exists record, nameRegistry st !! name = Some record
                       /\ owner record = wallet)
  /\ nameRegistry st !! "" = None.

(** [registerUsername] stops once, at [await signTransaction(transaction)].
    Before that it makes its checks and builds the transaction without
    writing to the maps: it has returned, or it waits.  [building] is what
    building the transaction and calling [signTransaction] do before the
    promise is awaited. *)
Inductive Started :=
| Returned (registration : Registration)
| Awaiting.

Definition registerUsername_begin (username walletAddress : string)
    (building : result unit) (st : Registry) : Started :=
  let validation := validateUsername username in
  if negb (valid validation) then
    Returned (mkRegistration false (validation_error validation) None)
  else if bool_decide (is_Some (nameRegistry st !! toLowerCase username)) then
    Returned (mkRegistration false (Some "Username is already taken") None)
  else
    match truthy (reverseRegistry st !! walletAddress) with
    | Some existingUsername =>
        Returned (mkRegistration false
                    (Some "Wallet already has a registered username") None)
    | None =>
        match building with
        | Throw _ =>
            (* catch *)
            Returned (mkRegistration false (Some "Failed to register username")
                        None)
        | Ret _ => Awaiting
        end
    end.

(** The rest of [registerUsername] once the awaited signature has settled
    to [signed]; [st] is the registry at that moment, and nothing is
    checked again. *)
Definition registerUsername_settle (username walletAddress : string)
    (signed : result unit) (mockTxId : string)
    (created createdAtNow expiresFrom : Z) (st : Registry)
  : Registry * Registration :=
  match signed with
  | Throw _ =>
      (* catch *)
      (st, mkRegistration false (Some "Failed to register username") None)
  | Ret _ =>
      let record :=
        {| domain := toLowerCase username;
           owner := walletAddress;
           resolver := walletAddress;
           ttl := 86400;
           records := <["created" := pretty created]>
                        {["wallet" := walletAddress]};
           createdAt := createdAtNow;
           expiresAt := expiresFrom + 365 * 24 * 60 * 60 * 1000 |} in
      ({| nameRegistry :=
            <[toLowerCase username := record]> (nameRegistry st);
          reverseRegistry :=
            <[walletAddress := toLowerCase username]> (reverseRegistry st) |},
       mkRegistration true None (Some mockTxId))
  end.

(** The service with the registrations that wait at their [await], each
    with the user name and the wallet it was called with. *)
Record Service := mkService {
  registry : Registry;
  waiting : list (string * string);
}.

Definition start : Service := mkService empty [].

(** What happens to the service: a call of [registerUsername] runs up to
    its [await]; the signature of the waiting registration at index [i]
    settles and that call runs to its end; one of the three lookups is
    called, which has no [await] inside and runs to its end. *)
Inductive Request :=
| RegisterBegins (username walletAddress : string) (building : result unit)
| RegisterSettles (i : nat) (signed : result unit) (mockTxId : string)
    (created createdAtNow expiresFrom : Z)
| Resolves (username : string) (now : Z)
| ReverseResolves (walletAddress : string) (now : Z)
| AsksAvailable (username : string) (now : Z).

Definition handle (e : Request) (sv : Service) : Service :=
  match e with
  | RegisterBegins username walletAddress building =>
      match registerUsername_begin username walletAddress building
              (registry sv) with
      | Awaiting =>
          mkService (registry sv) (waiting sv ++ [(username, walletAddress)])
      | Returned _ => sv
      end
  | RegisterSettles i signed mockTxId t1 t2 t3 =>
      match waiting sv !! i with
      | Some (username, walletAddress) =>
          mkService
            (registerUsername_settle username walletAddress signed mockTxId
               t1 t2 t3 (registry sv)).1
            (delete i (waiting sv))
      | None => sv
      end
  | Resolves username now =>
      mkService (resolveUsername username now (registry sv)).1 (waiting sv)
  | ReverseResolves walletAddress now =>
      mkService (reverseResolve walletAddress now (registry sv)).1 (waiting sv)
  | AsksAvailable username now =>
      mkService (isUsernameAvailable username now (registry sv)).1 (waiting sv)
  end.

Definition handleAll (es : list Request) (sv : Service) : Service :=
  foldl (fun sv e => handle e sv) sv es.

(** Two registrations are for the same lower-case name or for the same
    wallet. *)
Definition clash (a b : string * string) : bool :=
  bool_decide (toLowerCase a.1 = toLowerCase b.1) || bool_decide (a.2 = b.2).

(** No call of [registerUsername] is made while a registration for the
    same lower-case name or the same wallet waits for its signature. *)
Fixpoint noOverlap (es : list Request) (sv : Service) : bool :=
  match es with
  | [] => true
  | e :: es' =>
      match e with
      | RegisterBegins username walletAddress _ =>
          forallb (fun w => negb (clash (username, walletAddress) w))
            (waiting sv)
      | _ => true
      end
      && noOverlap es' (handle e sv)
  end.

(** No two of the waiting registrations clash. *)
Fixpoint apart (l : list (string * string)) : Prop :=
  match l with
  | [] => True
  | w :: l' => Forall (fun v => clash w v = false) l' /\ apart l'
  end.

(** What the checks of a waiting registration found still holds. *)
Definition stillFree (st : Registry) (w : string * string) : Prop :=
  valid (validateUsername w.1) = true
  /\ nameRegistry st !! toLowerCase w.1 = None
  /\ truthy (reverseRegistry st !! w.2) = None.

Definition sound (sv : Service) : Prop :=
  consistent (registry sv)
  /\ apart (waiting sv)
  /\ Forall (stillFree (registry sv)) (waiting sv).

End SolanaNameService.

(* ================================================================== *)
(** * Facts about the runtime notions                                  *)
(* ================================================================== *)

Module JSFacts.

Section Sort.
Context {A : Type} (cmp : A -> A -> Z).

Lemma sort_insert_Permutation (x : A) (l : list A) :
  sort_insert cmp x l ≡ₚ x :: l.
Proof.
  induction l as [|y l IH]; simpl; [done|].
  destruct (cmp x y <=? 0); [done|].
  rewrite IH. apply perm_swap.
Qed.

Lemma Array_sort_Permutation (l : list A) : Array_sort cmp l ≡ₚ l.
Proof.
  induction l as [|x l IH]; simpl; [done|].
  fold (Array_sort cmp l). rewrite sort_insert_Permutation. by f_equiv.
Qed.

Lemma Array_sort_length (l : list A) : length (Array_sort cmp l) = length l.
Proof. by rewrite Array_sort_Permutation. Qed.

(** A comparator that is the difference of an integer key. *)
Context (key : A -> Z) (Hcmp : forall a b, cmp a b = key a - key b).

Lemma sort_insert_sorted (x : A) (l : list A) :
  StronglySorted (fun a b => key a <= key b) l ->
  StronglySorted (fun a b => key a <= key b) (sort_insert cmp x l).
Proof.
  induction 1 as [|y l Hl IH Hy]; simpl.
  - repeat constructor.
  - rewrite Hcmp. destruct (Z.leb_spec (key x - key y) 0) as [Hle|Hgt].
    + constructor; [by constructor|].
      constructor; [lia|].
      eapply Forall_impl; [exact Hy|]. simpl. intros z Hz. lia.
    + constructor; [exact IH|].
      rewrite sort_insert_Permutation. constructor; [lia | exact Hy].
Qed.

Lemma Array_sort_sorted (l : list A) :
  StronglySorted (fun a b => key a <= key b) (Array_sort cmp l).
Proof.
  induction l as [|x l IH]; simpl; [constructor|].
  by apply sort_insert_sorted.
Qed.

(** The sort is stable: it leaves a sorted array as it is. *)
Lemma Array_sort_id (l : list A) :
  StronglySorted (fun a b => key a <= key b) l -> Array_sort cmp l = l.
Proof.
  induction 1 as [|x l Hl IH Hx]; simpl; [done|].
  fold (Array_sort cmp l). rewrite IH.
  destruct Hx as [|y l' Hxy _]; simpl; [done|].
  rewrite Hcmp. destruct (Z.leb_spec (key x - key y) 0); [done | lia].
Qed.
End Sort.

Lemma defaultCompare_nonpos (x y : string) :
  (defaultCompare x y <=? 0) = String.leb x y.
Proof.
  unfold defaultCompare, String.leb. by destruct (String.compare x y).
Qed.

(** [[a, b].sort()] *)
Lemma sort_pair (a b : string) :
  Array_sort defaultCompare [a; b] = if String.leb a b then [a; b] else [b; a].
Proof. simpl. by rewrite defaultCompare_nonpos. Qed.

Lemma sort_pair_comm (a b : string) :
  Array_sort defaultCompare [a; b] = Array_sort defaultCompare [b; a].
Proof.
  rewrite !sort_pair.
  destruct (String.leb a b) eqn:Hab, (String.leb b a) eqn:Hba; try done.
  - by rewrite (String.leb_antisym _ _ Hab Hba).
  - destruct (String.leb_total a b); congruence.
Qed.

End JSFacts.

(* ================================================================== *)
(** * The shared-secret cipher                                         *)
(* ================================================================== *)

Module CryptoFacts.

Import AdvancedCrypto.

Section Laws.
Context {P : Primitives}.

(** Whatever the decoders and the cipher do, [decryptWithSharedSecret]
    returns: the [catch] turns every exception into [null]. *)
Lemma decryptWithSharedSecret_returns (e : EncryptedData) (k : bytes) :
  exists r, decryptWithSharedSecret e k = Ret r.
Proof.
  unfold decryptWithSharedSecret, try_catch, JS.bind.
  destruct (decodeBase58 (encrypted e)); [|by eexists].
  destruct (decodeBase58 (nonce e)); [|by eexists].
  destruct (secretbox_open _ _ _) as [[d|]|]; [|by eexists..].
  destruct (decodeUTF8 d); by eexists.
Qed.

(** When the authenticator does not verify or the cipher rejects its
    arguments, the result is [null]. *)
Lemma decryptWithSharedSecret_rejected (e : EncryptedData) (k c n : bytes) :
  decodeBase58 (encrypted e) = Ret c ->
  decodeBase58 (nonce e) = Ret n ->
  (forall d, secretbox_open c n k <> Ret (Some d)) ->
  decryptWithSharedSecret e k = Ret None.
Proof.
  intros Hc Hn Hopen. unfold decryptWithSharedSecret, try_catch, JS.bind.
  rewrite Hc, Hn. destruct (secretbox_open c n k) as [[d|]|]; try done.
  by destruct (Hopen d).
Qed.

Context {HP : PrimitivesSpec P}.

Lemma encryptWithSharedSecret_returns (message : string) (key nonce : bytes) :
  length key = secretbox_keyLength ->
  length nonce = secretbox_nonceLength ->
  exists c,
    secretbox (encodeUTF8 message) nonce key = Ret c
    /\ secretbox_open c nonce key = Ret (Some (encodeUTF8 message))
    /\ encryptWithSharedSecret message key nonce
       = Ret {| encrypted := encodeBase58 c;
                AdvancedCrypto.nonce := encodeBase58 nonce;
                ephemeralPublicKey := None;
                signature := None;
                algorithm := NaclSecretbox;
                version := VERSION |}.
Proof.
  intros Hk Hn.
  destruct (secretbox_open_secretbox (encodeUTF8 message) nonce key Hk Hn)
    as (c & Hbox & Hopen).
  exists c. split; [done|]. split; [done|].
  unfold encryptWithSharedSecret. by rewrite Hbox.
Qed.

Lemma decrypt_of_encrypted (message : string) (key nonce c : bytes) :
  secretbox_open c nonce key = Ret (Some (encodeUTF8 message)) ->
  decryptWithSharedSecret
    {| encrypted := encodeBase58 c;
       AdvancedCrypto.nonce := encodeBase58 nonce;
       ephemeralPublicKey := None;
       signature := None;
       algorithm := NaclSecretbox;
       version := VERSION |} key
  = Ret (Some message).
Proof.
  intros Hopen. unfold decryptWithSharedSecret. simpl.
  rewrite !base58_decode_encode. simpl. rewrite Hopen. simpl.
  by rewrite utf8_decode_encode.
Qed.

(** C5.  For every plaintext, every key of 32 bytes and every nonce of 24
    bytes that [randomBytes] may draw, [encryptWithSharedSecret] returns
    and [decryptWithSharedSecret] of its result under the same key returns
    the plaintext. *)
Theorem encrypt_decrypt_roundtrip (message : string) (key nonce : bytes) :
  length key = secretbox_keyLength ->
  length nonce = secretbox_nonceLength ->
  exists encryptedData,
    encryptWithSharedSecret message key nonce = Ret encryptedData
    /\ decryptWithSharedSecret encryptedData key = Ret (Some message).
Proof.
  intros Hk Hn.
  destruct (encryptWithSharedSecret_returns message key nonce Hk Hn)
    as (c & _ & Hopen & Henc).
  eexists. split; [exact Henc|]. by apply decrypt_of_encrypted.
Qed.

End Laws.

(** ** The reference primitives have the documented properties *)

Import Reference.

Lemma xor_bits_involutive a b : xor_bits (xor_bits a b) b = a.
Proof.
  destruct a as (a0 & a1 & a2 & a3 & a4 & a5 & a6 & a7).
  destruct b as (b0 & b1 & b2 & b3 & b4 & b5 & b6 & b7).
  unfold xor_bits.
  by rewrite !xorb_assoc, !xorb_nilpotent, !xorb_false_r.
Qed.

Lemma xor_byte_involutive (a b : Byte.byte) : xor_byte (xor_byte a b) b = a.
Proof.
  unfold xor_byte. rewrite Byte.to_bits_of_bits, xor_bits_involutive.
  apply Byte.of_bits_to_bits.
Qed.

Lemma xor_stream_involutive (p : nat -> Byte.byte) (i : nat) (m : bytes) :
  xor_stream p i (xor_stream p i m) = m.
Proof.
  revert i. induction m as [|b m IH]; intros i; simpl; [done|].
  by rewrite xor_byte_involutive, IH.
Qed.

Lemma tag_length (k n : bytes) :
  length k = secretbox_keyLength -> length n = secretbox_nonceLength ->
  length (tag k n) = 16%nat.
Proof.
  intros Hk Hn. unfold tag. rewrite length_take, length_zip_with, Hk, Hn. done.
Qed.

Lemma reference_spec : PrimitivesSpec Reference.primitives.
Proof.
  split; simpl.
  - intros b. by rewrite String.list_byte_of_string_of_list_byte.
  - intros s. by rewrite String.string_of_list_byte_of_string.
  - intros m n k Hk Hn. eexists. split.
    + unfold ref_secretbox, checkLengths.
      by rewrite !bool_decide_eq_true_2.
    + unfold ref_secretbox_open, checkLengths.
      rewrite !bool_decide_eq_true_2 by done.
      pose proof (tag_length k n Hk Hn) as Htag.
      rewrite take_app_length' by done.
      rewrite bool_decide_eq_true_2 by done.
      rewrite drop_app_length' by done.
      by rewrite xor_stream_involutive.
Qed.

Lemma encrypt_decrypt_roundtrip_witness :
  exists encryptedData,
    encryptWithSharedSecret (P := Reference.primitives) "hi"
      Sample.key32 Sample.nonce24 = Ret encryptedData
    /\ decryptWithSharedSecret (P := Reference.primitives) encryptedData
         Sample.key32 = Ret (Some "hi").
Proof.
  exact (encrypt_decrypt_roundtrip (P := Reference.primitives)
           (HP := reference_spec) "hi" Sample.key32 Sample.nonce24
           eq_refl eq_refl).
Defined.

End CryptoFacts.

(* ================================================================== *)
(** * The store                                                        *)
(* ================================================================== *)

Module StoreFacts.

Import AdvancedCrypto Store JSFacts CryptoFacts.

Lemma chatMessages_addMessage (chatId : string) (message : Message) (s : ChatState) :
  chatMessages chatId (addMessage chatId message s)
  = Array_sort byTimestamp (chatMessages chatId s ++ [message]).
Proof.
  unfold addMessage, chatMessages at 1. simpl. by rewrite lookup_insert_eq.
Qed.

Lemma messages_addMessage (chatId : string) (message : Message) (s : ChatState) :
  messages (addMessage chatId message s) !! chatId
  = Some (chatMessages chatId (addMessage chatId message s)).
Proof. rewrite chatMessages_addMessage. unfold addMessage. simpl. by rewrite lookup_insert_eq. Qed.

Lemma chatMessages_addMessage_ne (chatId other : string) (message : Message)
    (s : ChatState) :
  chatId <> other ->
  chatMessages other (addMessage chatId message s) = chatMessages other s.
Proof.
  intros Hne. unfold addMessage, chatMessages. simpl.
  by rewrite lookup_insert_ne.
Qed.

Lemma chatMessages_addMessages (chatId : string) (l : list Message) (s : ChatState) :
  chatMessages chatId (addMessages chatId l s) ≡ₚ chatMessages chatId s ++ l.
Proof.
  revert s. induction l as [|m l IH]; intros s; simpl.
  - by rewrite app_nil_r.
  - unfold addMessages in *. simpl. rewrite IH, chatMessages_addMessage.
    rewrite Array_sort_Permutation. by rewrite <- app_assoc.
Qed.

(** C1.  Whatever the store holds and whatever messages were added to the
    chat before, in whatever order, after an [addMessage(chatId, message)]
    call the chat has a stored list, this list is in ascending order of
    timestamp, and it holds exactly the messages stored at the start
    together with all the added ones. *)
Theorem addMessage_keeps_timestamp_order (chatId : string)
    (earlier : list Message) (message : Message) (s : ChatState) :
  let s' := addMessage chatId message (addMessages chatId earlier s) in
  messages s' !! chatId = Some (chatMessages chatId s')
  /\ ascending (chatMessages chatId s')
  /\ chatMessages chatId s' ≡ₚ chatMessages chatId s ++ earlier ++ [message].
Proof.
  intros s'. subst s'. split; [apply messages_addMessage|].
  rewrite chatMessages_addMessage. split.
  - apply (Array_sort_sorted byTimestamp msg_timestamp). done.
  - rewrite Array_sort_Permutation, chatMessages_addMessages.
    by rewrite <- app_assoc.
Qed.

(** ** Direct chat ids *)

Lemma directChatId_sorted (a b : string) :
  directChatId a b
  = if String.leb a b
    then "direct_" +:+ a +:+ "_" +:+ b
    else "direct_" +:+ b +:+ "_" +:+ a.
Proof.
  unfold directChatId. rewrite sort_pair. by destruct (String.leb a b).
Qed.

Lemma directChatId_comm (a b : string) : directChatId a b = directChatId b a.
Proof. unfold directChatId. by rewrite sort_pair_comm. Qed.

Lemma isDirectChatOf_comm (a b : string) (c : Chat) :
  isDirectChatOf a b c = isDirectChatOf b a c.
Proof. unfold isDirectChatOf. by destruct (bool_decide _), (Array_includes _ a), (Array_includes _ b). Qed.

Lemma chat_ids_addMessage (chatId : string) (message : Message) (s : ChatState) :
  chat_id <$> chats (addMessage chatId message s) = chat_id <$> chats s.
Proof.
  unfold addMessage. simpl. rewrite <- list_fmap_compose.
  apply list_fmap_ext. intros _ c _. simpl. by destruct (bool_decide _).
Qed.

Lemma chats_addPeer (peer : Peer) (s : ChatState) : chats (addPeer peer s) = chats s.
Proof. unfold addPeer. by destruct (Array_findIndex _ _). Qed.

Lemma messages_addPeer (peer : Peer) (s : ChatState) :
  messages (addPeer peer s) = messages s.
Proof. unfold addPeer. by destruct (Array_findIndex _ _). Qed.

Lemma chatMessages_addPeer (chatId : string) (peer : Peer) (s : ChatState) :
  chatMessages chatId (addPeer peer s) = chatMessages chatId s.
Proof. unfold chatMessages. by rewrite messages_addPeer. Qed.

(** Inbound routing from a sender with whom there is no direct chat yet. *)
Lemma onMessage_first_contact (selfId : string) (incoming : Message)
    (createdAt lastActivity lastSeen : Z) (s : ChatState) :
  Array_find (isDirectChatOf selfId (msg_sender incoming)) (chats s) = None ->
  let s' := onMessage selfId incoming createdAt lastActivity lastSeen s in
  chat_id <$> chats s'
  = (chat_id <$> chats s) ++ [directChatId selfId (msg_sender incoming)]
  /\ chatMessages (directChatId selfId (msg_sender incoming)) s' = [incoming].
Proof.
  intros Hnone s'. subst s'. unfold onMessage. rewrite Hnone. cbv zeta.
  generalize (directChatId selfId (msg_sender incoming)). intros chatId.
  cbn [chat_id]. split.
  - rewrite chat_ids_addMessage.
    destruct (Array_find _ (peers s)); [|rewrite chats_addPeer];
      unfold addChat; simpl; by rewrite fmap_app.
  - rewrite chatMessages_addMessage.
    destruct (Array_find _ (peers s)); [|rewrite chatMessages_addPeer];
      unfold addChat, chatMessages; simpl; by rewrite lookup_insert_eq.
Qed.

(** Explicit creation of a chat that does not exist yet. *)
Lemma createDirectChat_new (publicKey peerPublicKey : string)
    (peerUsername : option string) (createdAt lastActivity lastSeen : Z)
    (s : ChatState) :
  Array_find
    (fun chat => bool_decide (chat_id chat = directChatId publicKey peerPublicKey)
                 || isDirectChatOf peerPublicKey publicKey chat)
    (chats s) = None ->
  let r := App.createDirectChat publicKey peerPublicKey peerUsername
             createdAt lastActivity lastSeen s in
  r.1 = directChatId publicKey peerPublicKey
  /\ chat_id <$> chats r.2
     = (chat_id <$> chats s) ++ [directChatId publicKey peerPublicKey]
  /\ activeChat r.2 = Some (directChatId publicKey peerPublicKey).
Proof.
  intros Hnone r. subst r. unfold App.createDirectChat. rewrite Hnone. simpl.
  split; [done|].
  destruct (Array_find _ (peers s)); simpl.
  - unfold addChat; simpl. by rewrite fmap_app.
  - rewrite chats_addPeer. unfold addPeer. simpl.
    split; [by rewrite fmap_app|]. by destruct (Array_findIndex _ _).
Qed.

(** C2.  For any two participants [A] and [B]: when [A] creates the chat
    explicitly and [B], who has no direct chat with [A] yet, receives a
    message from [A], both ends use the same chat id.  This id is
    [direct_] followed by the two identifiers in lexicographic order,
    so it is the same with [A] and [B] exchanged. *)
Theorem direct_chat_id_independent_of_initiator (A B : string)
    (peerUsername : option string) (incoming : Message)
    (tA1 tA2 tA3 tB1 tB2 tB3 : Z) (sA sB : ChatState) :
  msg_sender incoming = A ->
  Array_find
    (fun chat => bool_decide (chat_id chat = directChatId A B)
                 || isDirectChatOf B A chat) (chats sA) = None ->
  Array_find (isDirectChatOf B A) (chats sB) = None ->
  let created := App.createDirectChat A B peerUsername tA1 tA2 tA3 sA in
  let sB' := onMessage B incoming tB1 tB2 tB3 sB in
  created.1 = directChatId A B
  /\ chat_id <$> chats created.2 = (chat_id <$> chats sA) ++ [created.1]
  /\ chat_id <$> chats sB' = (chat_id <$> chats sB) ++ [created.1]
  /\ chatMessages created.1 sB' = [incoming]
  /\ directChatId A B = directChatId B A
  /\ directChatId A B
     = (if String.leb A B
        then "direct_" +:+ A +:+ "_" +:+ B
        else "direct_" +:+ B +:+ "_" +:+ A).
Proof.
  intros Hsender HA HB created sB'.
  destruct (createDirectChat_new A B peerUsername tA1 tA2 tA3 sA HA)
    as (Hid & Hchats & _).
  fold created in Hid, Hchats. rewrite Hid.
  subst A.
  destruct (onMessage_first_contact B incoming tB1 tB2 tB3 sB HB)
    as (HchatsB & HmsgsB).
  fold sB' in HchatsB, HmsgsB.
  rewrite (directChatId_comm B) in HchatsB, HmsgsB.
  repeat split; try done.
  - apply directChatId_comm.
  - apply directChatId_sorted.
Qed.

Lemma direct_chat_id_independent_of_initiator_witness :
  let created := App.createDirectChat "bob" "alice" (Some "Alice") 1 2 3 initial in
  let sAlice := onMessage "alice" (Sample.fromBob "b1" 10) 4 5 6 Sample.loggedIn in
  created.1 = "direct_alice_bob"
  /\ chat_id <$> chats sAlice = ["direct_alice_bob"]
  /\ chatMessages "direct_alice_bob" sAlice = [Sample.fromBob "b1" 10].
Proof.
  destruct (direct_chat_id_independent_of_initiator "bob" "alice" (Some "Alice")
              (Sample.fromBob "b1" 10) 1 2 3 4 5 6 initial Sample.loggedIn
              eq_refl eq_refl eq_refl)
    as (Hid & _ & Hchats & Hmsgs & _ & _).
  split; [exact Hid|]. split; [exact Hchats | exact Hmsgs].
Defined.

(** ** Blocked users *)







(** ** Updating and removing messages *)

Lemma set_messages_id (s : ChatState) : set_messages (messages s) s = s.
Proof. by destruct s. Qed.

Lemma fmap_update_absent (messageId : string) (updates : MessageUpdates)
    (l : list Message) :
  Forall (fun m => msg_id m <> messageId) l ->
  ((fun msg => if bool_decide (msg_id msg = messageId)
               then spread_message msg updates else msg) <$> l) = l.
Proof.
  induction 1 as [|m l Hm _ IH]; [done|].
  rewrite fmap_cons, IH. by rewrite bool_decide_eq_false_2.
Qed.

Lemma filter_remove_absent (messageId : string) (l : list Message) :
  Forall (fun m => msg_id m <> messageId) l ->
  filter (fun msg => msg_id msg <> messageId) l = l.
Proof.
  induction 1 as [|m l Hm _ IH]; [done|].
  rewrite filter_cons_True by done. by rewrite IH.
Qed.

(** C9, as the code has it.  When no message of the chat has the given id,
    [updateMessage] and [removeMessage] do not fail; they leave the store
    unchanged if the chat has a message list, and otherwise only store an
    empty list under the chat id. *)
Theorem update_remove_absent_message (chatId messageId : string)
    (updates : MessageUpdates) (s : ChatState) :
  Forall (fun m => msg_id m <> messageId) (chatMessages chatId s) ->
  updateMessage chatId messageId updates s = afterAbsent chatId s
  /\ removeMessage chatId messageId s = afterAbsent chatId s.
Proof.
  intros Habsent. unfold updateMessage, removeMessage, afterAbsent.
  rewrite fmap_update_absent, filter_remove_absent by done.
  unfold chatMessages. destruct (messages s !! chatId) as [l|] eqn:Hl; simpl.
  - rewrite insert_id by done. by rewrite set_messages_id.
  - done.
Qed.

Lemma update_remove_absent_message_witness :
  Forall (fun m => msg_id m <> "b3") (chatMessages "direct_alice_bob" Sample.withChat)
  /\ updateMessage "direct_alice_bob" "b3" (status_update Read) Sample.withChat
     = Sample.withChat
  /\ removeMessage "direct_alice_bob" "b3" Sample.withChat = Sample.withChat.
Proof.
  assert (H : Forall (fun m => msg_id m <> "b3")
                (chatMessages "direct_alice_bob" Sample.withChat)).
  { repeat constructor; by vm_compute. }
  split; [exact H|].
  exact (update_remove_absent_message "direct_alice_bob" "b3"
           (status_update Read) Sample.withChat H).
Defined.

(** C9 as stated fails for a chat without a message list: the call adds an
    entry to the message map. *)
Lemma update_remove_on_missing_chat_changes_store :
  messages Sample.loggedIn !! "nochat" = None
  /\ messages (updateMessage "nochat" "m" no_updates Sample.loggedIn) !! "nochat"
     = Some []
  /\ messages (removeMessage "nochat" "m" Sample.loggedIn) !! "nochat" = Some []
  /\ updateMessage "nochat" "m" no_updates Sample.loggedIn <> Sample.loggedIn
  /\ removeMessage "nochat" "m" Sample.loggedIn <> Sample.loggedIn.
Proof.
  assert (H0 : messages Sample.loggedIn !! "nochat" = None) by done.
  assert (H1 : messages (updateMessage "nochat" "m" no_updates Sample.loggedIn)
               !! "nochat" = Some []) by done.
  assert (H2 : messages (removeMessage "nochat" "m" Sample.loggedIn)
               !! "nochat" = Some []) by done.
  split; [exact H0|]. split; [exact H1|]. split; [exact H2|]. split.
  - intros Heq. rewrite Heq in H1. congruence.
  - intros Heq. rewrite Heq in H2. congruence.
Qed.

(** ** The persisted snapshot *)

(** C10.  The snapshot handed to the persistence layer holds the current
    user, the chats, the messages, the peers, the drafts and the last-sync
    timestamp of the store, and its [encryptionKeys] entry is the empty map
    whatever keys the store caches. *)
Theorem partialize_excludes_keys (state : ChatState) (keys : gmap string bytes)
    (userId : string) (theirPublicKey sharedKey : bytes) :
  partialize state
  = {| persisted_currentUser := currentUser state;
       persisted_chats := chats state;
       persisted_messages := messages state;
       persisted_peers := peers state;
       persisted_drafts := drafts state;
       persisted_encryptionKeys := ∅;
       persisted_lastSyncTimestamp := lastSyncTimestamp state |}
  /\ persisted_encryptionKeys (partialize state) = ∅
  /\ persisted_encryptionKeys (partialize (set_encryptionKeys keys state)) = ∅
  /\ partialize (set_encryptionKeys keys state) = partialize state
  /\ partialize (generateSharedKey userId theirPublicKey sharedKey state)
     = partialize state.
Proof. done. Qed.

(** ** Sending *)

Lemma chatMessages_setSendingMessage (chatId : string) (b : bool) (s : ChatState) :
  chatMessages chatId (setSendingMessage b s) = chatMessages chatId s.
Proof. done. Qed.

Lemma chatMessages_updateMessage (chatId messageId : string)
    (updates : MessageUpdates) (s : ChatState) :
  chatMessages chatId (updateMessage chatId messageId updates s)
  = (fun msg => if bool_decide (msg_id msg = messageId)
                then spread_message msg updates else msg)
      <$> chatMessages chatId s.
Proof.
  unfold updateMessage, chatMessages at 1. simpl. by rewrite lookup_insert_eq.
Qed.

Lemma elem_of_addMessage (chatId : string) (message : Message) (s : ChatState) :
  message ∈ chatMessages chatId (addMessage chatId message s).
Proof.
  rewrite chatMessages_addMessage, Array_sort_Permutation.
  apply elem_of_app. right. apply list_elem_of_singleton. done.
Qed.

(** When the transport settles with an id, every message of the chat with
    the id of the sent message has status [Sent]. *)
Lemma settle_acknowledged (chatId : string) (message : Message)
    (messageId : string) (s : ChatState) :
  message ∈ chatMessages chatId s ->
  let r := sendEncryptedMessage_settle chatId message (Ret messageId) s in
  r.2 = Ret tt
  /\ spread_message message (status_update Sent) ∈ chatMessages chatId r.1
  /\ Forall (fun m => msg_id m = msg_id message -> msg_status m = Sent)
       (chatMessages chatId r.1).
Proof.
  intros Hin r. subst r. simpl. split; [done|].
  rewrite chatMessages_setSendingMessage, chatMessages_updateMessage. split.
  - apply list_elem_of_fmap. exists message. split; [|done].
    by rewrite bool_decide_eq_true_2.
  - apply Forall_fmap, Forall_forall. intros m _. simpl.
    case_bool_decide as Hid; [done|]. intros Hid'. by destruct Hid.
Qed.

(** When the transport fails, the error is rethrown and the messages of the
    store are as they were. *)
Lemma settle_failed (chatId : string) (message : Message) (e : string)
    (s : ChatState) :
  sendEncryptedMessage_settle chatId message (Throw e) s
  = (setSendingMessage false s, Throw e).
Proof. done. Qed.

Section Sending.
Context {P : Primitives} {HP : PrimitivesSpec P}.

(** C3, as the code has it.  With a current user, a nonce of the cipher's
    size, a cached key (if any) of the cipher's size, and a key object that
    takes the placeholder when no key is cached, the call appends a message
    with status [Sending] before it suspends.  When the awaited send
    resolves with an id, the call resolves and the message has status
    [Sent]; with the transport of the repository that is what happens
    whether the socket is connected or not, since [sendMessage] queues the
    envelope and resolves.  Were the awaited send to reject, the call would
    reject with the same error and leave the messages as they were, so the
    message would keep status [Sending]: the store never assigns
    [Failed]. *)
Theorem sendEncryptedMessage_status (chatId content recipientKey : string)
    (nonce : bytes) (secureId : string) (now : Z) (user : UserProfile)
    (state : ChatState) :
  currentUser state = Some user ->
  length nonce = secretbox_nonceLength ->
  (forall key, encryptionKeys state !! recipientKey = Some key ->
               length key = secretbox_keyLength) ->
  (encryptionKeys state !! recipientKey = None ->
   encryptionKeysFrozen state = false) ->
  exists (message : Message) (atAwait : ChatState),
    sendEncryptedMessage_begin chatId content recipientKey nonce secureId now state
    = (atAwait, Ret message)
    /\ msg_id message = secureId
    /\ msg_content message = content
    /\ msg_status message = Sending
    /\ message ∈ chatMessages chatId atAwait
    /\ (forall messageId,
          let r := sendEncryptedMessage chatId content recipientKey nonce
                     secureId now (Ret messageId) state in
          r.2 = Ret tt
          /\ spread_message message (status_update Sent) ∈ chatMessages chatId r.1
          /\ Forall (fun m => msg_id m = secureId -> msg_status m = Sent)
               (chatMessages chatId r.1))
    /\ (forall e,
          let r := sendEncryptedMessage chatId content recipientKey nonce
                     secureId now (Throw e) state in
          r.2 = Throw e
          /\ chatMessages chatId r.1 = chatMessages chatId atAwait
          /\ message ∈ chatMessages chatId r.1)
    /\ (forall (rs : Realtime.RealtimeService) messageId now1 now2,
          let r := StoreActions.sendEncryptedMessageVia chatId content
                     recipientKey nonce secureId now messageId now1 now2
                     (state, rs) in
          r.2 = Ret tt
          /\ spread_message message (status_update Sent)
               ∈ chatMessages chatId r.1.1
          /\ Forall (fun m => msg_id m = secureId -> msg_status m = Sent)
               (chatMessages chatId r.1.1)).
Proof.
  intros Huser Hnonce Hkey Hwrite.
  assert (Hbegin : exists message atAwait,
    sendEncryptedMessage_begin chatId content recipientKey nonce secureId now state
    = (atAwait, Ret message)
    /\ msg_id message = secureId /\ msg_content message = content
    /\ msg_status message = Sending
    /\ message ∈ chatMessages chatId atAwait).
  { unfold sendEncryptedMessage_begin. rewrite Huser.
    cbn [encryptionKeys encryptionKeysFrozen setSendingMessage set_loading].
    destruct (encryptionKeys state !! recipientKey) as [key|] eqn:Hcached;
      [|rewrite (Hwrite eq_refl)].
    - destruct (encryptWithSharedSecret_returns content key nonce)
        as (c & _ & _ & ->); [by apply Hkey | done |].
      eexists _, _. split; [reflexivity|]. repeat split.
      apply elem_of_addMessage.
    - destruct (encryptWithSharedSecret_returns content mockKey nonce)
        as (c & _ & _ & ->); [done | done |].
      eexists _, _. split; [reflexivity|]. repeat split.
      apply elem_of_addMessage. }
  destruct Hbegin as (message & atAwait & Hbegin & Hid & Hcontent & Hstatus & Hin).
  exists message, atAwait. repeat (split; [done|]). split; [|split].
  - intros messageId r. subst r. unfold sendEncryptedMessage. rewrite Hbegin.
    rewrite <- Hid. by apply settle_acknowledged.
  - intros e r. subst r. unfold sendEncryptedMessage. rewrite Hbegin.
    rewrite settle_failed. cbn [fst snd].
    by rewrite chatMessages_setSendingMessage.
  - intros rs messageId now1 now2 r. subst r.
    unfold StoreActions.sendEncryptedMessageVia. rewrite Huser, Hbegin.
    unfold Realtime.sendMessage.
    pose proof (settle_acknowledged chatId message messageId atAwait Hin)
      as Hsettled. cbv zeta in Hsettled. rewrite Hid in Hsettled.
    by destruct (Realtime.isConnected rs).
Qed.

End Sending.

Lemma sendEncryptedMessage_status_witness :
  exists (message : Message) (atAwait : ChatState),
    sendEncryptedMessage_begin (P := Reference.primitives) "direct_alice_bob"
      "hi" "bob" Sample.nonce24 "id1" 1700000000000 Sample.loggedIn
    = (atAwait, Ret message)
    /\ msg_status message = Sending
    /\ message ∈ chatMessages "direct_alice_bob" atAwait.
Proof.
  destruct (sendEncryptedMessage_status (P := Reference.primitives)
              (HP := reference_spec) "direct_alice_bob" "hi" "bob"
              Sample.nonce24 "id1" 1700000000000 Sample.alice Sample.loggedIn
              eq_refl eq_refl)
    as (message & atAwait & Hbegin & _ & _ & Hstatus & Hin & _).
  { intros key Hkey. discriminate Hkey. }
  { intros _. reflexivity. }
  exists message, atAwait. split; [exact Hbegin|]. split; [exact Hstatus | exact Hin].
Defined.

(** C3 as stated fails.  There is a current user; a key was generated for
    [carol], so the object of [encryptionKeys] is frozen; a send to [bob],
    for whom no key is cached, rejects with the [TypeError] of the write
    into that object and appends nothing: no message with status [Sending]
    is in the chat, and nothing reaches the transport.  And on the store
    as it is after login, with the transport offline, the message ends
    with status [Sent] while its envelope has only been queued and nothing
    was emitted or acknowledged. *)
Lemma send_with_frozen_keys_appends_nothing :
  let state := generateSharedKey "carol" [] Sample.key32 Sample.loggedIn in
  let r := StoreActions.sendEncryptedMessageVia (P := Reference.primitives)
             "direct_alice_bob" "hi" "bob" Sample.nonce24 "id1" 1700000000000
             "t1" 1700000000001 1700000000002 (state, Sample.offlineService) in
  let r' := StoreActions.sendEncryptedMessageVia (P := Reference.primitives)
              "direct_alice_bob" "hi" "bob" Sample.nonce24 "id1" 1700000000000
              "t1" 1700000000001 1700000000002
              (Sample.loggedIn, Sample.offlineService) in
  currentUser state = Some Sample.alice
  /\ r.2 = Throw (frozenWriteError "bob")
  /\ chatMessages "direct_alice_bob" r.1.1 = []
  /\ messages r.1.1 = messages state
  /\ r.1.2 = Sample.offlineService
  /\ Realtime.isConnected Sample.offlineService = false
  /\ r'.2 = Ret tt
  /\ (msg_status <$> chatMessages "direct_alice_bob" r'.1.1) = [Sent]
  /\ length (Realtime.messageQueue r'.1.2) = 1%nat
  /\ Realtime.emittedLog r'.1.2 = [].
Proof. by vm_compute. Qed.

End StoreFacts.

(* ================================================================== *)
(** * The transport                                                    *)
(* ================================================================== *)

Module RealtimeFacts.

Import Realtime.

(** ** The offline queue *)

Lemma set_messageQueue_id (rs : RealtimeService) :
  set_messageQueue (messageQueue rs) rs = rs.
Proof. by destruct rs. Qed.

Lemma emitAll_set_messageQueue (es : list Emitted) (q : list RealtimeMessage)
    (rs : RealtimeService) :
  emitAll es (set_messageQueue q rs) = set_messageQueue q (emitAll es rs).
Proof.
  revert rs. induction es as [|e es IH]; intros rs; [done|].
  unfold emitAll in *. simpl. by rewrite <- IH.
Qed.

Lemma messageQueue_emitAll (es : list Emitted) (rs : RealtimeService) :
  messageQueue (emitAll es rs) = messageQueue rs.
Proof.
  revert rs. induction es as [|e es IH]; intros rs; [done|].
  unfold emitAll in *. simpl. by rewrite IH.
Qed.

Lemma socket_emitAll (es : list Emitted) (rs : RealtimeService) :
  socket (emitAll es rs)
  = (fun sock => {| connected := connected sock;
                    emitted := emitted sock ++ es |}) <$> socket rs.
Proof.
  revert rs. induction es as [|e es IH]; intros rs.
  - simpl. destruct (socket rs) as [[c em]|]; simpl; [|done].
    by rewrite app_nil_r.
  - unfold emitAll in *. simpl. rewrite IH. simpl.
    destruct (socket rs); simpl; [|done]. by rewrite <- app_assoc.
Qed.

(** With enough fuel the loop of [processMessageQueue] emits the whole
    queue, oldest first, and leaves it empty. *)
Lemma processMessageQueue_loop_spec (fuel : nat) (rs : RealtimeService) :
  (length (messageQueue rs) <= fuel)%nat ->
  processMessageQueue_loop fuel rs
  = set_messageQueue [] (emitAll (EmitMessage <$> messageQueue rs) rs).
Proof.
  revert rs. induction fuel as [|fuel IH]; intros rs Hfuel; simpl.
  - destruct (messageQueue rs) eqn:Hq; [|simpl in Hfuel; lia].
    simpl. by rewrite <- Hq, set_messageQueue_id.
  - destruct (messageQueue rs) as [|message rest] eqn:Hq.
    + simpl. by rewrite <- Hq, set_messageQueue_id.
    + rewrite IH by (simpl in *; lia). simpl.
      unfold sendRealtimeMessage.
      change (emit (EmitMessage message) (set_messageQueue rest rs))
        with (set_messageQueue rest (emit (EmitMessage message) rs)).
      by rewrite emitAll_set_messageQueue.
Qed.

Lemma processMessageQueue_spec (rs : RealtimeService) :
  processMessageQueue rs
  = set_messageQueue [] (emitAll (EmitMessage <$> messageQueue rs) rs).
Proof. by apply processMessageQueue_loop_spec. Qed.

(** While the transport is not connected, [sendMessage] appends the
    envelope to the queue and resolves with its id. *)
Lemma sendMessage_offline (r : SendRequest) (rs : RealtimeService) :
  isConnected rs = false ->
  sendMessage r rs
  = (set_messageQueue (messageQueue rs ++ [envelope (currentUser rs) r]) rs,
     Ret (req_messageId r)).
Proof. intros Hoff. unfold sendMessage. by rewrite Hoff. Qed.

Lemma sendMessages_offline (rq : list SendRequest) (rs : RealtimeService) :
  isConnected rs = false ->
  sendMessages rq rs
  = set_messageQueue (messageQueue rs ++ (envelope (currentUser rs) <$> rq)) rs.
Proof.
  revert rs. induction rq as [|r rq IH]; intros rs Hoff.
  - simpl. by rewrite app_nil_r, set_messageQueue_id.
  - unfold sendMessages in *. simpl. rewrite sendMessage_offline by done.
    rewrite IH by done. simpl. by rewrite <- app_assoc.
Qed.

(** The ['connect'] event: registration, then the queue in order. *)
Lemma onConnect_spec (sock : Socket) (rs : RealtimeService) :
  socket rs = Some sock ->
  let rs' := onConnect rs in
  messageQueue rs' = []
  /\ isConnected rs' = true
  /\ emittedLog rs'
     = emitted sock ++ [EmitRegister (currentUser rs)]
         ++ (EmitMessage <$> messageQueue rs).
Proof.
  intros Hsock rs'. subst rs'. unfold onConnect.
  rewrite processMessageQueue_spec. split; [done|].
  unfold isConnected, emittedLog. cbn [socket set_messageQueue].
  rewrite socket_emitAll. simpl. rewrite Hsock. simpl.
  split; [done|]. by rewrite <- app_assoc.
Qed.

(** C7.  While the transport is not connected, every envelope given to
    [sendMessage] goes to the tail of the queue and nothing is emitted.
    When the connection comes back, on the same socket or on a new one made
    by [connect], the handler of the ['connect'] event emits the
    registration and then every queued envelope once, oldest first, and the
    queue is empty afterwards. *)
Theorem offline_queue_drained_in_order (rq : list SendRequest)
    (rs : RealtimeService) :
  isConnected rs = false ->
  let offline := sendMessages rq rs in
  messageQueue offline = messageQueue rs ++ (envelope (currentUser rs) <$> rq)
  /\ emittedLog offline = emittedLog rs
  /\ (forall sock, socket rs = Some sock ->
        let online := onConnect offline in
        messageQueue online = []
        /\ emittedLog online
           = emitted sock ++ [EmitRegister (currentUser rs)]
               ++ (EmitMessage <$> messageQueue offline))
  /\ (forall userId sock,
        let online := connectAndOpen userId sock offline in
        messageQueue online = []
        /\ emittedLog online
           = emitted sock ++ [EmitRegister (Some userId)]
               ++ (EmitMessage <$> messageQueue offline)).
Proof.
  intros Hoff offline. subst offline. rewrite sendMessages_offline by done.
  split; [done|]. split; [done|]. split.
  - intros sock Hsock online.
    destruct (onConnect_spec sock
                (set_messageQueue
                   (messageQueue rs ++ (envelope (currentUser rs) <$> rq)) rs)
                Hsock) as (Hq & _ & Hlog).
    by split.
  - intros userId sock online. subst online. unfold connectAndOpen.
    match goal with
    | |- context [onConnect ?r] =>
        destruct (onConnect_spec sock r eq_refl) as (Hq & _ & Hlog)
    end.
    by split.
Qed.

Lemma offline_queue_drained_in_order_witness :
  let rq := [Sample.request "id1" "one" 1; Sample.request "id2" "two" 2] in
  let offline := sendMessages rq Sample.offlineService in
  isConnected Sample.offlineService = false
  /\ messageQueue offline = envelope (Some "alice") <$> rq
  /\ messageQueue (onConnect offline) = []
  /\ emittedLog (onConnect offline)
     = EmitRegister (Some "alice")
         :: (EmitMessage <$> (envelope (Some "alice") <$> rq)).
Proof.
  intros rq offline.
  destruct (offline_queue_drained_in_order rq Sample.offlineService eq_refl)
    as (Hqueue & _ & Hsame & _).
  destruct (Hsame _ eq_refl) as (Hempty & Hlog).
  split; [reflexivity|]. split; [exact Hqueue|]. split; [exact Hempty|].
  exact Hlog.
Defined.

(** ** Reconnection *)

Lemma reconnectDelay_mono (n m : nat) :
  (n <= m)%nat -> reconnectDelay n <= reconnectDelay m.
Proof.
  intros Hnm. unfold reconnectDelay. apply Z.min_le_compat_r.
  apply Z.mul_le_mono_nonneg_l; [lia|].
  apply Z.pow_le_mono_r; lia.
Qed.

Lemma reconnectDelay_bounds (n : nat) : 0 < reconnectDelay n <= 30000.
Proof.
  unfold reconnectDelay. split; [|apply Z.le_min_r].
  apply Z.min_glb_lt; [|lia].
  assert (0 < 2 ^ Z.of_nat n) by (apply Z.pow_pos_nonneg; lia). lia.
Qed.

Lemma reconnectDelay_doubles (n : nat) :
  reconnectDelay (S n) = Z.min (2 * reconnectDelay n) 30000.
Proof.
  unfold reconnectDelay. rewrite Nat2Z.inj_succ, Z.pow_succ_r by lia. lia.
Qed.

Lemma scheduleReconnect_spec (rs : RealtimeService) :
  (scheduleReconnect rs).2
  = (if bool_decide (reconnectAttempts rs < maxReconnectAttempts rs)%nat
     then Some (reconnectDelay (S (reconnectAttempts rs))) else None)
  /\ reconnectAttempts (scheduleReconnect rs).1
     = (if bool_decide (reconnectAttempts rs < maxReconnectAttempts rs)%nat
        then S (reconnectAttempts rs) else reconnectAttempts rs)
  /\ maxReconnectAttempts (scheduleReconnect rs).1 = maxReconnectAttempts rs.
Proof. unfold scheduleReconnect. by case_bool_decide. Qed.

(** The delays of consecutive failures, by the attempt counter. *)
Lemma failedRetries_delays (e : string) (k : nat) (rs : RealtimeService) :
  failedRetries e k rs
  = (fun i => reconnectDelay (S i))
      <$> seq (reconnectAttempts rs)
            (k `min` (maxReconnectAttempts rs - reconnectAttempts rs)).
Proof.
  revert rs. induction k as [|k IH]; intros rs; [done|].
  simpl. unfold reconnectTimer, connect.
  match goal with
  | |- context [scheduleReconnect ?r] =>
      pose proof (scheduleReconnect_spec r) as (Hd & Ha & Hm);
      destruct (scheduleReconnect r) as [rs' d]
  end.
  simpl in Hd, Ha, Hm. case_bool_decide as Hlt; subst d.
  - rewrite IH, Ha, Hm.
    replace (maxReconnectAttempts rs - reconnectAttempts rs)%nat
      with (S (maxReconnectAttempts rs - S (reconnectAttempts rs))) by lia.
    done.
  - replace (maxReconnectAttempts rs - reconnectAttempts rs)%nat with 0%nat by lia.
    done.
Qed.

Lemma failedAttempts_delays (userId e : string) (k : nat) (rs : RealtimeService) :
  failedAttempts userId e k rs
  = (fun i => reconnectDelay (S i))
      <$> seq (reconnectAttempts rs)
            (S k `min` (maxReconnectAttempts rs - reconnectAttempts rs)).
Proof.
  unfold failedAttempts, connect.
  match goal with
  | |- context [scheduleReconnect ?r] =>
      pose proof (scheduleReconnect_spec r) as (Hd & Ha & Hm);
      destruct (scheduleReconnect r) as [rs' d]
  end.
  simpl in Hd, Ha, Hm. case_bool_decide as Hlt; subst d.
  - rewrite failedRetries_delays, Ha, Hm.
    replace (maxReconnectAttempts rs - reconnectAttempts rs)%nat
      with (S (maxReconnectAttempts rs - S (reconnectAttempts rs))) by lia.
    done.
  - replace (maxReconnectAttempts rs - reconnectAttempts rs)%nat with 0%nat by lia.
    done.
Qed.

Lemma delays_sorted (a n : nat) :
  StronglySorted Z.le ((fun i => reconnectDelay (S i)) <$> seq a n).
Proof.
  revert a. induction n as [|n IH]; intros a; simpl; constructor; [apply IH|].
  apply Forall_fmap, Forall_forall. intros i Hi. simpl.
  apply elem_of_seq in Hi. apply reconnectDelay_mono. lia.
Qed.

(** C8.  The delays scheduled by a failing [connect] and the failing
    retries that follow it never decrease and never exceed 30000 ms; each
    delay is the double of the one before, capped at 30000; no more timers
    are set than attempts remain; and once the attempt counter has reached
    the maximum, [scheduleReconnect] sets no timer and changes nothing.
    The delay of the failure that brings the counter to [n] is 1000 times
    2 to the [n], or 30000 if that is less: on a service as it is
    constructed the delays are 2000, 4000, 8000, 16000 and 30000 ms, and
    then none. *)
Theorem reconnect_backoff (userId e : string) (k : nat) (rs : RealtimeService) :
  let delays := failedAttempts userId e k rs in
  StronglySorted Z.le delays
  /\ Forall (fun d => 0 < d <= 30000) delays
  /\ length delays
     = (S k `min` (maxReconnectAttempts rs - reconnectAttempts rs))%nat
  /\ (forall n, reconnectDelay n <= reconnectDelay (S n))
  /\ (forall n, reconnectDelay (S n) = Z.min (2 * reconnectDelay n) 30000)
  /\ scheduleReconnect rs
     = (if bool_decide (reconnectAttempts rs < maxReconnectAttempts rs)%nat
        then ((scheduleReconnect rs).1,
              Some (reconnectDelay (S (reconnectAttempts rs))))
        else (rs, None))
  /\ delays
     = (fun n => Z.min (1000 * 2 ^ Z.of_nat n) 30000)
         <$> seq (S (reconnectAttempts rs))
               (S k `min` (maxReconnectAttempts rs - reconnectAttempts rs))
  /\ failedAttempts userId e k Realtime.new
     = take (S k) [2000; 4000; 8000; 16000; 30000].
Proof.
  intros delays. subst delays. rewrite !failedAttempts_delays.
  split; [apply delays_sorted|]. split.
  { apply Forall_fmap, Forall_forall. intros i _. apply reconnectDelay_bounds. }
  split; [by rewrite length_fmap, length_seq|].
  split; [intros n; apply reconnectDelay_mono; lia|].
  split; [apply reconnectDelay_doubles|].
  split; [unfold scheduleReconnect; by case_bool_decide|].
  split.
  - rewrite <- fmap_S_seq, <- list_fmap_compose. done.
  - by destruct k as [|[|[|[|[|k]]]]].
Qed.

(** The delays of the service as it is constructed: five timers, then none. *)
Example default_backoff :
  failedAttempts "alice" "refused" 9 Realtime.new
  = [2000; 4000; 8000; 16000; 30000].
Proof. reflexivity. Qed.

End RealtimeFacts.

(* ================================================================== *)
(** * The store: ordering, peers, typing, drafts and keys              *)
(* ================================================================== *)

Module StoreActionsFacts.

Import AdvancedCrypto Store StoreActions JSFacts CryptoFacts StoreFacts.

(** ** Order of the stored messages *)

Lemma ascending_snoc (l : list Message) (m : Message) :
  ascending l ->
  Forall (fun x => msg_timestamp x <= msg_timestamp m) l ->
  ascending (l ++ [m]).
Proof.
  unfold ascending. intros Hl Hm. apply StronglySorted_app.
  split; [|split; [done | repeat constructor]].
  intros x y Hx Hy. apply list_elem_of_singleton in Hy as ->.
  by apply (proj1 (Forall_forall _ _) Hm).
Qed.

Lemma ascending_filter (p : Message -> Prop) `{forall m, Decision (p m)}
    (l : list Message) :
  ascending l -> ascending (filter p l).
Proof.
  unfold ascending. induction 1 as [|x l Hl IH Hx]; [constructor|].
  rewrite filter_cons. destruct (decide (p x)); [|done].
  constructor; [done|]. apply Forall_forall. intros y Hy.
  apply list_elem_of_filter in Hy as [_ Hy].
  by apply (proj1 (Forall_forall _ _) Hx).
Qed.

(** A message that is not older than any stored one is appended at the end
    and the stored ones keep their places, also when timestamps are equal;
    and every call makes the list one longer, whether or not the id of the
    message is already stored. *)
Theorem addMessage_in_order_appends (chatId : string) (message : Message)
    (s : ChatState) :
  ascending (chatMessages chatId s) ->
  Forall (fun x => msg_timestamp x <= msg_timestamp message)
    (chatMessages chatId s) ->
  chatMessages chatId (addMessage chatId message s)
  = chatMessages chatId s ++ [message]
  /\ forall other : Message,
       length (chatMessages chatId (addMessage chatId other s))
       = S (length (chatMessages chatId s)).
Proof.
  intros Hasc Hle. split.
  - rewrite chatMessages_addMessage.
    apply (Array_sort_id byTimestamp msg_timestamp); [done|].
    by apply ascending_snoc.
  - intros other. rewrite chatMessages_addMessage, Array_sort_length.
    rewrite length_app. simpl. lia.
Qed.

Lemma addMessage_in_order_appends_witness :
  chatMessages "direct_alice_bob"
    (addMessage "direct_alice_bob" (Sample.fromBob "b3" 20) Sample.withChat)
  = [Sample.fromBob "b1" 10; Sample.fromBob "b2" 20; Sample.fromBob "b3" 20].
Proof.
  refine (proj1 (addMessage_in_order_appends "direct_alice_bob"
                   (Sample.fromBob "b3" 20) Sample.withChat _ _)).
  - repeat constructor; by vm_compute.
  - repeat constructor; by vm_compute.
Defined.

Lemma chatMessages_removeMessage (chatId messageId : string) (s : ChatState) :
  chatMessages chatId (removeMessage chatId messageId s)
  = filter (fun msg => msg_id msg <> messageId) (chatMessages chatId s).
Proof.
  unfold removeMessage, chatMessages at 1. simpl. by rewrite lookup_insert_eq.
Qed.

(** [removeMessage] takes out every message with the id and nothing else,
    keeps the others in their order, keeps an ascending list ascending, and
    a second call changes nothing. *)
Theorem removeMessage_removes_id (chatId messageId : string) (s : ChatState) :
  let s' := removeMessage chatId messageId s in
  chatMessages chatId s'
  = filter (fun msg => msg_id msg <> messageId) (chatMessages chatId s)
  /\ Forall (fun msg => msg_id msg <> messageId) (chatMessages chatId s')
  /\ (ascending (chatMessages chatId s) -> ascending (chatMessages chatId s'))
  /\ removeMessage chatId messageId s' = s'.
Proof.
  intros s'. subst s'. rewrite chatMessages_removeMessage.
  split; [done|]. split; [|split].
  - apply Forall_forall. intros m Hm. by apply list_elem_of_filter in Hm as [? _].
  - apply ascending_filter.
  - unfold removeMessage at 1. rewrite chatMessages_removeMessage.
    rewrite list_filter_filter.
    assert (Hf : filter (fun x => msg_id x <> messageId /\ msg_id x <> messageId)
                   (chatMessages chatId s)
                 = filter (fun msg => msg_id msg <> messageId)
                     (chatMessages chatId s)).
    { apply list_filter_iff. tauto. }
    rewrite Hf. unfold removeMessage. simpl. by rewrite insert_insert_eq.
Qed.

Lemma removeMessage_removes_id_witness :
  ascending (chatMessages "direct_alice_bob" Sample.withChat)
  /\ chatMessages "direct_alice_bob"
       (removeMessage "direct_alice_bob" "b1" Sample.withChat)
     = [Sample.fromBob "b2" 20]
  /\ ascending (chatMessages "direct_alice_bob"
                  (removeMessage "direct_alice_bob" "b1" Sample.withChat)).
Proof.
  assert (Hasc : ascending (chatMessages "direct_alice_bob" Sample.withChat)).
  { repeat constructor; by vm_compute. }
  destruct (removeMessage_removes_id "direct_alice_bob" "b1" Sample.withChat)
    as (Heq & _ & Hkeep & _).
  split; [exact Hasc|]. split; [exact Heq | exact (Hkeep Hasc)].
Defined.

(** An update that carries neither an id nor a timestamp, such as the
    status update of [sendEncryptedMessage], keeps the ids and the
    timestamps of the chat's messages in place, so an ascending list stays
    ascending; messages with another id are not touched. *)
Theorem updateMessage_keeps_order (chatId messageId : string)
    (updates : MessageUpdates) (s : ChatState) :
  upd_id updates = None ->
  upd_timestamp updates = None ->
  let s' := updateMessage chatId messageId updates s in
  msg_id <$> chatMessages chatId s' = msg_id <$> chatMessages chatId s
  /\ msg_timestamp <$> chatMessages chatId s'
     = msg_timestamp <$> chatMessages chatId s
  /\ (ascending (chatMessages chatId s) -> ascending (chatMessages chatId s'))
  /\ filter (fun m => msg_id m <> messageId) (chatMessages chatId s')
     = filter (fun m => msg_id m <> messageId) (chatMessages chatId s).
Proof.
  intros Hid Hts s'. subst s'. rewrite chatMessages_updateMessage.
  set (f := fun msg => if bool_decide (msg_id msg = messageId)
                       then spread_message msg updates else msg).
  assert (Hfid : forall m, msg_id (f m) = msg_id m).
  { intros m. unfold f. case_bool_decide; [|done]. simpl. by rewrite Hid. }
  assert (Hfts : forall m, msg_timestamp (f m) = msg_timestamp m).
  { intros m. unfold f. case_bool_decide; [|done]. simpl. by rewrite Hts. }
  split; [|split; [|split]].
  - rewrite <- list_fmap_compose. apply list_fmap_ext. intros _ m _. apply Hfid.
  - rewrite <- list_fmap_compose. apply list_fmap_ext. intros _ m _. apply Hfts.
  - unfold ascending. intros Hasc.
    eapply StronglySorted_fmap; [|exact Hasc].
    intros a b Hab. simpl. by rewrite !Hfts.
  - induction (chatMessages chatId s) as [|m l IH]; [done|].
    rewrite fmap_cons, !filter_cons, Hfid.
    destruct (decide (msg_id m <> messageId)) as [Hne|Heq]; [|done].
    rewrite IH. f_equal. unfold f. by rewrite bool_decide_eq_false_2.
Qed.

Lemma updateMessage_keeps_order_witness :
  msg_status <$> chatMessages "direct_alice_bob"
                   (updateMessage "direct_alice_bob" "b1" (status_update Read)
                      Sample.withChat) = [Read; Delivered]
  /\ msg_id <$> chatMessages "direct_alice_bob"
                  (updateMessage "direct_alice_bob" "b1" (status_update Read)
                     Sample.withChat) = ["b1"; "b2"].
Proof.
  split; [by vm_compute|].
  exact (proj1 (updateMessage_keeps_order "direct_alice_bob" "b1"
                  (status_update Read) Sample.withChat eq_refl eq_refl)).
Defined.

(** ** Peers *)

Section FindIndex.
Context {A : Type} (p : A -> bool).

Lemma findIndex_None (l : list A) :
  Array_findIndex p l = None -> Forall (fun x => p x = false) l.
Proof.
  induction l as [|x l IH]; simpl; [constructor|].
  destruct (p x) eqn:Hx; [done|].
  destruct (Array_findIndex p l); [done|]. intros _. constructor; auto.
Qed.

Lemma find_not_found (l : list A) :
  Forall (fun x => p x = false) l -> Array_find p l = None.
Proof.
  induction 1 as [|x l Hx _ IH]; simpl; [done|].
  unfold Array_find in *. simpl. by rewrite Hx.
Qed.

Lemma find_app_not_found (l : list A) (x : A) :
  Forall (fun y => p y = false) l -> p x = true ->
  Array_find p (l ++ [x]) = Some x.
Proof.
  induction 1 as [|y l Hy _ IH]; intros Hx; unfold Array_find in *; simpl.
  - by rewrite Hx.
  - rewrite Hy. by apply IH.
Qed.

Lemma find_app_found (l k : list A) (x : A) :
  Array_find p l = Some x -> Array_find p (l ++ k) = Some x.
Proof.
  unfold Array_find. induction l as [|y l IH]; simpl; [done|].
  destruct (p y); [done | apply IH].
Qed.

Lemma findIndex_find (l : list A) :
  Array_find p l
  = match Array_findIndex p l with
    | Some i => l !! i
    | None => None
    end.
Proof.
  unfold Array_find. induction l as [|x l IH]; simpl; [done|].
  destruct (p x); [done|]. rewrite IH.
  by destruct (Array_findIndex p l).
Qed.

(** Changing the first match by a function that keeps it a match. *)
Lemma find_alter (g : A -> A) (l : list A) (i : nat) :
  Array_findIndex p l = Some i ->
  (forall x, p x = true -> p (g x) = true) ->
  Array_find p (alter g i l) = g <$> Array_find p l.
Proof.
  unfold Array_find. revert i. induction l as [|x l IH]; intros i; simpl; [done|].
  destruct (p x) eqn:Hx.
  - intros [= <-] Hg. simpl. by rewrite (Hg x Hx).
  - destruct (Array_findIndex p l) as [j|] eqn:Hj; [|done].
    intros [= <-] Hg. simpl. rewrite Hx. by apply IH.
Qed.

Lemma fmap_alter_first_match {B} (f : A -> B) (g : A -> A) (l : list A) (i : nat) :
  Array_findIndex p l = Some i ->
  (forall x, p x = true -> f (g x) = f x) ->
  f <$> alter g i l = f <$> l.
Proof.
  revert i. induction l as [|x l IH]; intros i; simpl; [done|].
  destruct (p x) eqn:Hx.
  - intros [= <-] Hg. simpl. by rewrite (Hg x Hx).
  - destruct (Array_findIndex p l) as [j|] eqn:Hj; [|done].
    intros [= <-] Hg. simpl. f_equal. by apply IH.
Qed.

Lemma filter_alter_first_match (q : A -> Prop) `{forall x, Decision (q x)}
    (g : A -> A) (l : list A) (i : nat) :
  Array_findIndex p l = Some i ->
  (forall x, p x = true -> ~ q x /\ ~ q (g x)) ->
  filter q (alter g i l) = filter q l.
Proof.
  revert i. induction l as [|x l IH]; intros i; simpl; [done|].
  destruct (p x) eqn:Hx.
  - intros [= <-] Hg. simpl. destruct (Hg x Hx) as [Hq Hqg].
    by rewrite !filter_cons_False.
  - destruct (Array_findIndex p l) as [j|] eqn:Hj; [|done].
    intros [= <-] Hg. specialize (IH j eq_refl Hg).
    simpl. rewrite !filter_cons. by rewrite <- IH.
Qed.
End FindIndex.

(** [addPeer] keeps one record per public key: the keys of the peer list
    stay as they are when the key is known and get the new key at the end
    otherwise, so distinct keys stay distinct; and a lookup by the key
    afterwards returns the new data, merged over the old record if there
    was one.  In the merge the required keys come from the new peer, and
    so does every optional key the new peer has, also when it holds
    [undefined]; an optional key the new peer lacks keeps the old value. *)
Theorem addPeer_one_record_per_key (peer : Peer) (s : ChatState) :
  let s' := addPeer peer s in
  peerKeys s'
  = (if bool_decide (peer_publicKey peer ∈ peerKeys s)
     then peerKeys s else peerKeys s ++ [peer_publicKey peer])
  /\ (NoDup (peerKeys s) -> NoDup (peerKeys s'))
  /\ usePeerByPublicKey (peer_publicKey peer) s'
     = Some (match usePeerByPublicKey (peer_publicKey peer) s with
             | Some old => spread_peer old peer
             | None => peer
             end)
  /\ (forall old, usePeerByPublicKey (peer_publicKey peer) s = Some old ->
      exists merged,
        usePeerByPublicKey (peer_publicKey peer) s' = Some merged
        /\ peer_lastSeen merged = peer_lastSeen peer
        /\ peer_messageCount merged = peer_messageCount peer
        /\ peer_username merged
           = match peer_username peer with
             | Some v => Some v
             | None => peer_username old
             end
        /\ peer_nickname merged
           = match peer_nickname peer with
             | Some v => Some v
             | None => peer_nickname old
             end
        /\ peer_isOnline merged
           = match peer_isOnline peer with
             | Some v => Some v
             | None => peer_isOnline old
             end
        /\ peer_status merged
           = match peer_status peer with
             | Some v => Some v
             | None => peer_status old
             end).
Proof.
  intros s'. subst s'.
  set (p := fun q => bool_decide (peer_publicKey q = peer_publicKey peer)).
  assert (Hkeys : peerKeys (addPeer peer s)
    = (if bool_decide (peer_publicKey peer ∈ peerKeys s)
       then peerKeys s else peerKeys s ++ [peer_publicKey peer])
    /\ usePeerByPublicKey (peer_publicKey peer) (addPeer peer s)
       = Some (match usePeerByPublicKey (peer_publicKey peer) s with
               | Some old => spread_peer old peer
               | None => peer
               end)).
  { unfold addPeer, usePeerByPublicKey, peerKeys. fold p.
    pose proof (findIndex_find p (peers s)) as Hfind.
    destruct (Array_findIndex p (peers s)) as [i|] eqn:Hi; simpl.
    - assert (Hold : exists old, peers s !! i = Some old
                                 /\ peer_publicKey old = peer_publicKey peer).
      { assert (Hsome : is_Some (Array_find p (peers s))).
        { rewrite Hfind. clear Hfind. revert i Hi.
          induction (peers s) as [|x l IH]; intros i; simpl; [done|].
          destruct (p x); [by intros [= <-]; eexists|].
          destruct (Array_findIndex p l) eqn:Hl; [|done].
          intros [= <-]. simpl. by eapply IH. }
        destruct Hsome as [old Hold]. exists old. split; [congruence|].
        unfold Array_find in Hold. apply find_some in Hold as [_ Hp].
        by apply bool_decide_eq_true in Hp. }
      destruct Hold as (old & Hlook & Hkey). split.
      + rewrite (fmap_alter_first_match p _ _ _ i Hi).
        2:{ intros x Hx. unfold p in Hx. apply bool_decide_eq_true in Hx.
            by simpl. }
        rewrite bool_decide_eq_true_2; [done|].
        apply list_elem_of_fmap. exists old. split; [done|].
        by eapply list_elem_of_lookup_2.
      + rewrite (find_alter p _ _ i Hi).
        * rewrite Hfind, Hlook. done.
        * intros x _. unfold p. simpl. by apply bool_decide_eq_true.
    - pose proof (findIndex_None p _ Hi) as Hnone.
      rewrite (find_not_found p _ Hnone). split.
      + rewrite fmap_app. simpl. rewrite bool_decide_eq_false_2; [done|].
        intros Hin. apply list_elem_of_fmap in Hin as (q & Hq & Hqin).
        apply (proj1 (Forall_forall _ _) Hnone) in Hqin.
        unfold p in Hqin. by apply bool_decide_eq_false in Hqin.
      + apply (find_app_not_found p); [done|]. unfold p.
        by apply bool_decide_eq_true. }
  destruct Hkeys as [Hkeys Hlook]. split; [done|]. split; [|split; [done|]].
  - intros Hnodup. rewrite Hkeys. case_bool_decide as Hin; [done|].
    apply NoDup_app. split; [done|]. split; [|apply NoDup_singleton].
    intros x Hx Hx'. apply list_elem_of_singleton in Hx' as ->. done.
  - intros old Hold. rewrite Hold in Hlook.
    exists (spread_peer old peer). by split.
Qed.

Lemma addPeer_one_record_per_key_witness :
  let s := addPeer (mkPeer "bob" (Some (Some "Bob")) (Some (Some "bobby")) 1 0
                      (Some (Some true)) (Some (Some Online)))
             Sample.loggedIn in
  let s' := addPeer (mkPeer "bob" None (Some None) 2 0 (Some (Some false)) None)
              s in
  NoDup (peerKeys s)
  /\ NoDup (peerKeys s')
  /\ usePeerByPublicKey "bob" s'
     = Some (mkPeer "bob" (Some (Some "Bob")) (Some None) 2 0
               (Some (Some false)) (Some (Some Online))).
Proof.
  intros s s'.
  assert (Hnodup : NoDup (peerKeys s)).
  { apply NoDup_singleton. }
  destruct (addPeer_one_record_per_key
              (mkPeer "bob" None (Some None) 2 0 (Some (Some false)) None) s)
    as (_ & Hkeep & Hlook & _).
  split; [exact Hnodup|]. split; [exact (Hkeep Hnodup) | exact Hlook].
Defined.

(** [removePeer] undoes [addPeer]: removing the key of a peer that was just
    added gives the same store as removing it without the addition, and no
    record with that key is left. *)
Theorem removePeer_undoes_addPeer (peer : Peer) (s : ChatState) :
  removePeer (peer_publicKey peer) (addPeer peer s)
  = removePeer (peer_publicKey peer) s
  /\ peer_publicKey peer ∉ peerKeys (removePeer (peer_publicKey peer) s).
Proof.
  split.
  - unfold addPeer.
    set (p := fun q => bool_decide (peer_publicKey q = peer_publicKey peer)).
    destruct (Array_findIndex p (peers s)) as [i|] eqn:Hi;
      unfold removePeer, set_peers; simpl; f_equal.
    + apply (filter_alter_first_match p); [done|].
      intros x Hx. unfold p in Hx. apply bool_decide_eq_true in Hx.
      simpl. split; intros Hne; by apply Hne.
    + rewrite filter_app, filter_cons_False, filter_nil, app_nil_r; [done|].
      intros Hne. by apply Hne.
  - unfold removePeer, peerKeys. simpl. intros Hin.
    apply list_elem_of_fmap in Hin as (q & Hq & Hqin).
    apply list_elem_of_filter in Hqin as [Hne _]. by apply Hne.
Qed.

(** ** The sets of the store *)

Section Sets.
Context {P : Primitives}.

Lemma perform_keeps_sets (a : Action) (s : ChatState) :
  onlinePeers (perform a s) = onlinePeers s
  /\ blockedUsers (perform a s) = blockedUsers s.
Proof.
  destruct a; simpl; try done.
  - unfold addPeer. by destruct (Array_findIndex _ _).
  - unfold sendEncryptedMessage, sendEncryptedMessage_begin.
    destruct (currentUser s); [|done].
    cbn [encryptionKeys encryptionKeysFrozen setSendingMessage set_loading].
    destruct (encryptionKeys s !! recipientKey);
      [|destruct (encryptionKeysFrozen s); [done|]];
      (destruct (encryptWithSharedSecret _ _ _); [|done]);
      by destruct transport.
  - unfold App.createDirectChat.
    destruct (Array_find _ (chats s)); [done|].
    destruct (Array_find _ (peers s)); [done|].
    unfold addPeer. cbn [peers]. by destruct (Array_findIndex _ _).
  - unfold onMessage.
    destruct (Array_find _ (chats s)); [done|].
    destruct (Array_find _ (peers s)); [done|].
    unfold addPeer. cbn [peers addChat set_messages set_chats].
    by destruct (Array_findIndex _ _).
Qed.

(** The store never changes its two sets.  [setPeerOnline] throws on every
    call and leaves the store as it is, and so does the presence callback
    that calls it; and whatever actions and events follow one another, the
    set of online peers and the set of blocked users are those the store
    started with: in a store that starts from the initial state both stay
    empty. *)
Theorem sets_of_the_store_never_change (actions : list Action)
    (publicKey : string) (online : bool) (presence : PresenceData)
    (clock : nat -> Z) (s : ChatState) :
  setPeerOnline publicKey online clock s = (s, Throw mapSetError)
  /\ onPresence presence clock s = (s, Throw mapSetError)
  /\ onlinePeers (performAll actions s) = onlinePeers s
  /\ blockedUsers (performAll actions s) = blockedUsers s
  /\ onlinePeers (performAll actions initial) = ∅
  /\ blockedUsers (performAll actions initial) = ∅.
Proof.
  assert (Hall : forall s0, onlinePeers (performAll actions s0) = onlinePeers s0
                            /\ blockedUsers (performAll actions s0) = blockedUsers s0).
  { induction actions as [|a actions IH]; intros s0; [done|].
    unfold performAll. simpl. fold (performAll actions (perform a s0)).
    destruct (IH (perform a s0)) as [-> ->]. apply perform_keeps_sets. }
  split; [done|]. split; [done|].
  destruct (Hall s) as [-> ->]. destruct (Hall initial) as [-> ->]. done.
Qed.

End Sets.

(** ** Typing indicators *)

Lemma filter_none {A} (q : A -> Prop) `{forall x, Decision (q x)} (l : list A) :
  (forall x, ~ q x) -> filter q l = [].
Proof.
  intros Hq. induction l as [|x l IH]; [done|].
  by rewrite filter_cons_False.
Qed.

(** [setTyping] supersedes: afterwards the list holds exactly one indicator
    for the chat and user of the new one, namely the new one, and the
    indicators of every other chat and user are those it held before;
    [clearTyping] for the same chat and user then leaves none. *)
Theorem setTyping_supersedes (indicator : TypingIndicator) (chatId userId : string)
    (s : ChatState) :
  let own := fun t => typing_chatId t = typing_chatId indicator
                      /\ typing_userId t = typing_userId indicator in
  let other := fun t => typing_chatId t = chatId /\ typing_userId t = userId in
  filter own (typingIndicators (setTyping indicator s)) = [indicator]
  /\ (~ (chatId = typing_chatId indicator /\ userId = typing_userId indicator) ->
      filter other (typingIndicators (setTyping indicator s))
      = filter other (typingIndicators s))
  /\ filter own
       (typingIndicators
          (clearTyping (typing_chatId indicator) (typing_userId indicator)
             (setTyping indicator s))) = [].
Proof.
  intros own other. unfold setTyping, clearTyping. simpl.
  split; [|split].
  - rewrite filter_app, list_filter_filter.
    rewrite (filter_none (fun x => own x /\ ~ own x)) by tauto.
    by rewrite filter_cons_True.
  - intros Hne. rewrite filter_app, list_filter_filter.
    rewrite filter_cons_False, app_nil_r.
    + apply list_filter_iff. intros t. unfold other. split; [tauto|].
      intros [Hc Hu]. split; [done|]. intros [Hc' Hu']. apply Hne.
      split; congruence.
    + unfold other. intros [Hc Hu]. apply Hne. by split.
  - rewrite list_filter_filter. apply filter_none. unfold own. tauto.
Qed.

Lemma setTyping_supersedes_witness :
  let bobTypes := mkTypingIndicator "direct_alice_bob" "bob" "Bob" in
  let s := setTyping (mkTypingIndicator "direct_alice_carol" "carol" "Carol" 1)
             (setTyping (bobTypes 2) Sample.loggedIn) in
  typingIndicators (setTyping (bobTypes 3) s)
  = [mkTypingIndicator "direct_alice_carol" "carol" "Carol" 1; bobTypes 3]
  /\ filter (fun t => typing_chatId t = "direct_alice_carol"
                      /\ typing_userId t = "carol")
       (typingIndicators (setTyping (bobTypes 3) s))
     = [mkTypingIndicator "direct_alice_carol" "carol" "Carol" 1].
Proof.
  intros bobTypes s. split; [by vm_compute|].
  destruct (setTyping_supersedes (bobTypes 3) "direct_alice_carol" "carol" s)
    as (_ & Hother & _).
  rewrite Hother; [by vm_compute|]. intros [Hc _]. discriminate Hc.
Defined.

(** ** Drafts and keys *)

(** A saved draft is read back as it was saved, the empty draft included,
    a chat without a draft reads as the empty string, and saving the draft
    of one chat changes the draft of no other chat. *)
Theorem draft_roundtrip_per_chat (chatId other content : string) (s : ChatState) :
  loadDraft chatId (saveDraft chatId content s) = content
  /\ (drafts s !! chatId = None -> loadDraft chatId s = "")
  /\ (other <> chatId ->
      loadDraft other (saveDraft chatId content s) = loadDraft other s).
Proof.
  unfold loadDraft, saveDraft. simpl. split; [|split].
  - by rewrite lookup_insert_eq.
  - by intros ->.
  - intros Hne. by rewrite lookup_insert_ne.
Qed.

Lemma draft_roundtrip_per_chat_witness :
  loadDraft "a" Sample.loggedIn = ""
  /\ loadDraft "b" (saveDraft "a" "x" (saveDraft "b" "y" Sample.loggedIn)) = "y".
Proof.
  destruct (draft_roundtrip_per_chat "a" "b" "x" (saveDraft "b" "y" Sample.loggedIn))
    as (_ & _ & Hother).
  split.
  - exact (proj1 (proj2 (draft_roundtrip_per_chat "a" "b" "x" Sample.loggedIn))
             eq_refl).
  - rewrite Hother; [by vm_compute|]. discriminate.
Defined.

Section Keys.
Context {P : Primitives}.

(** [sendEncryptedMessage] never replaces a cached key: the key of the
    recipient afterwards is the cached one if there was one.  Without one,
    the placeholder of 32 zero bytes is written into the object of
    [encryptionKeys] when that object is not frozen, whether or not the
    encryption and the transport succeed; when it is frozen, the call
    rejects with the [TypeError] of the write and no key is cached.  The
    keys of all other users are untouched. *)
Theorem send_caches_zero_key (chatId content recipientKey other : string)
    (nonce : bytes) (secureId : string) (now : Z) (transport : result string)
    (user : UserProfile) (state : ChatState) :
  currentUser state = Some user ->
  let r := sendEncryptedMessage chatId content recipientKey nonce secureId
             now transport state in
  getSharedKey recipientKey r.1
  = match getSharedKey recipientKey state with
    | Some key => Some key
    | None => if encryptionKeysFrozen state then None
              else Some (replicate 32 Byte.x00)
    end
  /\ (other <> recipientKey -> getSharedKey other r.1 = getSharedKey other state)
  /\ encryptionKeysFrozen r.1 = encryptionKeysFrozen state
  /\ (getSharedKey recipientKey state = None ->
      encryptionKeysFrozen state = true ->
      r.2 = Throw (frozenWriteError recipientKey)
      /\ messages r.1 = messages state).
Proof.
  intros Huser r. subst r.
  unfold sendEncryptedMessage, sendEncryptedMessage_begin, getSharedKey.
  rewrite Huser.
  cbn [encryptionKeys encryptionKeysFrozen setSendingMessage set_loading].
  destruct (encryptionKeys state !! recipientKey) as [key|] eqn:Hkey.
  - destruct (encryptWithSharedSecret content key nonce); [|by simpl].
    destruct transport; by simpl.
  - destruct (encryptionKeysFrozen state) eqn:Hfrozen; [by simpl|].
    destruct (encryptWithSharedSecret content mockKey nonce).
    + destruct transport; simpl; rewrite lookup_insert_eq;
        (split; [done|]); (split; [|done]);
        intros Hne; by rewrite lookup_insert_ne.
    + simpl. rewrite lookup_insert_eq. split; [done|]. split; [|done].
      intros Hne. by rewrite lookup_insert_ne.
Qed.

End Keys.

Lemma send_caches_zero_key_witness :
  getSharedKey "bob"
    (sendEncryptedMessage (P := Reference.primitives) "direct_alice_bob" "hi"
       "bob" Sample.nonce24 "id1" 7 (Ret "t1") Sample.loggedIn).1
  = Some (replicate 32 Byte.x00)
  /\ getSharedKey "bob"
       (sendEncryptedMessage (P := Reference.primitives) "direct_alice_bob" "hi"
          "bob" Sample.nonce24 "id1" 7 (Ret "t1")
          (generateSharedKey "carol" [] Sample.key32 Sample.loggedIn)).1
     = None.
Proof.
  split.
  - exact (proj1 (send_caches_zero_key (P := Reference.primitives)
                    "direct_alice_bob" "hi" "bob" "carol" Sample.nonce24 "id1" 7
                    (Ret "t1") Sample.alice Sample.loggedIn eq_refl)).
  - exact (proj1 (send_caches_zero_key (P := Reference.primitives)
                    "direct_alice_bob" "hi" "bob" "carol" Sample.nonce24 "id1" 7
                    (Ret "t1") Sample.alice
                    (generateSharedKey "carol" [] Sample.key32 Sample.loggedIn)
                    eq_refl)).
Defined.

(** ** Chats and routing *)

Section Find.
Context {A : Type} (p : A -> bool).

Lemma find_None_Forall (l : list A) :
  Array_find p l = None -> Forall (fun x => p x = false) l.
Proof.
  unfold Array_find. induction l as [|x l IH]; simpl; [constructor|].
  destruct (p x) eqn:Hx; [done|]. intros Hl. constructor; auto.
Qed.

Lemma findIndex_not_found (l : list A) :
  Forall (fun x => p x = false) l -> Array_findIndex p l = None.
Proof.
  induction 1 as [|x l Hx _ IH]; simpl; [done|]. by rewrite Hx, IH.
Qed.

Lemma find_fmap (f : A -> A) (l : list A) :
  (forall x, p (f x) = p x) ->
  Array_find p (f <$> l) = f <$> Array_find p l.
Proof.
  intros Hf. unfold Array_find. induction l as [|x l IH]; simpl; [done|].
  rewrite Hf. by destruct (p x).
Qed.
End Find.

Lemma peers_addMessage (chatId : string) (message : Message) (s : ChatState) :
  peers (addMessage chatId message s) = peers s.
Proof. done. Qed.

Lemma isDirectChatOf_new (a b : string) (c : Chat) :
  chat_type c = Direct -> chat_participants c = [a; b] ->
  isDirectChatOf a b c = true.
Proof.
  intros Hty Hp. unfold isDirectChatOf, Array_includes. rewrite Hty, Hp.
  rewrite (bool_decide_eq_true_2 (a ∈ [a; b])) by apply list_elem_of_here.
  rewrite (bool_decide_eq_true_2 (b ∈ [a; b]))
    by apply list_elem_of_further, list_elem_of_here.
  done.
Qed.

(** The chats after [addMessage], seen by a test that reads only the type
    and the participants. *)
Lemma find_direct_addMessage (a b chatId : string) (message : Message)
    (s : ChatState) :
  chat_id <$> Array_find (isDirectChatOf a b) (chats (addMessage chatId message s))
  = chat_id <$> Array_find (isDirectChatOf a b) (chats s).
Proof.
  unfold addMessage. simpl.
  rewrite find_fmap; [|intros c; by case_bool_decide].
  destruct (Array_find _ (chats s)) as [c|]; [|done].
  simpl. by case_bool_decide.
Qed.

(** A message from a sender who has a direct chat with the user goes to
    that chat: no chat and no peer is created, the chat's list gets the
    message and is in ascending order. *)
Theorem onMessage_existing_chat (selfId : string) (incoming : Message)
    (createdAt lastActivity lastSeen : Z) (chat : Chat) (s : ChatState) :
  Array_find (isDirectChatOf selfId (msg_sender incoming)) (chats s) = Some chat ->
  let s' := onMessage selfId incoming createdAt lastActivity lastSeen s in
  chat_id <$> chats s' = chat_id <$> chats s
  /\ peers s' = peers s
  /\ chatMessages (chat_id chat) s' ≡ₚ chatMessages (chat_id chat) s ++ [incoming]
  /\ ascending (chatMessages (chat_id chat) s')
  /\ (forall other, other <> chat_id chat ->
        chatMessages other s' = chatMessages other s).
Proof.
  intros Hfound s'. subst s'. unfold onMessage. rewrite Hfound.
  split; [apply chat_ids_addMessage|]. split; [done|].
  rewrite chatMessages_addMessage. split; [apply Array_sort_Permutation|].
  split; [by apply (Array_sort_sorted byTimestamp msg_timestamp)|].
  intros other Hne. by apply chatMessages_addMessage_ne.
Qed.

Lemma router_first_chats (selfId : string) (incoming : Message)
    (createdAt lastActivity lastSeen : Z) (s : ChatState) :
  Array_find (isDirectChatOf selfId (msg_sender incoming)) (chats s) = None ->
  exists newChat,
    chats (onMessage selfId incoming createdAt lastActivity lastSeen s)
    = chats (addMessage (directChatId selfId (msg_sender incoming)) incoming
               (set_chats (chats s ++ [newChat]) s))
    /\ chat_id newChat = directChatId selfId (msg_sender incoming)
    /\ chat_type newChat = Direct
    /\ chat_participants newChat = [selfId; msg_sender incoming].
Proof.
  intros Hnone. unfold onMessage. rewrite Hnone. cbv zeta.
  eexists. split.
  { cbn [chat_id].
    destruct (Array_find _ (peers s)); [reflexivity|].
    unfold addPeer. cbn [peers addChat set_messages set_chats].
    destruct (Array_findIndex _ _); reflexivity. }
  by repeat split.
Qed.

(** Two messages in a row from a sender without a direct chat: the first
    creates the chat, the second finds it, so exactly one chat is added
    and it holds both messages in timestamp order. *)
Theorem onMessage_second_message_same_chat (selfId : string)
    (first second : Message) (t1 t2 t3 t4 t5 t6 : Z) (s : ChatState) :
  msg_sender second = msg_sender first ->
  Array_find (isDirectChatOf selfId (msg_sender first)) (chats s) = None ->
  let s1 := onMessage selfId first t1 t2 t3 s in
  let s2 := onMessage selfId second t4 t5 t6 s1 in
  chat_id <$> chats s2
  = (chat_id <$> chats s) ++ [directChatId selfId (msg_sender first)]
  /\ chatMessages (directChatId selfId (msg_sender first)) s2
     = Array_sort byTimestamp [first; second]
  /\ peers s2 = peers s1.
Proof.
  intros Hsender Hnone s1 s2.
  destruct (onMessage_first_contact selfId first t1 t2 t3 s Hnone)
    as (Hchats1 & Hmsgs1). fold s1 in Hchats1, Hmsgs1.
  assert (Hfound : exists chat,
    Array_find (isDirectChatOf selfId (msg_sender second)) (chats s1) = Some chat
    /\ chat_id chat = directChatId selfId (msg_sender first)).
  { destruct (router_first_chats selfId first t1 t2 t3 s Hnone)
      as (newChat & Hchats & Hid & Hty & Hpart).
    fold s1 in Hchats. rewrite Hsender.
    pose proof (find_direct_addMessage selfId (msg_sender first)
                  (directChatId selfId (msg_sender first)) first
                  (set_chats (chats s ++ [newChat]) s)) as Hfind.
    rewrite <- Hchats in Hfind. cbn [chats set_chats] in Hfind.
    rewrite (find_app_not_found _ _ newChat) in Hfind;
      [|by apply find_None_Forall|by apply isDirectChatOf_new].
    destruct (Array_find _ (chats s1)) as [chat|]; [|done].
    exists chat. split; [done|]. simpl in Hfind. congruence. }
  destruct Hfound as (chat & Hfound & Hid).
  subst s2. unfold onMessage. rewrite Hfound, Hid.
  split; [by rewrite chat_ids_addMessage|]. split; [|done].
  by rewrite chatMessages_addMessage, Hmsgs1.
Qed.

Lemma onMessage_second_message_same_chat_witness :
  let s2 := onMessage "alice" (Sample.fromBob "b1" 10) 4 5 6
              (onMessage "alice" (Sample.fromBob "b2" 20) 1 2 3 Sample.loggedIn) in
  chat_id <$> chats s2 = ["direct_alice_bob"]
  /\ chatMessages "direct_alice_bob" s2
     = [Sample.fromBob "b1" 10; Sample.fromBob "b2" 20].
Proof.
  intros s2.
  destruct (onMessage_second_message_same_chat "alice" (Sample.fromBob "b2" 20)
              (Sample.fromBob "b1" 10) 1 2 3 4 5 6 Sample.loggedIn
              eq_refl eq_refl) as (Hchats & Hmsgs & _).
  split; [exact Hchats | exact Hmsgs].
Defined.

Lemma onMessage_existing_chat_witness :
  let s1 := onMessage "alice" (Sample.fromBob "b2" 20) 1 2 3 Sample.loggedIn in
  let s2 := onMessage "alice" (Sample.fromBob "b1" 10) 4 5 6 s1 in
  chat_id <$> chats s2 = chat_id <$> chats s1 /\ peers s2 = peers s1.
Proof.
  intros s1 s2.
  assert (Hfound : exists chat,
    Array_find (isDirectChatOf "alice" "bob") (chats s1) = Some chat).
  { vm_compute. by eexists. }
  destruct Hfound as (chat & Hfound).
  destruct (onMessage_existing_chat "alice" (Sample.fromBob "b1" 10) 4 5 6
              chat s1 Hfound) as (Hchats & Hpeers & _).
  split; [exact Hchats | exact Hpeers].
Defined.

(** The records that first contact leaves: the new chat is the last of
    the list, with the sender as creator, the message as last message and
    an unread count of 1, or 0 when the chat id is already the active one;
    an unknown sender gets a peer record that is marked online, a known
    sender's record is not touched; the selection does not move. *)
Theorem onMessage_first_contact_records (selfId : string) (incoming : Message)
    (createdAt lastActivity lastSeen : Z) (s : ChatState) :
  Array_find (isDirectChatOf selfId (msg_sender incoming)) (chats s) = None ->
  let s' := onMessage selfId incoming createdAt lastActivity lastSeen s in
  let chatId := directChatId selfId (msg_sender incoming) in
  last (chats s')
  = Some {| chat_id := chatId;
            chat_type := Direct;
            chat_participants := [selfId; msg_sender incoming];
            chat_createdBy := msg_sender incoming;
            chat_createdAt := createdAt;
            chat_lastMessage := Some incoming;
            chat_lastActivity := msg_timestamp incoming;
            chat_unreadCount :=
              if bool_decide (Some chatId = activeChat s) then 0 else 1;
            chat_isPinned := false;
            chat_isMuted := false;
            chat_isArchived := false |}
  /\ peers s'
     = match usePeerByPublicKey (msg_sender incoming) s with
       | Some _ => peers s
       | None =>
           peers s ++ [{| peer_publicKey := msg_sender incoming;
                          peer_username := Some (msg_senderUsername incoming);
                          peer_nickname := None;
                          peer_lastSeen := lastSeen;
                          peer_messageCount := 0;
                          peer_isOnline := Some (Some true);
                          peer_status := Some (Some Online) |}]
       end
  /\ activeChat s' = activeChat s.
Proof.
  intros Hnone s' chatId. subst s' chatId. unfold onMessage, usePeerByPublicKey.
  rewrite Hnone. cbv zeta. cbn [chat_id].
  destruct (Array_find _ (peers s)) as [known|] eqn:Hpeer.
  - split; [|done]. unfold addMessage, addChat. simpl.
    rewrite fmap_app, fmap_cons, fmap_nil, last_snoc. simpl.
    rewrite bool_decide_eq_true_2 by done. done.
  - apply find_None_Forall, findIndex_not_found in Hpeer.
    unfold addPeer. cbn [peers addChat set_messages set_chats peer_publicKey].
    rewrite Hpeer. split; [|done]. unfold addMessage. simpl.
    rewrite fmap_app, fmap_cons, fmap_nil, last_snoc. simpl.
    rewrite bool_decide_eq_true_2 by done. done.
Qed.

Lemma onMessage_first_contact_records_witness :
  let s' := onMessage "alice" Sample.fromMallory 1 2 3 Sample.loggedIn in
  (chat_unreadCount <$> last (chats s')) = Some 1
  /\ (peer_isOnline <$> peers s') = [Some (Some true)].
Proof.
  intros s'.
  destruct (onMessage_first_contact_records "alice" Sample.fromMallory 1 2 3
              Sample.loggedIn eq_refl) as (Hlast & Hpeers & _).
  fold s' in Hlast, Hpeers. rewrite Hlast, Hpeers. by vm_compute.
Defined.

(** [removeChat(chatId)] leaves no chat with the id, no message list under
    it and no selection of it, and it undoes [addChat] of a chat whose id
    was not in use. *)
Theorem removeChat_removes_everything (chat : Chat) (chatId : string)
    (s : ChatState) :
  let s' := removeChat chatId s in
  Forall (fun c => chat_id c <> chatId) (chats s')
  /\ messages s' !! chatId = None
  /\ activeChat s' <> Some chatId
  /\ (Forall (fun c => chat_id c <> chat_id chat) (chats s) ->
      messages s !! chat_id chat = None ->
      activeChat s <> Some (chat_id chat) ->
      removeChat (chat_id chat) (addChat chat s) = s).
Proof.
  intros s'. subst s'. unfold removeChat. simpl.
  split; [|split; [|split]].
  - apply Forall_forall. intros c Hc. by apply list_elem_of_filter in Hc as [? _].
  - apply lookup_delete_eq.
  - case_bool_decide; [done|]. done.
  - intros Hfresh Hmsgs Hactive.
    rewrite bool_decide_eq_false_2 by done.
    rewrite delete_insert_eq, delete_id by done.
    rewrite filter_app, filter_cons_False, filter_nil, app_nil_r
      by (intros Hne; by apply Hne).
    assert (Hfilter : filter (fun c => chat_id c <> chat_id chat) (chats s) = chats s).
    { clear -Hfresh. induction Hfresh as [|c l Hc _ IH]; [done|].
      by rewrite filter_cons_True, IH. }
    rewrite Hfilter. by destruct s.
Qed.

Lemma removeChat_removes_everything_witness :
  removeChat "g1"
    (addChat (mkChat "g1" Group ["alice"; "bob"] "alice" 1 None 1 0 false false false)
       Sample.withChat) = Sample.withChat.
Proof.
  refine (proj2 (proj2 (proj2 (removeChat_removes_everything
            (mkChat "g1" Group ["alice"; "bob"] "alice" 1 None 1 0 false false false)
            "g1" Sample.withChat))) _ _ _).
  - by vm_compute.
  - by vm_compute.
  - by vm_compute.
Defined.

(** ** Unread counts *)

Lemma unread_foldl (l : list Chat) (a : Z) :
  foldl (fun total chat => total + chat_unreadCount chat) a l
  = a + foldl (fun total chat => total + chat_unreadCount chat) 0 l.
Proof.
  revert a. induction l as [|c l IH]; intros a; simpl; [lia|].
  rewrite IH, (IH (0 + _)). lia.
Qed.

(** With one chat per id, [addMessage] changes the total of unread
    messages by exactly one step: it adds 1 when the chat exists and is
    not the active one, it takes the chat's count off when the chat is the
    active one, and it leaves the total alone when no chat has the id. *)
Theorem addMessage_unread_total (chatId : string) (message : Message)
    (s : ChatState) :
  NoDup (chat_id <$> chats s) ->
  useUnreadCount (addMessage chatId message s)
  = match Array_find (fun c => bool_decide (chat_id c = chatId)) (chats s) with
    | None => useUnreadCount s
    | Some chat =>
        if bool_decide (Some chatId = activeChat s)
        then useUnreadCount s - chat_unreadCount chat
        else useUnreadCount s + 1
    end.
Proof.
  unfold useUnreadCount, addMessage, Array_find. simpl.
  generalize (activeChat s). intros active.
  induction (chats s) as [|c l IH]; intros Hnodup; [done|].
  rewrite fmap_cons in Hnodup. apply NoDup_cons in Hnodup as [Hc Hl].
  assert (Hrest : forall l' : list Chat, chatId ∉ chat_id <$> l' ->
    (fun chat => if bool_decide (chat_id chat = chatId) then
        {| chat_id := chat_id chat; chat_type := chat_type chat;
           chat_participants := chat_participants chat;
           chat_createdBy := chat_createdBy chat;
           chat_createdAt := chat_createdAt chat;
           chat_lastMessage := Some message;
           chat_lastActivity := msg_timestamp message;
           chat_unreadCount :=
             if bool_decide (Some (chat_id chat) = active)
             then 0 else chat_unreadCount chat + 1;
           chat_isPinned := chat_isPinned chat;
           chat_isMuted := chat_isMuted chat;
           chat_isArchived := chat_isArchived chat |}
      else chat) <$> l' = l').
  { clear. induction l' as [|x l' IH']; intros Hnot; [done|].
    rewrite fmap_cons in Hnot. apply not_elem_of_cons in Hnot as [Hx Hl'].
    rewrite fmap_cons, IH' by done. f_equal.
    by rewrite bool_decide_eq_false_2. }
  rewrite fmap_cons. cbn [foldl find].
  destruct (decide (chat_id c = chatId)) as [Hid|Hid].
  - rewrite !(bool_decide_eq_true_2 _ Hid).
    rewrite Hrest by (by rewrite <- Hid).
    rewrite !(unread_foldl _ (0 + _)). cbn [chat_unreadCount]. rewrite Hid.
    destruct (bool_decide (Some chatId = active)); lia.
  - rewrite !(bool_decide_eq_false_2 _ Hid).
    rewrite (unread_foldl _ (0 + _)), IH by done.
    rewrite (unread_foldl l (0 + _)).
    destruct (find _ l); [|lia].
    destruct (bool_decide (Some chatId = active)); lia.
Qed.

Lemma addMessage_unread_total_witness :
  let s := onMessage "alice" Sample.fromMallory 1 2 3 Sample.withChat in
  useUnreadCount s = 1
  /\ useUnreadCount (addMessage "direct_alice_mallory" (Sample.fromBob "x" 5) s) = 2.
Proof.
  intros s. split; [by vm_compute|].
  rewrite (addMessage_unread_total "direct_alice_mallory" (Sample.fromBob "x" 5) s).
  - by vm_compute.
  - apply NoDup_singleton.
Defined.

(** ** Explicit chat creation *)

Lemma createDirectChat_new_state (publicKey peerPublicKey : string)
    (peerUsername : option string) (createdAt lastActivity lastSeen : Z)
    (s : ChatState) :
  Array_find
    (fun chat => bool_decide (chat_id chat = directChatId publicKey peerPublicKey)
                 || isDirectChatOf peerPublicKey publicKey chat)
    (chats s) = None ->
  let r := App.createDirectChat publicKey peerPublicKey peerUsername
             createdAt lastActivity lastSeen s in
  exists newChat,
    chats r.2 = chats s ++ [newChat]
    /\ chat_id newChat = directChatId publicKey peerPublicKey
    /\ chat_type newChat = Direct
    /\ chat_participants newChat = [publicKey; peerPublicKey]
    /\ chat_unreadCount newChat = 0
    /\ r.1 = directChatId publicKey peerPublicKey
    /\ activeChat r.2 = Some (directChatId publicKey peerPublicKey)
    /\ messages r.2 !! directChatId publicKey peerPublicKey = Some [].
Proof.
  intros Hnone r. subst r. unfold App.createDirectChat. rewrite Hnone.
  cbv zeta. eexists. split.
  { destruct (Array_find _ (peers s)); [reflexivity|].
    unfold addPeer.
    cbn [peers addChat set_messages set_chats setActiveChat set_activeChat].
    destruct (Array_findIndex _ _); reflexivity. }
  repeat split.
  - destruct (Array_find _ (peers s)); [done|].
    unfold addPeer.
    cbn [peers addChat set_messages set_chats setActiveChat set_activeChat].
    by destruct (Array_findIndex _ _).
  - destruct (Array_find _ (peers s)).
    + simpl. by rewrite lookup_insert_eq.
    + unfold addPeer.
      cbn [peers addChat set_messages set_chats setActiveChat set_activeChat].
      destruct (Array_findIndex _ _); simpl; by rewrite lookup_insert_eq.
Qed.

(** Calling [createDirectChat] again for the same peer creates nothing:
    it returns the id of the chat made by the first call, leaves the chats
    and the peers as they are and selects that chat. *)
Theorem createDirectChat_twice (publicKey peerPublicKey : string)
    (username1 username2 : option string) (t1 t2 t3 t4 t5 t6 : Z)
    (s : ChatState) :
  Array_find
    (fun chat => bool_decide (chat_id chat = directChatId publicKey peerPublicKey)
                 || isDirectChatOf peerPublicKey publicKey chat)
    (chats s) = None ->
  let r1 := App.createDirectChat publicKey peerPublicKey username1 t1 t2 t3 s in
  let r2 := App.createDirectChat publicKey peerPublicKey username2 t4 t5 t6 r1.2 in
  r2.1 = r1.1
  /\ chats r2.2 = chats r1.2
  /\ peers r2.2 = peers r1.2
  /\ messages r2.2 = messages r1.2
  /\ activeChat r2.2 = Some r1.1.
Proof.
  intros Hnone r1 r2.
  destruct (createDirectChat_new_state publicKey peerPublicKey username1
              t1 t2 t3 s Hnone)
    as (newChat & Hchats & Hid & Hty & Hpart & _ & Hr1 & _ & _).
  fold r1 in Hchats, Hr1.
  assert (Hr2 : r2 = (chat_id newChat, setActiveChat (Some (chat_id newChat)) r1.2)).
  { subst r2. unfold App.createDirectChat. rewrite Hchats.
    rewrite (find_app_not_found _ _ newChat); [done| |].
    - by apply find_None_Forall.
    - rewrite Hid. by rewrite bool_decide_eq_true_2. }
  rewrite Hr2, Hid, Hr1. done.
Qed.

Lemma createDirectChat_twice_witness :
  let r1 := App.createDirectChat "alice" "bob" (Some "Bob") 1 2 3 Sample.loggedIn in
  let r2 := App.createDirectChat "alice" "bob" None 4 5 6 r1.2 in
  r2.1 = "direct_alice_bob" /\ length (chats r2.2) = 1%nat.
Proof.
  intros r1 r2.
  destruct (createDirectChat_twice "alice" "bob" (Some "Bob") None 1 2 3 4 5 6
              Sample.loggedIn eq_refl) as (Hid & Hchats & _).
  fold r1 r2 in Hid, Hchats. rewrite Hid, Hchats. by vm_compute.
Defined.

(** After [createDirectChat], a message from that peer goes to the created
    chat: no second chat and no peer is added, and since the created chat
    is the active one its unread count stays 0. *)
Theorem inbound_after_createDirectChat (publicKey peerPublicKey : string)
    (peerUsername : option string) (incoming : Message)
    (t1 t2 t3 t4 t5 t6 : Z) (s : ChatState) :
  msg_sender incoming = peerPublicKey ->
  Array_find
    (fun chat => bool_decide (chat_id chat = directChatId publicKey peerPublicKey)
                 || isDirectChatOf peerPublicKey publicKey chat)
    (chats s) = None ->
  let r := App.createDirectChat publicKey peerPublicKey peerUsername t1 t2 t3 s in
  let s' := onMessage publicKey incoming t4 t5 t6 r.2 in
  chat_id <$> chats s' = (chat_id <$> chats s) ++ [r.1]
  /\ peers s' = peers r.2
  /\ chatMessages r.1 s' = [incoming]
  /\ (chat_unreadCount <$> last (chats s')) = Some 0.
Proof.
  intros Hsender Hnone r s'.
  destruct (createDirectChat_new_state publicKey peerPublicKey peerUsername
              t1 t2 t3 s Hnone)
    as (newChat & Hchats & Hid & Hty & Hpart & Hunread & Hr1 & Hactive & Hmsgs).
  fold r in Hchats, Hr1, Hactive, Hmsgs.
  assert (Hfound : Array_find (isDirectChatOf publicKey (msg_sender incoming))
                     (chats r.2) = Some newChat).
  { rewrite Hchats, Hsender. apply find_app_not_found.
    - apply find_None_Forall in Hnone.
      eapply Forall_impl; [exact Hnone|]. simpl. intros c Hc.
      apply orb_false_iff in Hc as [_ Hc]. by rewrite isDirectChatOf_comm.
    - by apply isDirectChatOf_new. }
  subst s'. unfold onMessage. rewrite Hfound, Hid, <- Hr1.
  split; [|split; [done|split]].
  - rewrite chat_ids_addMessage, Hchats, fmap_app. simpl.
    by rewrite Hid, Hr1.
  - rewrite chatMessages_addMessage. unfold chatMessages.
    rewrite Hr1, Hmsgs. done.
  - unfold addMessage. simpl. rewrite Hchats.
    rewrite fmap_app, fmap_cons, fmap_nil, last_snoc. simpl.
    rewrite Hid, Hr1, Hactive. by rewrite !bool_decide_eq_true_2.
Qed.

Lemma inbound_after_createDirectChat_witness :
  let r := App.createDirectChat "alice" "bob" (Some "Bob") 1 2 3 Sample.loggedIn in
  let s' := onMessage "alice" (Sample.fromBob "b1" 10) 4 5 6 r.2 in
  chatMessages "direct_alice_bob" s' = [Sample.fromBob "b1" 10]
  /\ (chat_unreadCount <$> last (chats s')) = Some 0.
Proof.
  intros r s'.
  destruct (inbound_after_createDirectChat "alice" "bob" (Some "Bob")
              (Sample.fromBob "b1" 10) 1 2 3 4 5 6 Sample.loggedIn
              eq_refl eq_refl) as (_ & _ & Hmsgs & Hunread).
  split; [exact Hmsgs | exact Hunread].
Defined.

(** The details shown for the chat that [createDirectChat] has just made
    name that chat and, as the recipient of what is typed, the peer; for a
    chat with oneself there is no recipient. *)
Theorem details_after_createDirectChat (publicKey peerPublicKey : string)
    (peerUsername : option string) (t1 t2 t3 : Z) (s : ChatState) :
  Array_find
    (fun chat => bool_decide (chat_id chat = directChatId publicKey peerPublicKey)
                 || isDirectChatOf peerPublicKey publicKey chat)
    (chats s) = None ->
  let r := App.createDirectChat publicKey peerPublicKey peerUsername t1 t2 t3 s in
  exists details,
    AppView.getActiveChatDetails publicKey r.2 = Some details
    /\ AppView.details_id details = r.1
    /\ AppView.details_recipientId details
       = (if bool_decide (peerPublicKey = publicKey) then None
          else Some peerPublicKey).
Proof.
  intros Hnone r.
  destruct (createDirectChat_new_state publicKey peerPublicKey peerUsername
              t1 t2 t3 s Hnone)
    as (newChat & Hchats & Hid & Hty & Hpart & _ & Hr1 & Hactive & _).
  fold r in Hchats, Hr1, Hactive.
  unfold AppView.getActiveChatDetails. rewrite Hactive, Hchats.
  rewrite (find_app_not_found _ _ newChat).
  - rewrite Hty, bool_decide_eq_true_2 by done.
    eexists. split; [reflexivity|]. simpl. split; [congruence|].
    rewrite Hpart. unfold Array_find. simpl.
    rewrite (bool_decide_eq_false_2 (publicKey <> publicKey)) by tauto.
    case_bool_decide as Heq.
    + by rewrite bool_decide_eq_false_2 by tauto.
    + by rewrite bool_decide_eq_true_2.
  - apply find_None_Forall in Hnone.
    eapply Forall_impl; [exact Hnone|]. simpl. intros c Hc.
    by apply orb_false_iff in Hc as [Hc _].
  - by rewrite bool_decide_eq_true_2.
Qed.

Lemma details_after_createDirectChat_witness :
  let r := App.createDirectChat "alice" "bob" (Some "Bob") 1 2 3 Sample.loggedIn in
  (AppView.details_recipientId <$> AppView.getActiveChatDetails "alice" r.2)
  = Some (Some "bob").
Proof.
  intros r.
  destruct (details_after_createDirectChat "alice" "bob" (Some "Bob") 1 2 3
              Sample.loggedIn eq_refl) as (details & Hdetails & _ & Hrecipient).
  fold r in Hdetails. rewrite Hdetails. simpl. by rewrite Hrecipient.
Defined.

(** ** Sending, end to end *)

Section SendingPaths.
Context {P : Primitives}.

(** When no key is cached and the object of [encryptionKeys] is frozen,
    the write of the placeholder throws before anything is encrypted. *)
Lemma begin_frozen (chatId content recipientKey : string) (nonce : bytes)
    (secureId : string) (now : Z) (user : UserProfile) (state : ChatState) :
  currentUser state = Some user ->
  getSharedKey recipientKey state = None ->
  encryptionKeysFrozen state = true ->
  sendEncryptedMessage_begin chatId content recipientKey nonce secureId now state
  = (setSendingMessage false (setSendingMessage true state),
     Throw (frozenWriteError recipientKey)).
Proof.
  intros Huser Hkey Hfrozen.
  unfold sendEncryptedMessage_begin, getSharedKey in *. rewrite Huser.
  cbn [encryptionKeys encryptionKeysFrozen setSendingMessage set_loading].
  by rewrite Hkey, Hfrozen.
Qed.

(** The key [sendEncryptedMessage] encrypts with. *)
Lemma begin_unfold (chatId content recipientKey : string) (nonce : bytes)
    (secureId : string) (now : Z) (user : UserProfile) (state : ChatState) :
  currentUser state = Some user ->
  (getSharedKey recipientKey state = None ->
   encryptionKeysFrozen state = false) ->
  let key := or_else (getSharedKey recipientKey state) mockKey in
  let s2 := set_encryptionKeys (<[recipientKey := key]> (encryptionKeys state))
              (setSendingMessage true state) in
  sendEncryptedMessage_begin chatId content recipientKey nonce secureId now state
  = match encryptWithSharedSecret content key nonce with
    | Throw e => (setSendingMessage false s2, Throw e)
    | Ret encryptedData =>
        let message :=
          {| msg_id := secureId;
             msg_sender := user_publicKey user;
             msg_senderUsername := Some (user_username user);
             msg_recipient := recipientKey;
             msg_content := content;
             msg_encrypted := Some (encrypted encryptedData);
             msg_nonce := AdvancedCrypto.nonce encryptedData;
             msg_timestamp := now;
             msg_status := Sending;
             msg_messageType := TText |} in
        (addMessage chatId message s2, Ret message)
    end.
Proof.
  intros Huser Hwrite key s2. subst key s2.
  unfold sendEncryptedMessage_begin, getSharedKey in *. rewrite Huser.
  cbn [encryptionKeys encryptionKeysFrozen setSendingMessage set_loading].
  destruct (encryptionKeys state !! recipientKey) as [key|] eqn:Hkey; simpl.
  - rewrite (insert_id _ _ _ Hkey).
    assert (Hs : set_encryptionKeys (encryptionKeys state)
                   (setSendingMessage true state) = setSendingMessage true state)
      by (by destruct state).
    by rewrite Hs.
  - by rewrite (Hwrite eq_refl).
Qed.

(** The ways [sendEncryptedMessage] fails before anything is sent: without
    a current user it rejects with "No current user" and leaves the store
    as it is; when no key is cached and the object of [encryptionKeys] is
    frozen it rejects with the [TypeError] of the write into that object;
    when the encryption would throw it rejects with that error, unless the
    write has thrown before; in both cases it appends nothing and changes
    no chat; and whenever there is a user, the sending flag is off again at
    the end, whatever the outcome. *)
Theorem sendEncryptedMessage_error_paths (chatId content recipientKey : string)
    (nonce : bytes) (secureId : string) (now : Z) (transport : result string)
    (state : ChatState) :
  let r := sendEncryptedMessage chatId content recipientKey nonce secureId now
             transport state in
  (currentUser state = None -> r = (state, Throw "No current user"))
  /\ (is_Some (currentUser state) ->
      loading_sendingMessage (loading r.1) = false)
  /\ (forall e,
        is_Some (currentUser state) ->
        encryptWithSharedSecret content
          (or_else (getSharedKey recipientKey state) mockKey) nonce = Throw e ->
        r.2 = Throw (match getSharedKey recipientKey state with
                     | Some _ => e
                     | None => if encryptionKeysFrozen state
                               then frozenWriteError recipientKey else e
                     end)
        /\ messages r.1 = messages state
        /\ chats r.1 = chats state)
  /\ (is_Some (currentUser state) ->
      getSharedKey recipientKey state = None ->
      encryptionKeysFrozen state = true ->
      r.2 = Throw (frozenWriteError recipientKey)
      /\ messages r.1 = messages state
      /\ chats r.1 = chats state
      /\ encryptionKeys r.1 = encryptionKeys state).
Proof.
  intros r. subst r. unfold sendEncryptedMessage.
  assert (Hfrozen : is_Some (currentUser state) ->
    getSharedKey recipientKey state = None ->
    encryptionKeysFrozen state = true ->
    (let (s, o) := sendEncryptedMessage_begin chatId content recipientKey nonce
                     secureId now state in
     match o with
     | Ret message => sendEncryptedMessage_settle chatId message transport s
     | Throw e => (s, Throw e)
     end)
    = (setSendingMessage false (setSendingMessage true state),
       Throw (frozenWriteError recipientKey))).
  { intros [user Huser] Hkey Hf.
    by rewrite (begin_frozen _ _ _ _ _ _ user) by done. }
  split; [|split; [|split]].
  - intros Hnone. unfold sendEncryptedMessage_begin. by rewrite Hnone.
  - intros [user Huser].
    destruct (getSharedKey recipientKey state) as [key|] eqn:Hkey;
      [|destruct (encryptionKeysFrozen state) eqn:Hf].
    + rewrite (begin_unfold _ _ _ _ _ _ user) by (done || by rewrite Hkey).
      cbv zeta. destruct (encryptWithSharedSecret _ _ _); [|done].
      by destruct transport.
    + rewrite Hfrozen; [done | by eexists | done..].
    + rewrite (begin_unfold _ _ _ _ _ _ user) by done.
      cbv zeta. destruct (encryptWithSharedSecret _ _ _); [|done].
      by destruct transport.
  - intros e [user Huser] Hthrow.
    destruct (getSharedKey recipientKey state) as [key|] eqn:Hkey;
      [|destruct (encryptionKeysFrozen state) eqn:Hf].
    + rewrite (begin_unfold _ _ _ _ _ _ user) by (done || by rewrite Hkey).
      cbv zeta. rewrite Hkey. by rewrite Hthrow.
    + rewrite Hfrozen; [done | by eexists | done..].
    + rewrite (begin_unfold _ _ _ _ _ _ user) by done.
      cbv zeta. rewrite Hkey. by rewrite Hthrow.
  - intros Huser Hkey Hf. by rewrite Hfrozen.
Qed.

End SendingPaths.

Lemma sendEncryptedMessage_error_paths_witness :
  let state := generateSharedKey "bob" [] [Byte.x01; Byte.x02] Sample.loggedIn in
  let r := sendEncryptedMessage (P := Reference.primitives) "direct_alice_bob"
             "hi" "bob" Sample.nonce24 "id1" 7 (Ret "t1") state in
  r.2 = Throw "bad key size"
  /\ messages r.1 = messages state
  /\ loading_sendingMessage (loading r.1) = false
  /\ sendEncryptedMessage (P := Reference.primitives) "direct_alice_bob"
       "hi" "bob" Sample.nonce24 "id1" 7 (Ret "t1") initial
     = (initial, Throw "No current user").
Proof.
  intros state r.
  destruct (sendEncryptedMessage_error_paths (P := Reference.primitives)
              "direct_alice_bob" "hi" "bob" Sample.nonce24 "id1" 7 (Ret "t1")
              state) as (_ & Hflag & Hthrow & _).
  destruct (Hthrow "bad key size") as (Hout & Hmsgs & _);
    [by eexists | reflexivity |].
  split; [exact Hout|]. split; [exact Hmsgs|]. split.
  - apply Hflag. by eexists.
  - exact (proj1 (sendEncryptedMessage_error_paths (P := Reference.primitives)
                    "direct_alice_bob" "hi" "bob" Sample.nonce24 "id1" 7
                    (Ret "t1") initial) eq_refl).
Defined.

Section SendingEndToEnd.
Context {P : Primitives} {HP : PrimitivesSpec P}.

Lemma begin_returns (chatId content recipientKey : string) (nonce : bytes)
    (secureId : string) (now : Z) (user : UserProfile) (state : ChatState) :
  currentUser state = Some user ->
  length nonce = secretbox_nonceLength ->
  (forall key, encryptionKeys state !! recipientKey = Some key ->
               length key = secretbox_keyLength) ->
  (encryptionKeys state !! recipientKey = None ->
   encryptionKeysFrozen state = false) ->
  let key := or_else (getSharedKey recipientKey state) mockKey in
  exists c,
    secretbox_open c nonce key = Ret (Some (encodeUTF8 content))
    /\ sendEncryptedMessage_begin chatId content recipientKey nonce secureId now
         state
       = (addMessage chatId
            {| msg_id := secureId;
               msg_sender := user_publicKey user;
               msg_senderUsername := Some (user_username user);
               msg_recipient := recipientKey;
               msg_content := content;
               msg_encrypted := Some (encodeBase58 c);
               msg_nonce := encodeBase58 nonce;
               msg_timestamp := now;
               msg_status := Sending;
               msg_messageType := TText |}
            (set_encryptionKeys (<[recipientKey := key]> (encryptionKeys state))
               (setSendingMessage true state)),
          Ret {| msg_id := secureId;
                 msg_sender := user_publicKey user;
                 msg_senderUsername := Some (user_username user);
                 msg_recipient := recipientKey;
                 msg_content := content;
                 msg_encrypted := Some (encodeBase58 c);
                 msg_nonce := encodeBase58 nonce;
                 msg_timestamp := now;
                 msg_status := Sending;
                 msg_messageType := TText |}).
Proof.
  intros Huser Hnonce Hkey Hwrite key.
  assert (Hlen : length key = secretbox_keyLength).
  { subst key. unfold getSharedKey.
    destruct (encryptionKeys state !! recipientKey) as [k|] eqn:Hk; simpl.
    - by apply Hkey.
    - done. }
  destruct (encryptWithSharedSecret_returns content key nonce Hlen Hnonce)
    as (c & _ & Hopen & Henc).
  exists c. split; [done|].
  rewrite (begin_unfold _ _ _ _ _ _ user) by done. cbv zeta.
  fold key. by rewrite Henc.
Qed.

(** When the key step of the send succeeds (a key is cached for the
    recipient, or the object of [encryptionKeys] is not frozen and takes
    the placeholder), the ciphertext kept with the sent message decrypts,
    under the key that the store caches for the recipient, to the content
    kept beside it. *)
Theorem stored_ciphertext_decrypts (chatId content recipientKey : string)
    (nonce : bytes) (secureId : string) (now : Z) (user : UserProfile)
    (state : ChatState) :
  currentUser state = Some user ->
  length nonce = secretbox_nonceLength ->
  (forall key, encryptionKeys state !! recipientKey = Some key ->
               length key = secretbox_keyLength) ->
  (encryptionKeys state !! recipientKey = None ->
   encryptionKeysFrozen state = false) ->
  exists (message : Message) (atAwait : ChatState) (key : bytes)
         (ciphertext : string),
    sendEncryptedMessage_begin chatId content recipientKey nonce secureId now
      state = (atAwait, Ret message)
    /\ getSharedKey recipientKey atAwait = Some key
    /\ msg_content message = content
    /\ msg_encrypted message = Some ciphertext
    /\ decryptWithSharedSecret
         {| encrypted := ciphertext;
            AdvancedCrypto.nonce := msg_nonce message;
            ephemeralPublicKey := None;
            signature := None;
            algorithm := NaclSecretbox;
            version := VERSION |} key
       = Ret (Some content).
Proof.
  intros Huser Hnonce Hkey Hwrite.
  destruct (begin_returns chatId content recipientKey nonce secureId now user
              state Huser Hnonce Hkey Hwrite) as (c & Hopen & Hbegin).
  eexists _, _, _, _. split; [exact Hbegin|].
  split; [|split; [reflexivity|split; [reflexivity|]]].
  - unfold getSharedKey. simpl. apply lookup_insert_eq.
  - simpl. by apply decrypt_of_encrypted.
Qed.

(** The whole send with its transport, when the key step of the send
    succeeds (a key is cached for the recipient, or the object of
    [encryptionKeys] is not frozen).  The call resolves and the stored
    message has status [Sent] both when the envelope was emitted and when
    the transport was offline and only queued it; exactly one envelope is
    emitted or queued; and that envelope carries the content as it was
    typed and the id drawn by the transport. *)
Theorem send_through_transport (chatId content recipientKey : string)
    (nonce : bytes) (secureId : string) (now : Z)
    (messageId : string) (now1 now2 : Z)
    (user : UserProfile) (state : ChatState) (rs : Realtime.RealtimeService) :
  currentUser state = Some user ->
  length nonce = secretbox_nonceLength ->
  (forall key, encryptionKeys state !! recipientKey = Some key ->
               length key = secretbox_keyLength) ->
  (encryptionKeys state !! recipientKey = None ->
   encryptionKeysFrozen state = false) ->
  let r := sendEncryptedMessageVia chatId content recipientKey nonce secureId
             now messageId now1 now2 (state, rs) in
  exists envelope : Realtime.RealtimeMessage,
    r.2 = Ret tt
    /\ Forall (fun m => msg_id m = secureId -> msg_status m = Sent)
         (chatMessages chatId r.1.1)
    /\ secureId ∈ msg_id <$> chatMessages chatId r.1.1
    /\ Realtime.rm_id envelope = messageId
    /\ Realtime.data_content (Realtime.rm_data envelope) = content
    /\ Realtime.rm_to envelope = recipientKey
    /\ (if Realtime.isConnected rs
        then Realtime.emittedLog r.1.2
             = Realtime.emittedLog rs ++ [Realtime.EmitMessage envelope]
             /\ Realtime.messageQueue r.1.2 = Realtime.messageQueue rs
        else Realtime.messageQueue r.1.2
             = Realtime.messageQueue rs ++ [envelope]
             /\ Realtime.emittedLog r.1.2 = Realtime.emittedLog rs).
Proof.
  intros Huser Hnonce Hkey Hwrite r.
  destruct (begin_returns chatId content recipientKey nonce secureId now user
              state Huser Hnonce Hkey Hwrite) as (c & _ & Hbegin).
  subst r. unfold sendEncryptedMessageVia. rewrite Huser, Hbegin.
  unfold Realtime.sendMessage.
  set (request := Realtime.mkSendRequest _ _ _ _ _ _ _ _).
  exists (Realtime.envelope (Realtime.currentUser rs) request).
  set (message := mkMessage _ _ _ _ _ _ _ _ _ _).
  set (s2 := set_encryptionKeys _ _).
  pose proof (elem_of_addMessage chatId message s2) as Hin.
  destruct (settle_acknowledged chatId message messageId
              (addMessage chatId message s2) Hin) as (Hout & Hsent & Hall).
  assert (Hstore :
    Forall (fun m => msg_id m = secureId -> msg_status m = Sent)
      (chatMessages chatId
         (sendEncryptedMessage_settle chatId message (Ret messageId)
            (addMessage chatId message s2)).1)
    /\ secureId ∈ msg_id <$> chatMessages chatId
         (sendEncryptedMessage_settle chatId message (Ret messageId)
            (addMessage chatId message s2)).1).
  { split; [exact Hall|]. apply list_elem_of_fmap.
    exists (spread_message message (status_update Sent)). by split. }
  destruct Hstore as [Hstore1 Hstore2].
  destruct (Realtime.isConnected rs) eqn:Hconn; simpl.
  - repeat (split; [done|]). split; [|done].
    unfold Realtime.isConnected in Hconn. unfold Realtime.emittedLog. simpl.
    by destruct (Realtime.socket rs).
  - repeat (split; [done|]). done.
Qed.

End SendingEndToEnd.

Lemma stored_ciphertext_decrypts_witness :
  exists (message : Message) (atAwait : ChatState),
    sendEncryptedMessage_begin (P := Reference.primitives) "direct_alice_bob"
      "hi" "bob" Sample.nonce24 "id1" 7 Sample.loggedIn = (atAwait, Ret message)
    /\ msg_content message = "hi".
Proof.
  destruct (stored_ciphertext_decrypts (P := Reference.primitives)
              (HP := reference_spec) "direct_alice_bob" "hi" "bob"
              Sample.nonce24 "id1" 7 Sample.alice Sample.loggedIn
              eq_refl eq_refl)
    as (message & atAwait & _ & _ & Hbegin & _ & Hcontent & _).
  { intros key Hkey. discriminate Hkey. }
  { intros _. reflexivity. }
  exists message, atAwait. split; [exact Hbegin | exact Hcontent].
Defined.

Lemma send_through_transport_witness :
  let r := sendEncryptedMessageVia (P := Reference.primitives)
             "direct_alice_bob" "hi" "bob" Sample.nonce24 "id1" 7 "t1" 8 9
             (Sample.loggedIn, Sample.offlineService) in
  r.2 = Ret tt
  /\ (msg_status <$> chatMessages "direct_alice_bob" r.1.1) = [Sent]
  /\ length (Realtime.messageQueue r.1.2) = 1%nat.
Proof.
  intros r.
  destruct (send_through_transport (P := Reference.primitives)
              (HP := reference_spec) "direct_alice_bob" "hi" "bob"
              Sample.nonce24 "id1" 7 "t1" 8 9 Sample.alice Sample.loggedIn
              Sample.offlineService eq_refl eq_refl)
    as (envelope & Hout & _).
  { intros key Hkey. discriminate Hkey. }
  { intros _. reflexivity. }
  split; [exact Hout|]. by vm_compute.
Defined.

End StoreActionsFacts.

(* ================================================================== *)
(** * The transport over its lifetime                                  *)
(* ================================================================== *)

Module TransportFacts.

Import Realtime Transport RealtimeFacts.

Lemma scheduleReconnect_fields (rs : RealtimeService) :
  let rs' := (scheduleReconnect rs).1 in
  maxReconnectAttempts rs' = maxReconnectAttempts rs
  /\ messageQueue rs' = messageQueue rs
  /\ socket rs' = socket rs
  /\ (reconnectAttempts rs <= reconnectAttempts rs')%nat
  /\ ((reconnectAttempts rs <= maxReconnectAttempts rs)%nat ->
      (reconnectAttempts rs' <= maxReconnectAttempts rs)%nat)
  /\ (length (timeouts rs') + reconnectAttempts rs
      = length (timeouts rs) + reconnectAttempts rs')%nat.
Proof.
  unfold scheduleReconnect. case_bool_decide; simpl.
  - rewrite length_app. simpl. repeat split; lia.
  - repeat split; lia.
Qed.

Lemma processMessageQueue_fields (rs : RealtimeService) :
  let rs' := processMessageQueue rs in
  maxReconnectAttempts rs' = maxReconnectAttempts rs
  /\ reconnectAttempts rs' = reconnectAttempts rs
  /\ timeouts rs' = timeouts rs
  /\ messageQueue rs' = [].
Proof.
  rewrite processMessageQueue_spec. simpl.
  generalize (EmitMessage <$> messageQueue rs). intros es.
  revert rs. induction es as [|e es IH]; intros rs; [done|].
  unfold emitAll in *. simpl. destruct (IH (emit e rs)) as (H1 & H2 & H3 & _).
  by rewrite H1, H2, H3.
Qed.

Lemma step_budget (e : Event) (rs : RealtimeService) :
  let rs' := step e rs in
  maxReconnectAttempts rs' = maxReconnectAttempts rs
  /\ (reconnectAttempts rs <= reconnectAttempts rs')%nat
  /\ ((reconnectAttempts rs <= maxReconnectAttempts rs)%nat ->
      (reconnectAttempts rs' <= maxReconnectAttempts rs)%nat)
  /\ (length (timeouts rs') + reconnectAttempts rs
      = length (timeouts rs) + reconnectAttempts rs')%nat.
Proof.
  destruct e as [userId [sock|err]|[sock|err]| | | |r|]; simpl;
    try (repeat split; lia).
  - match goal with
    | |- context [scheduleReconnect ?r] =>
        destruct (scheduleReconnect_fields r) as (H1 & _ & _ & H4 & H5 & H6)
    end.
    simpl in *. by repeat split.
  - unfold reconnectTimer, connect.
    match goal with
    | |- context [scheduleReconnect ?r] =>
        destruct (scheduleReconnect_fields r) as (H1 & _ & _ & H4 & H5 & H6)
    end.
    simpl in *. by repeat split.
  - unfold onConnect.
    match goal with
    | |- context [processMessageQueue ?r] =>
        destruct (processMessageQueue_fields r) as (H1 & H2 & H3 & _)
    end.
    simpl in *. rewrite H1, H2, H3. repeat split; lia.
  - unfold sendMessage. destruct (isConnected rs); simpl; repeat split; lia.
  - unfold disconnect.
    destruct (socket rs); simpl; destruct (heartbeatInterval rs); simpl;
      repeat split; lia.
Qed.

(** The reconnect budget is for the life of the service: whatever calls
    and socket events happen, in whatever order, the attempt counter never
    goes down, not even when a connection succeeds, so it stays within the
    maximum and every timer ever set is counted by it.  A service made by
    the constructor sets at most five timers in its life. *)
Theorem reconnect_budget_for_life (es : list Event) (rs : RealtimeService) :
  let rs' := run es rs in
  maxReconnectAttempts rs' = maxReconnectAttempts rs
  /\ (reconnectAttempts rs <= reconnectAttempts rs')%nat
  /\ ((reconnectAttempts rs <= maxReconnectAttempts rs)%nat ->
      (reconnectAttempts rs' <= maxReconnectAttempts rs)%nat)
  /\ (length (timeouts rs') + reconnectAttempts rs
      = length (timeouts rs) + reconnectAttempts rs')%nat
  /\ (length (timeouts (run es Realtime.new)) <= 5)%nat.
Proof.
  assert (Hgen : forall es rs,
    maxReconnectAttempts (run es rs) = maxReconnectAttempts rs
    /\ (reconnectAttempts rs <= reconnectAttempts (run es rs))%nat
    /\ ((reconnectAttempts rs <= maxReconnectAttempts rs)%nat ->
        (reconnectAttempts (run es rs) <= maxReconnectAttempts rs)%nat)
    /\ (length (timeouts (run es rs)) + reconnectAttempts rs
        = length (timeouts rs) + reconnectAttempts (run es rs))%nat).
  { clear. induction es as [|e es IH]; intros rs; [by repeat split|].
    unfold run in *. simpl.
    destruct (step_budget e rs) as (H1 & H2 & H3 & H4).
    destruct (IH (step e rs)) as (I1 & I2 & I3 & I4).
    cbv zeta in *. rewrite H1 in I1, I3. repeat split; lia. }
  intros rs'. subst rs'.
  destruct (Hgen es rs) as (H1 & H2 & H3 & H4).
  repeat (split; [done|]).
  destruct (Hgen es Realtime.new) as (_ & _ & G3 & G4). simpl in *. lia.
Qed.

Lemma reconnect_budget_for_life_witness :
  let es := [Connect "alice" (Throw "refused"); TimerFires (Throw "refused");
             TimerFires (Ret (mkSocket false [])); SocketConnects;
             SocketDisconnects; Connect "alice" (Throw "refused")] in
  reconnectAttempts (run es Realtime.new) = 3%nat
  /\ timeouts (run es Realtime.new) = [2000; 4000; 8000]
  /\ (reconnectAttempts (run es Realtime.new) <= 5)%nat.
Proof.
  intros es. split; [by vm_compute|]. split; [by vm_compute|].
  destruct (reconnect_budget_for_life es Realtime.new) as (_ & _ & Hmax & _).
  apply Hmax. simpl. lia.
Defined.

(** ** Connected means nothing is waiting *)

Lemma step_connected_queue (e : Event) (rs : RealtimeService) :
  freshSockets e ->
  (isConnected rs = true -> messageQueue rs = []) ->
  isConnected (step e rs) = true -> messageQueue (step e rs) = [].
Proof.
  intros Hfresh Hinv.
  destruct e as [userId [sock|err]|[sock|err]| | | |r|]; simpl in *.
  - unfold isConnected. simpl. by rewrite Hfresh.
  - unfold scheduleReconnect. case_bool_decide; simpl; exact Hinv.
  - unfold reconnectTimer, connect. simpl.
    unfold isConnected. simpl. by rewrite Hfresh.
  - unfold reconnectTimer, connect, scheduleReconnect.
    case_bool_decide; simpl; exact Hinv.
  - intros _. unfold onConnect.
    match goal with
    | |- context [processMessageQueue ?r] =>
        by destruct (processMessageQueue_fields r) as (_ & _ & _ & H4)
    end.
  - unfold onDisconnect, isConnected. simpl. by destruct (socket rs).
  - exact Hinv.
  - unfold sendMessage. destruct (isConnected rs) eqn:Hconn; simpl.
    + intros _. by apply Hinv.
    + unfold isConnected in *. simpl. by rewrite Hconn.
  - unfold disconnect, isConnected.
    destruct (socket rs); simpl; destruct (heartbeatInterval rs); simpl; done.
Qed.

(** When sockets come from [io] unconnected, a connected transport has an
    empty queue after any run of calls and events that starts from a
    service with that property: nothing waits behind an open socket. *)
Theorem connected_means_queue_empty (es : list Event) (rs : RealtimeService) :
  Forall freshSockets es ->
  (isConnected rs = true -> messageQueue rs = []) ->
  isConnected (run es rs) = true -> messageQueue (run es rs) = [].
Proof.
  intros Hfresh. revert rs. induction Hfresh as [|e es He _ IH]; intros rs Hinv.
  - exact Hinv.
  - unfold run in *. simpl. apply IH. by apply step_connected_queue.
Qed.

Lemma connected_means_queue_empty_witness :
  let es := [Send (Sample.request "id1" "one" 1);
             Connect "alice" (Ret (mkSocket false []));
             Send (Sample.request "id2" "two" 2); SocketConnects;
             Send (Sample.request "id3" "three" 3)] in
  messageQueue (run es Realtime.new) = []
  /\ (rm_id <$> messageQueue (run (take 3 es) Realtime.new)) = ["id1"; "id2"].
Proof.
  intros es. split; [|by vm_compute].
  apply (connected_means_queue_empty es Realtime.new).
  - repeat constructor.
  - discriminate.
  - by vm_compute.
Defined.

(** ** Disconnecting *)

(** [disconnect()] drops the socket but not the queue: what was waiting
    stays, what is sent afterwards is queued behind it, and the next
    [connect] whose socket opens emits all of it, oldest first, after the
    registration. *)
Theorem disconnect_keeps_queue (rq : list SendRequest) (userId : string)
    (sock : Socket) (rs : RealtimeService) :
  let offline := sendMessages rq (disconnect rs) in
  let online := connectAndOpen userId sock offline in
  isConnected (disconnect rs) = false
  /\ last (statusReports (disconnect rs)) = Some Disconnected
  /\ messageQueue offline = messageQueue rs ++ (envelope (currentUser rs) <$> rq)
  /\ messageQueue online = []
  /\ emittedLog online
     = emitted sock ++ [EmitRegister (Some userId)]
         ++ (EmitMessage <$> messageQueue offline).
Proof.
  intros offline online.
  assert (Hoff : isConnected (disconnect rs) = false).
  { unfold disconnect, isConnected.
    destruct (socket rs) eqn:Hs; simpl; destruct (heartbeatInterval rs); simpl;
      rewrite ?Hs; done. }
  assert (Hq : messageQueue (disconnect rs) = messageQueue rs).
  { unfold disconnect.
    destruct (socket rs); simpl; destruct (heartbeatInterval rs); done. }
  assert (Hu : currentUser (disconnect rs) = currentUser rs).
  { unfold disconnect.
    destruct (socket rs); simpl; destruct (heartbeatInterval rs); done. }
  split; [done|]. split.
  { unfold disconnect.
    destruct (socket rs); simpl; destruct (heartbeatInterval rs); simpl;
      apply last_snoc. }
  split.
  { subst offline. rewrite sendMessages_offline by done.
    cbn [messageQueue set_messageQueue]. by rewrite Hq, Hu. }
  subst online. unfold connectAndOpen.
  destruct (onConnect_spec sock (connect (Some userId) (Ret sock) offline).1
              eq_refl) as (Hempty & _ & Hlog).
  split; [exact Hempty | exact Hlog].
Qed.

End TransportFacts.

(* ================================================================== *)
(** * Key pairs, signatures and key exchange                           *)
(* ================================================================== *)

Module AsymmetricFacts.

Import AdvancedCrypto AsymmetricCrypto CryptoFacts.

Section Decrypt.
Context {N : NaclPrimitives} {P : Primitives}.

(** [decryptWithForwardSecrecy] never throws; it gives [null] for every
    algorithm but nacl-box and for data without an ephemeral key; and the
    signature is checked only when the data carries one and the caller
    names a sender, so data whose signature was taken off is decrypted
    like unsigned data. *)
Theorem decryptWithForwardSecrecy_checks (e : EncryptedData)
    (recipientPrivateKey : bytes) (senderPublicKey : option bytes) :
  (exists r, decryptWithForwardSecrecy e recipientPrivateKey senderPublicKey
             = Ret r)
  /\ (algorithm e <> NaclBox ->
      decryptWithForwardSecrecy e recipientPrivateKey senderPublicKey = Ret None)
  /\ (ephemeralPublicKey e = None ->
      decryptWithForwardSecrecy e recipientPrivateKey senderPublicKey = Ret None)
  /\ decryptWithForwardSecrecy
       {| encrypted := encrypted e;
          AdvancedCrypto.nonce := AdvancedCrypto.nonce e;
          ephemeralPublicKey := ephemeralPublicKey e;
          signature := None;
          algorithm := algorithm e;
          version := version e |} recipientPrivateKey senderPublicKey
     = decryptWithForwardSecrecy e recipientPrivateKey None.
Proof.
  unfold decryptWithForwardSecrecy, try_catch, JS.bind. simpl.
  split; [|split; [|split]].
  - destruct (algorithm e); try by eexists.
    destruct (decodeBase58 (encrypted e)); [|by eexists].
    destruct (decodeBase58 (AdvancedCrypto.nonce e)); [|by eexists].
    destruct (ephemeralPublicKey e) as [k|]; [|by eexists].
    destruct (decodeBase58 k); [|by eexists].
    destruct (box_open _ _ _ _) as [[d|]|]; [|by eexists..].
    destruct (decodeUTF8 d); [|by eexists].
    destruct (present (signature e)) as [sig|]; [|by eexists].
    destruct senderPublicKey as [pk|]; [|by eexists].
    destruct (decodeBase58 sig); [|by eexists].
    destruct (sign_detached_verify _ _ _) as [[]|]; by eexists.
  - intros Halg. by destruct (algorithm e).
  - intros ->. destruct (algorithm e); try done.
    destruct (decodeBase58 (encrypted e)); [|done].
    by destruct (decodeBase58 (AdvancedCrypto.nonce e)).
  - destruct (algorithm e); try done.
    destruct (decodeBase58 (encrypted e)); [|done].
    destruct (decodeBase58 (AdvancedCrypto.nonce e)); [|done].
    destruct (ephemeralPublicKey e) as [k|]; [|done].
    destruct (decodeBase58 k); [|done].
    destruct (box_open _ _ _ _) as [[d|]|]; [|done..].
    destruct (decodeUTF8 d); [|done].
    by destruct (present (signature e)).
Qed.

(** [verifyMessageSignature] never throws. *)
Lemma verifyMessageSignature_returns (message : string)
    (signature : MessageSignature) (publicKey : option bytes) :
  exists r, verifyMessageSignature message signature publicKey = Ret r.
Proof.
  unfold verifyMessageSignature, try_catch, JS.bind.
  destruct (decodeBase58 (sig_signature signature)); [|by eexists].
  destruct publicKey as [pk|].
  - destruct (sign_detached_verify _ _ _); by eexists.
  - destruct (decodeBase58 (sig_publicKey signature)); [|by eexists].
    destruct (sign_detached_verify _ _ _); by eexists.
Qed.

End Decrypt.

Section Laws.
Context {N : NaclPrimitives} {HN : NaclSpec} {P : Primitives}
        {HP : PrimitivesSpec P}.

(** A message encrypted for a recipient with a fresh ephemeral key pair is
    decrypted by the recipient's secret key to the same message, whether
    it was signed or not, and whether the recipient checks the signature
    against the sender's public key or not. *)
Theorem forward_secrecy_roundtrip (message : string)
    (recipientSecret : bytes) (senderPrivateKey : option bytes)
    (ephemeralKeyPair : KeyPair) (nonce : bytes) :
  length nonce = box_nonceLength ->
  length recipientSecret = box_secretKeyLength ->
  length (secretKey ephemeralKeyPair) = box_secretKeyLength ->
  publicKey ephemeralKeyPair = box_publicKey (secretKey ephemeralKeyPair) ->
  (forall privateKey, senderPrivateKey = Some privateKey -> signingKey privateKey) ->
  exists encryptedData,
    encryptWithForwardSecrecy message (box_publicKey recipientSecret)
      senderPrivateKey ephemeralKeyPair nonce = Ret encryptedData
    /\ algorithm encryptedData = NaclBox
    /\ decryptWithForwardSecrecy encryptedData recipientSecret None
       = Ret (Some message)
    /\ decryptWithForwardSecrecy encryptedData recipientSecret
         (drop 32 <$> senderPrivateKey) = Ret (Some message).
Proof.
  intros Hnonce HskR HskE Hpub Hsign.
  destruct (box_open_box (encodeUTF8 message) nonce (secretKey ephemeralKeyPair)
              recipientSecret Hnonce HskE HskR) as (c & Hbox & Hopen).
  unfold encryptWithForwardSecrecy, decryptWithForwardSecrecy.
  rewrite Hbox. cbn [JS.bind try_catch].
  destruct senderPrivateKey as [privateKey|].
  - destruct (verify_sign (hash (encodeUTF8 message)) privateKey (Hsign _ eq_refl))
      as (sig & Hsig & Hverify).
    rewrite Hsig. cbn [JS.bind try_catch].
    eexists. split; [reflexivity|]. split; [reflexivity|].
    cbn [algorithm encrypted AdvancedCrypto.nonce ephemeralPublicKey signature].
    rewrite !base58_decode_encode. cbn [JS.bind]. rewrite Hpub, Hopen.
    cbn [JS.bind]. rewrite utf8_decode_encode. cbn [JS.bind try_catch fmap option_fmap option_map].
    split.
    + by destruct (present _).
    + destruct (present (Some (encodeBase58 sig))) as [s|] eqn:Hs; [|done].
      assert (s = encodeBase58 sig) as ->.
      { unfold present in Hs. destruct (encodeBase58 sig) as [|a t]; [done|].
        congruence. }
      rewrite base58_decode_encode. cbn [JS.bind]. by rewrite Hverify.
  - cbn [JS.bind try_catch].
    eexists. split; [reflexivity|]. split; [reflexivity|].
    cbn [algorithm encrypted AdvancedCrypto.nonce ephemeralPublicKey signature].
    rewrite !base58_decode_encode. cbn [JS.bind]. rewrite Hpub, Hopen.
    cbn [JS.bind]. rewrite utf8_decode_encode. by split.
Qed.

(** A signature made by [signMessage] with a signing key verifies, both
    against the public key it carries and against the signer's public key
    given by the caller; the timestamp beside it is not part of what is
    signed, so it verifies with any other timestamp as well. *)
Theorem sign_verify_roundtrip (message : string) (privateKey : bytes)
    (now other : Z) :
  signingKey privateKey ->
  exists signature,
    signMessage message privateKey now = Ret signature
    /\ sig_timestamp signature = now
    /\ verifyMessageSignature message signature None = Ret true
    /\ verifyMessageSignature message signature (Some (drop 32 privateKey))
       = Ret true
    /\ verifyMessageSignature message
         {| sig_signature := sig_signature signature;
            sig_publicKey := sig_publicKey signature;
            sig_timestamp := other |} None = Ret true.
Proof.
  intros Hkey.
  destruct (verify_sign (hash (encodeUTF8 message)) privateKey Hkey)
    as (sig & Hsig & Hverify).
  unfold signMessage, verifyMessageSignature. rewrite Hsig. cbn [JS.bind].
  eexists. split; [reflexivity|]. split; [reflexivity|].
  cbn [sig_signature sig_publicKey].
  rewrite !base58_decode_encode. cbn [JS.bind]. by rewrite Hverify.
Qed.

(** Two parties who derive their key pairs from seeds and exchange public
    keys compute the same shared secret, and what one encrypts with it the
    other decrypts with it. *)
Theorem key_exchange_end_to_end (seedA seedB message : string) (nonce : bytes) :
  length nonce = secretbox_nonceLength ->
  exists (pairA pairB : KeyPair) (sharedSecret : bytes)
         (encryptedData : EncryptedData),
    generateDeterministicKey seedA = Ret pairA
    /\ generateDeterministicKey seedB = Ret pairB
    /\ performKeyExchange (secretKey pairA) (publicKey pairB) = Ret sharedSecret
    /\ performKeyExchange (secretKey pairB) (publicKey pairA) = Ret sharedSecret
    /\ encryptWithSharedSecret message sharedSecret nonce = Ret encryptedData
    /\ decryptWithSharedSecret encryptedData sharedSecret = Ret (Some message).
Proof.
  intros Hnonce.
  assert (Hlen : forall seed : string,
            length (take 32 (hash (encodeUTF8 seed))) = box_secretKeyLength).
  { intros seed. rewrite length_take, hash_length. done. }
  unfold generateDeterministicKey, performKeyExchange.
  rewrite !fromSecretKey_returns by apply Hlen.
  destruct (box_before_agrees _ _ (Hlen seedA) (Hlen seedB))
    as (k & HkA & HkB & Hk).
  destruct (encryptWithSharedSecret_returns message k nonce Hk Hnonce)
    as (c & _ & Hopen & Henc).
  eexists _, _, k, _. split; [reflexivity|]. split; [reflexivity|].
  cbn [secretKey publicKey].
  split; [exact HkA|]. split; [exact HkB|]. split; [exact Henc|].
  by apply decrypt_of_encrypted.
Qed.

End Laws.

(** ** The reference primitives have the documented properties *)

Import Reference ReferenceNacl.

Lemma xor_byte_comm (a b : Byte.byte) : xor_byte a b = xor_byte b a.
Proof.
  unfold xor_byte. f_equal.
  destruct (Byte.to_bits a) as (a0 & a1 & a2 & a3 & a4 & a5 & a6 & a7).
  destruct (Byte.to_bits b) as (b0 & b1 & b2 & b3 & b4 & b5 & b6 & b7).
  unfold xor_bits.
  by rewrite (xorb_comm a0), (xorb_comm a1), (xorb_comm a2), (xorb_comm a3),
    (xorb_comm a4), (xorb_comm a5), (xorb_comm a6), (xorb_comm a7).
Qed.

Lemma shared_comm (a b : bytes) : shared a b = shared b a.
Proof.
  unfold shared. revert b. induction a as [|x a IH]; intros [|y b]; simpl; try done.
  by rewrite xor_byte_comm, IH.
Qed.

Lemma shared_length (a b : bytes) :
  length a = 32%nat -> length b = 32%nat -> length (shared a b) = 32%nat.
Proof. intros Ha Hb. unfold shared. rewrite length_zip_with, Ha, Hb. done. Qed.

Lemma reference_nacl_spec : NaclSpec (N := ReferenceNacl.primitives).
Proof.
  split; simpl.
  - done.
  - intros sk Hsk. by rewrite bool_decide_eq_true_2.
  - intros m n skA skB Hn HskA HskB. unfold checkKeys.
    rewrite !bool_decide_eq_true_2 by done.
    destruct (secretbox_open_secretbox (PrimitivesSpec := reference_spec)
                m n (shared skB skA)) as (c & Hc & Hopen);
      [by apply shared_length | done |].
    exists c. split; [exact Hc|]. by rewrite shared_comm.
  - intros skA skB HskA HskB. unfold checkKeys.
    rewrite !bool_decide_eq_true_2 by done.
    exists (shared skB skA). split; [done|]. split; [by rewrite shared_comm|].
    by apply shared_length.
  - intros m sk [Hlen Hpub]. rewrite bool_decide_eq_true_2 by done.
    eexists. split; [reflexivity|].
    assert (Hpk : length (drop 32 sk) = 32%nat).
    { rewrite length_drop, Hlen. done. }
    assert (Hmac : length (mac m (drop 32 sk)) = 64%nat).
    { unfold mac. rewrite length_app, length_fmap, Hpk. done. }
    rewrite (bool_decide_eq_true_2 _ Hmac), (bool_decide_eq_true_2 _ Hpk).
    by rewrite bool_decide_eq_true_2.
Qed.

Lemma forward_secrecy_roundtrip_witness :
  exists encryptedData,
    encryptWithForwardSecrecy (N := ReferenceNacl.primitives)
      (P := Reference.primitives) "hi" Sample.key32
      (Some signingSecret) (mkKeyPair Sample.otherKey32 Sample.otherKey32)
      Sample.nonce24 = Ret encryptedData
    /\ decryptWithForwardSecrecy (N := ReferenceNacl.primitives)
         (P := Reference.primitives) encryptedData Sample.key32
         (Some (replicate 32 Byte.x05)) = Ret (Some "hi").
Proof.
  destruct (forward_secrecy_roundtrip (N := ReferenceNacl.primitives)
              (HN := reference_nacl_spec) (P := Reference.primitives)
              (HP := reference_spec) "hi" Sample.key32 (Some signingSecret)
              (mkKeyPair Sample.otherKey32 Sample.otherKey32) Sample.nonce24
              eq_refl eq_refl eq_refl eq_refl)
    as (e & Henc & _ & _ & Hdec).
  { intros privateKey [= <-]. by split. }
  exists e. split; [exact Henc | exact Hdec].
Defined.

Lemma sign_verify_roundtrip_witness :
  exists signature,
    signMessage (N := ReferenceNacl.primitives) (P := Reference.primitives)
      "hi" signingSecret 7 = Ret signature
    /\ verifyMessageSignature (N := ReferenceNacl.primitives)
         (P := Reference.primitives) "hi" signature None = Ret true.
Proof.
  destruct (sign_verify_roundtrip (N := ReferenceNacl.primitives)
              (HN := reference_nacl_spec) (P := Reference.primitives)
              (HP := reference_spec) "hi" signingSecret 7 8)
    as (sig & Hsign & _ & Hverify & _).
  { by split. }
  exists sig. split; [exact Hsign | exact Hverify].
Defined.

Lemma key_exchange_end_to_end_witness :
  exists (pairA pairB : KeyPair) (sharedSecret : bytes),
    generateDeterministicKey (N := ReferenceNacl.primitives)
      (P := Reference.primitives) "seed of alice" = Ret pairA
    /\ generateDeterministicKey (N := ReferenceNacl.primitives)
         (P := Reference.primitives) "seed of bob" = Ret pairB
    /\ performKeyExchange (N := ReferenceNacl.primitives)
         (secretKey pairA) (publicKey pairB) = Ret sharedSecret
    /\ performKeyExchange (N := ReferenceNacl.primitives)
         (secretKey pairB) (publicKey pairA) = Ret sharedSecret.
Proof.
  destruct (key_exchange_end_to_end (N := ReferenceNacl.primitives)
              (HN := reference_nacl_spec) (P := Reference.primitives)
              (HP := reference_spec) "seed of alice" "seed of bob" "hi"
              Sample.nonce24 eq_refl)
    as (pairA & pairB & k & e & HA & HB & HkA & HkB & _).
  exists pairA, pairB, k. repeat split; assumption.
Defined.

Lemma decryptWithForwardSecrecy_checks_witness :
  decryptWithForwardSecrecy (N := ReferenceNacl.primitives)
    (P := Reference.primitives)
    (mkEncryptedData "abc" "def" None None NaclSecretbox "2.0")
    Sample.key32 None = Ret None.
Proof.
  refine (proj1 (proj2 (decryptWithForwardSecrecy_checks
                          (N := ReferenceNacl.primitives)
                          (P := Reference.primitives)
                          (mkEncryptedData "abc" "def" None None NaclSecretbox "2.0")
                          Sample.key32 None)) _).
  discriminate.
Defined.

End AsymmetricFacts.

(* ================================================================== *)
(** * The name service                                                 *)
(* ================================================================== *)

Module NameServiceFacts.

Import Stdlib.Strings.Ascii SolanaNameService.

(** ** Characters and lower case *)

Lemma lowerChar_idempotent (c : ascii) : lowerChar (lowerChar c) = lowerChar c.
Proof. destruct c as [[] [] [] [] [] [] [] []]; by vm_compute. Qed.

Lemma nameChar_lowerChar (c : ascii) : nameChar (lowerChar c) = nameChar c.
Proof. destruct c as [[] [] [] [] [] [] [] []]; by vm_compute. Qed.

Lemma hyphen_lowerChar (c : ascii) :
  Ascii.eqb (lowerChar c) "-" = Ascii.eqb c "-".
Proof. destruct c as [[] [] [] [] [] [] [] []]; by vm_compute. Qed.

Lemma underscore_lowerChar (c : ascii) :
  Ascii.eqb (lowerChar c) "_" = Ascii.eqb c "_".
Proof. destruct c as [[] [] [] [] [] [] [] []]; by vm_compute. Qed.

Lemma nameChar_not_at (c : ascii) : nameChar c = true -> Ascii.eqb c "@" = false.
Proof. destruct c as [[] [] [] [] [] [] [] []]; by vm_compute. Qed.

Lemma toLowerCase_idempotent (s : string) :
  toLowerCase (toLowerCase s) = toLowerCase s.
Proof. induction s as [|c s IH]; simpl; [done|]. by rewrite lowerChar_idempotent, IH. Qed.

Lemma toLowerCase_length (s : string) :
  String.length (toLowerCase s) = String.length s.
Proof. induction s as [|c s IH]; simpl; [done|]. by rewrite IH. Qed.

Lemma toLowerCase_empty (s : string) : toLowerCase s = "" -> s = "".
Proof. by destruct s. Qed.

Lemma allChars_toLowerCase (s : string) :
  allChars nameChar (toLowerCase s) = allChars nameChar s.
Proof. induction s as [|c s IH]; simpl; [done|]. by rewrite nameChar_lowerChar, IH. Qed.

Lemma matchesClass_toLowerCase (s : string) :
  matchesClass nameChar (toLowerCase s) = matchesClass nameChar s.
Proof.
  unfold matchesClass. rewrite allChars_toLowerCase. by destruct s.
Qed.

Lemma endsWith_toLowerCase (c : ascii) (s : string) :
  (forall x, Ascii.eqb (lowerChar x) c = Ascii.eqb x c) ->
  endsWith c (toLowerCase s) = endsWith c s.
Proof.
  intros Hc. induction s as [|x s IH]; [done|].
  simpl. destruct s as [|y s]; simpl in *; [apply Hc | exact IH].
Qed.

(** ** Accepted user names *)

Lemma valid_unfold (username : string) :
  valid (validateUsername username) = true ->
  (String.length username <? 3)%nat = false
  /\ (32 <? String.length username)%nat = false
  /\ matchesClass nameChar username = true
  /\ startsWith "-" username = false /\ endsWith "-" username = false
  /\ startsWith "_" username = false /\ endsWith "_" username = false
  /\ Array_includes reserved (toLowerCase username) = false.
Proof.
  unfold validateUsername.
  destruct (String.length username <? 3)%nat; [done|].
  destruct (32 <? String.length username)%nat; [done|].
  destruct (matchesClass nameChar username); [|done]. simpl.
  destruct (startsWith "-" username); [done|].
  destruct (endsWith "-" username); [done|].
  destruct (startsWith "_" username); [done|].
  destruct (endsWith "_" username); [done|]. simpl.
  by destruct (Array_includes reserved (toLowerCase username)).
Qed.

(** Every accepted user name has 3 to 32 characters, 32 included, all of
    them letters, digits, underscores or hyphens; and the lower-case form
    under which the service stores it is an accepted user name too, and is
    its own lower-case form. *)
Theorem accepted_usernames (username : string) :
  valid (validateUsername username) = true ->
  (3 <= String.length username <= 32)%nat
  /\ allChars nameChar username = true
  /\ valid (validateUsername (toLowerCase username)) = true
  /\ toLowerCase (toLowerCase username) = toLowerCase username.
Proof.
  intros Hvalid.
  destruct (valid_unfold username Hvalid)
    as (Hmin & Hmax & Hclass & Hs1 & He1 & Hs2 & He2 & Hres).
  apply Nat.ltb_ge in Hmin. apply Nat.ltb_ge in Hmax.
  split; [lia|]. split.
  { unfold matchesClass in Hclass. by apply andb_true_iff in Hclass as [_ ?]. }
  split; [|apply toLowerCase_idempotent].
  unfold validateUsername.
  rewrite toLowerCase_length, toLowerCase_idempotent, matchesClass_toLowerCase.
  rewrite (proj2 (Nat.ltb_ge _ _) Hmin), (proj2 (Nat.ltb_ge _ _) Hmax), Hclass.
  rewrite (endsWith_toLowerCase "-" _ hyphen_lowerChar), He1.
  rewrite (endsWith_toLowerCase "_" _ underscore_lowerChar), He2.
  rewrite Hres.
  destruct username as [|c rest]; [done|]. simpl in *.
  by rewrite hyphen_lowerChar, underscore_lowerChar, Hs1, Hs2.
Qed.

Lemma accepted_usernames_witness :
  String.length "Abcdefgh_ijklmnop-qrstuvwx012345" = 32%nat
  /\ valid (validateUsername (toLowerCase "Abcdefgh_ijklmnop-qrstuvwx012345")) = true.
Proof.
  split; [reflexivity|].
  exact (proj1 (proj2 (proj2 (accepted_usernames
                  "Abcdefgh_ijklmnop-qrstuvwx012345" eq_refl)))).
Defined.

(** ** The registry *)

Lemma truthy_Some (o : option string) (s : string) :
  truthy o = Some s -> o = Some s /\ s <> "".
Proof. destruct o as [[|c r]|]; simpl; [done| |done]. by intros [= <-]. Qed.

Lemma valid_not_empty (username : string) :
  valid (validateUsername username) = true -> toLowerCase username <> "".
Proof. intros Hv He. apply toLowerCase_empty in He. by subst. Qed.

(** What a registration that succeeds found and did. *)
Lemma register_success (username w : string) (signing : result unit)
    (tx : string) (t1 t2 t3 : Z) (st : Registry) :
  success (registerUsername username w signing tx t1 t2 t3 st).2 = true ->
  valid (validateUsername username) = true
  /\ nameRegistry st !! toLowerCase username = None
  /\ truthy (reverseRegistry st !! w) = None
  /\ exists record,
       owner record = w /\ expiresAt record = (t3 + 31536000000)%Z
       /\ registerUsername username w signing tx t1 t2 t3 st
          = ({| nameRegistry := <[toLowerCase username := record]> (nameRegistry st);
                reverseRegistry := <[w := toLowerCase username]> (reverseRegistry st) |},
             mkRegistration true None (Some tx)).
Proof.
  unfold registerUsername.
  destruct (valid (validateUsername username)) eqn:Hv; simpl; [|done].
  case_bool_decide as Htaken; simpl; [done|].
  destruct (truthy (reverseRegistry st !! w)) eqn:Hw; simpl; [done|].
  destruct signing; simpl; [|done]. intros _.
  split; [done|]. split; [by apply eq_None_not_Some|]. split; [done|].
  eexists. split; [|split; [|reflexivity]]; done.
Qed.

(** A registration that fails leaves both maps as they were. *)
Lemma register_failure (username w : string) (signing : result unit)
    (tx : string) (t1 t2 t3 : Z) (st : Registry) :
  success (registerUsername username w signing tx t1 t2 t3 st).2 = false ->
  (registerUsername username w signing tx t1 t2 t3 st).1 = st.
Proof.
  unfold registerUsername.
  destruct (valid (validateUsername username)); simpl; [|done].
  case_bool_decide; simpl; [done|].
  destruct (truthy (reverseRegistry st !! w)); simpl; [done|].
  by destruct signing.
Qed.

Lemma consistent_insert (lu w : string) (record : SolanaNameRecord) (st : Registry) :
  consistent st -> lu <> "" -> owner record = w ->
  nameRegistry st !! lu = None -> truthy (reverseRegistry st !! w) = None ->
  consistent {| nameRegistry := <[lu := record]> (nameRegistry st);
                reverseRegistry := <[w := lu]> (reverseRegistry st) |}.
Proof.
  intros (H1 & H2 & H3) Hne Ho Hfree Hw. split; [|split]; simpl.
  - intros name r. destruct (decide (name = lu)) as [->|Hn].
    + rewrite lookup_insert_eq. intros [= <-]. by rewrite Ho, lookup_insert_eq.
    + rewrite lookup_insert_ne by done. intros Hr.
      assert (owner r <> w) as Hor.
      { intros Heq. pose proof (H1 _ _ Hr) as Hrev. rewrite Heq in Hrev.
        rewrite Hrev in Hw. destruct name as [|c rest]; [|done].
        by rewrite H3 in Hr. }
      rewrite lookup_insert_ne by done. by apply H1.
  - intros wallet name. destruct (decide (wallet = w)) as [->|Hn].
    + rewrite lookup_insert_eq. intros [= <-].
      exists record. by rewrite lookup_insert_eq.
    + rewrite lookup_insert_ne by done. intros Hr.
      destruct (H2 _ _ Hr) as (r & Hrec & Hor). exists r. split; [|done].
      rewrite lookup_insert_ne; [done|]. intros <-. by rewrite Hfree in Hrec.
  - by rewrite lookup_insert_ne.
Qed.

(** Deleting a name together with its owner's entry. *)
Lemma consistent_delete (name : string) (record : SolanaNameRecord) (st : Registry) :
  consistent st -> nameRegistry st !! name = Some record ->
  consistent {| nameRegistry := delete name (nameRegistry st);
                reverseRegistry := delete (owner record) (reverseRegistry st) |}.
Proof.
  intros (H1 & H2 & H3) Hrec. split; [|split]; simpl.
  - intros n r [Hn Hr]%lookup_delete_Some.
    apply lookup_delete_Some. split; [|by apply H1].
    intros Heq. pose proof (H1 _ _ Hr) as Hrev. rewrite <- Heq in Hrev.
    rewrite (H1 _ _ Hrec) in Hrev. by injection Hrev.
  - intros wallet n [Hn Hr]%lookup_delete_Some.
    destruct (H2 _ _ Hr) as (r & Hr' & Hor). exists r. split; [|done].
    apply lookup_delete_Some. split; [|done].
    intros <-. rewrite Hrec in Hr'. injection Hr' as <-. done.
  - apply lookup_delete_None. by right.
Qed.

(** The whole call is the call up to its [await] followed at once by the
    rest. *)
Lemma registerUsername_split (username w : string) (signing : result unit)
    (tx : string) (t1 t2 t3 : Z) (st : Registry) :
  registerUsername username w signing tx t1 t2 t3 st
  = match registerUsername_begin username w (Ret tt) st with
    | Returned registration => (st, registration)
    | Awaiting => registerUsername_settle username w signing tx t1 t2 t3 st
    end.
Proof.
  unfold registerUsername, registerUsername_begin, registerUsername_settle.
  destruct (valid (validateUsername username)); simpl; [|done].
  case_bool_decide; simpl; [done|].
  by destruct (truthy (reverseRegistry st !! w)).
Qed.

Lemma begin_awaiting (username w : string) (building : result unit)
    (st : Registry) :
  registerUsername_begin username w building st = Awaiting ->
  stillFree st (username, w).
Proof.
  unfold registerUsername_begin, stillFree. simpl.
  destruct (valid (validateUsername username)) eqn:Hv; simpl; [|done].
  case_bool_decide as Htaken; simpl; [done|].
  destruct (truthy (reverseRegistry st !! w)) eqn:Hw; simpl; [done|].
  intros _. split; [done|]. split; [|done]. by apply eq_None_not_Some.
Qed.

(** A registry with fewer entries. *)
Lemma stillFree_shrink (st st' : Registry) (w : string * string) :
  nameRegistry st' ⊆ nameRegistry st ->
  reverseRegistry st' ⊆ reverseRegistry st ->
  stillFree st w -> stillFree st' w.
Proof.
  intros Hn Hr (Hv & Hname & Hwallet). split; [done|]. split.
  - by eapply lookup_weaken_None.
  - destruct (reverseRegistry st' !! w.2) as [name|] eqn:Hlook; [|done].
    by rewrite (lookup_weaken _ _ _ _ Hlook Hr) in Hwallet.
Qed.

Lemma resolve_shrinks (username : string) (now : Z) (st : Registry) :
  nameRegistry (resolveUsername username now st).1 ⊆ nameRegistry st
  /\ reverseRegistry (resolveUsername username now st).1 ⊆ reverseRegistry st.
Proof.
  unfold resolveUsername.
  destruct (nameRegistry st !! toLowerCase username) as [record|]; [|done].
  destruct (expiresAt record <? now)%Z; [|done].
  simpl. split; apply delete_subseteq.
Qed.

Lemma available_shrinks (username : string) (now : Z) (st : Registry) :
  nameRegistry (isUsernameAvailable username now st).1 ⊆ nameRegistry st
  /\ reverseRegistry (isUsernameAvailable username now st).1
     ⊆ reverseRegistry st.
Proof.
  unfold isUsernameAvailable.
  destruct (valid (validateUsername username)); simpl; [|done].
  destruct (nameRegistry st !! toLowerCase username) as [record|]; [|done].
  destruct (expiresAt record <? now)%Z; [|done].
  simpl. split; apply delete_subseteq.
Qed.

Lemma reverse_shrinks (w : string) (now : Z) (st : Registry) :
  nameRegistry (reverseResolve w now st).1 ⊆ nameRegistry st
  /\ reverseRegistry (reverseResolve w now st).1 ⊆ reverseRegistry st.
Proof.
  unfold reverseResolve.
  destruct (truthy (reverseRegistry st !! w)) as [name|]; [|done].
  destruct (nameRegistry st !! name) as [record|];
    [destruct (expiresAt record <? now)%Z; [|done]|];
    simpl; split; apply delete_subseteq.
Qed.

Lemma consistent_resolve (username : string) (now : Z) (st : Registry) :
  consistent st -> consistent (resolveUsername username now st).1.
Proof.
  intros Hc. unfold resolveUsername.
  destruct (nameRegistry st !! toLowerCase username) as [record|] eqn:Hrec; [|done].
  destruct (expiresAt record <? now)%Z; [|done].
  simpl. by apply consistent_delete.
Qed.

Lemma consistent_available (username : string) (now : Z) (st : Registry) :
  consistent st -> consistent (isUsernameAvailable username now st).1.
Proof.
  intros Hc. unfold isUsernameAvailable.
  destruct (valid (validateUsername username)); simpl; [|done].
  destruct (nameRegistry st !! toLowerCase username) as [record|] eqn:Hrec; [|done].
  destruct (expiresAt record <? now)%Z; [|done].
  simpl. by apply consistent_delete.
Qed.

Lemma consistent_reverse (w : string) (now : Z) (st : Registry) :
  consistent st -> consistent (reverseResolve w now st).1.
Proof.
  intros Hc. unfold reverseResolve.
  destruct (truthy (reverseRegistry st !! w)) as [name|] eqn:Hw; [|done].
  apply truthy_Some in Hw as [Hw _].
  destruct Hc as (H1 & H2 & H3).
  destruct (H2 _ _ Hw) as (record & Hrec & Ho). rewrite Hrec.
  destruct (expiresAt record <? now)%Z; [|done].
  simpl. rewrite <- Ho. by apply consistent_delete.
Qed.

Lemma clash_sym (a b : string * string) : clash a b = clash b a.
Proof.
  unfold clash. f_equal; apply bool_decide_ext; split; by intros ->.
Qed.

Lemma apart_snoc (l : list (string * string)) (w : string * string) :
  apart l -> Forall (fun v => clash w v = false) l -> apart (l ++ [w]).
Proof.
  induction l as [|v l IH]; simpl; [done|].
  intros [Hv Hl] Hw. apply Forall_cons in Hw as [Hwv Hw]. split; [|auto].
  apply Forall_app. split; [done|]. constructor; [|done].
  by rewrite clash_sym.
Qed.

Lemma apart_delete (l : list (string * string)) (i : nat) (w : string * string) :
  apart l -> l !! i = Some w ->
  apart (delete i l) /\ Forall (fun v => clash w v = false) (delete i l).
Proof.
  revert i. induction l as [|v l IH]; intros i; [done|].
  simpl. intros [Hv Hl]. destruct i as [|i]; simpl.
  - intros [= ->]. done.
  - intros Hlook. destruct (IH i Hl Hlook) as [Hapart Hw].
    split; [split; [by apply Forall_delete|done]|].
    constructor; [|done]. rewrite clash_sym.
    by apply (proj1 (Forall_forall _ _) Hv), (list_elem_of_lookup_2 _ i).
Qed.

(** One request keeps the service sound, when a registration that begins
    clashes with none that waits. *)
Lemma handle_sound (e : Request) (sv : Service) :
  sound sv -> noOverlap [e] sv = true -> sound (handle e sv).
Proof.
  intros (Hc & Hapart & Hfree) Hno. simpl in Hno. rewrite andb_true_r in Hno.
  destruct e as [username w building|i signed tx t1 t2 t3|username now
                |w now|username now]; simpl.
  - destruct (registerUsername_begin username w building (registry sv))
      eqn:Hbegin; [done|].
    split; [done|]. simpl. split.
    + apply apart_snoc; [done|]. apply Forall_forall. intros v Hv.
      apply list_elem_of_In in Hv.
      pose proof (proj1 (forallb_forall _ _) Hno v Hv) as Hclash.
      by apply negb_true_iff in Hclash.
    + apply Forall_app. split; [done|]. constructor; [|done].
      by eapply begin_awaiting.
  - destruct (waiting sv !! i) as [[username w]|] eqn:Hlook; [|done].
    destruct (apart_delete _ _ _ Hapart Hlook) as [Hapart' Hothers].
    pose proof (proj1 (Forall_forall _ _) Hfree _
                  (list_elem_of_lookup_2 _ _ _ Hlook)) as (Hv & Hname & Hwallet).
    simpl in Hv, Hname, Hwallet.
    destruct signed as [[]|err]; simpl.
    + split; [|split; [done|]].
      * apply consistent_insert; auto using valid_not_empty.
      * simpl. apply Forall_forall. intros v Hin.
        pose proof (proj1 (Forall_forall _ _) Hothers _ Hin) as Hclash.
        apply (Forall_delete _ _ i) in Hfree.
        pose proof (proj1 (Forall_forall _ _) Hfree _ Hin) as (Hv' & Hn' & Hw').
        unfold clash in Hclash. simpl in Hclash.
        apply orb_false_iff in Hclash as [Hne1 Hne2].
        apply bool_decide_eq_false in Hne1. apply bool_decide_eq_false in Hne2.
        split; [done|]. simpl.
        by rewrite !lookup_insert_ne.
    + split; [done|]. split; [done|]. by apply Forall_delete.
  - destruct (resolve_shrinks username now (registry sv)) as [Hn Hr].
    split; [by apply consistent_resolve|]. split; [done|]. simpl.
    eapply Forall_impl; [exact Hfree|]. intros v. by apply stillFree_shrink.
  - destruct (reverse_shrinks w now (registry sv)) as [Hn Hr].
    split; [by apply consistent_reverse|]. split; [done|]. simpl.
    eapply Forall_impl; [exact Hfree|]. intros v. by apply stillFree_shrink.
  - destruct (available_shrinks username now (registry sv)) as [Hn Hr].
    split; [by apply consistent_available|]. split; [done|]. simpl.
    eapply Forall_impl; [exact Hfree|]. intros v. by apply stillFree_shrink.
Qed.

Lemma handleAll_sound (es : list Request) (sv : Service) :
  sound sv -> noOverlap es sv = true -> sound (handleAll es sv).
Proof.
  revert sv. induction es as [|e es IH]; intros sv Hsound Hno; [done|].
  simpl in Hno. apply andb_true_iff in Hno as [He Hes].
  unfold handleAll. simpl. apply IH; [|done].
  apply handle_sound; [done|]. simpl. by rewrite He.
Qed.

Lemma consistent_empty : consistent empty.
Proof.
  split; [|split]; simpl; [intros ? ?|intros ? ?|]; by rewrite ?lookup_empty.
Qed.

(** Calls of the service may overlap: [registerUsername] waits for the
    signature between its checks and its writes, and checks nothing again
    afterwards.  As long as no registration begins while one for the same
    lower-case name or the same wallet is waiting, the two maps keep
    describing the same ownership, whatever is asked and in whatever order:
    every registered name is the name its owner's wallet maps to, every
    wallet's name is registered to that wallet, no name is empty, and so no
    wallet owns two registered names.  Without the proviso this fails: two
    registrations of one wallet that both begin before either is signed
    leave the wallet with two names. *)
Theorem registry_stays_consistent (es : list Request) (sv : Service) :
  consistent (registry sv) ->
  waiting sv = [] ->
  noOverlap es sv = true ->
  let st' := registry (handleAll es sv) in
  consistent st'
  /\ (forall name1 name2 record1 record2,
        nameRegistry st' !! name1 = Some record1 ->
        nameRegistry st' !! name2 = Some record2 ->
        owner record1 = owner record2 -> name1 = name2)
  /\ (let overlapping :=
        registry
          (handleAll [RegisterBegins "alice" "wallet1" (Ret tt);
                      RegisterBegins "alicia" "wallet1" (Ret tt);
                      RegisterSettles 0 (Ret tt) "tx1" 10 10 10;
                      RegisterSettles 0 (Ret tt) "tx2" 20 20 20] start) in
      (owner <$> nameRegistry overlapping !! "alice") = Some "wallet1"
      /\ (owner <$> nameRegistry overlapping !! "alicia") = Some "wallet1"
      /\ ~ consistent overlapping).
Proof.
  intros Hc Hwaiting Hno st'.
  assert (Hsound : sound sv).
  { split; [done|]. rewrite Hwaiting. by split. }
  destruct (handleAll_sound es sv Hsound Hno) as (Hc' & _ & _).
  split; [exact Hc'|]. split.
  - destruct Hc' as (H1 & _ & _).
    intros name1 name2 record1 record2 Hr1 Hr2 Ho.
    apply H1 in Hr1. apply H1 in Hr2. rewrite Ho in Hr1.
    rewrite Hr1 in Hr2. by injection Hr2.
  - cbv zeta. split; [reflexivity|]. split; [reflexivity|].
    intros (H1 & _ & _).
    set (overlapping := registry (handleAll _ start)) in *.
    assert (Ha : exists r, nameRegistry overlapping !! "alice" = Some r
                           /\ owner r = "wallet1")
      by (eexists; split; reflexivity).
    destruct Ha as (r & Hr & Ho). apply H1 in Hr. rewrite Ho in Hr.
    assert (Hb : reverseRegistry overlapping !! "wallet1" = Some "alicia")
      by reflexivity.
    rewrite Hb in Hr. discriminate Hr.
Qed.

Lemma registry_stays_consistent_witness :
  consistent
    (registry
       (handleAll [RegisterBegins "Alice" "wallet1" (Ret tt);
                   RegisterBegins "Bob" "wallet2" (Ret tt);
                   RegisterSettles 1 (Ret tt) "tx2" 20 20 20;
                   Resolves "BOB" 31536000021;
                   RegisterSettles 0 (Ret tt) "tx1" 10 10 10;
                   RegisterBegins "alice" "wallet3" (Ret tt);
                   RegisterBegins "carol" "wallet1" (Ret tt);
                   ReverseResolves "wallet1" 50;
                   AsksAvailable "alice" 60] start)).
Proof.
  exact (proj1 (registry_stays_consistent
                  [RegisterBegins "Alice" "wallet1" (Ret tt);
                   RegisterBegins "Bob" "wallet2" (Ret tt);
                   RegisterSettles 1 (Ret tt) "tx2" 20 20 20;
                   Resolves "BOB" 31536000021;
                   RegisterSettles 0 (Ret tt) "tx1" 10 10 10;
                   RegisterBegins "alice" "wallet3" (Ret tt);
                   RegisterBegins "carol" "wallet1" (Ret tt);
                   ReverseResolves "wallet1" 50;
                   AsksAvailable "alice" 60]
                  start consistent_empty eq_refl eq_refl)).
Defined.

(** ** Registering and looking up *)

(** After a registration that succeeded, and until the record expires
    one year after the last reading of the clock, the name resolves to
    the registering wallet however the lookup is capitalised, the wallet
    resolves back to the lower-case name, the name is reported as not
    available, and none of the three lookups changes the registry. *)
Theorem register_then_resolve (username w : string) (signing : result unit)
    (tx : string) (t1 t2 t3 now : Z) (lookup : string) (st : Registry) :
  let r := registerUsername username w signing tx t1 t2 t3 st in
  success r.2 = true ->
  toLowerCase lookup = toLowerCase username ->
  (now <= t3 + 31536000000)%Z ->
  resolveUsername lookup now r.1 = (r.1, Some w)
  /\ reverseResolve w now r.1 = (r.1, Some (toLowerCase username))
  /\ isUsernameAvailable lookup now r.1 = (r.1, false).
Proof.
  intros r Hs Hlookup Hnow. subst r.
  destruct (register_success _ _ _ _ _ _ _ _ Hs)
    as (Hv & Hfree & Hw & record & Ho & Hexp & ->).
  assert ((expiresAt record <? now)%Z = false) as Hlive by (apply Z.ltb_ge; lia).
  pose proof (valid_not_empty _ Hv) as Hne.
  split; [|split].
  - unfold resolveUsername. simpl. rewrite Hlookup, lookup_insert_eq, Hlive.
    by rewrite Ho.
  - unfold reverseResolve. simpl. rewrite lookup_insert_eq.
    destruct (toLowerCase username) as [|c rest] eqn:Hlu; [done|]. simpl.
    by rewrite lookup_insert_eq, Hlive.
  - unfold isUsernameAvailable. simpl.
    destruct (valid (validateUsername lookup)); simpl; [|done].
    by rewrite Hlookup, lookup_insert_eq, Hlive.
Qed.

Lemma register_then_resolve_witness :
  let r := registerUsername "Alice" "wallet1" (Ret tt) "tx1" 10 11 12 empty in
  resolveUsername "ALICE" 31536000012 r.1 = (r.1, Some "wallet1")
  /\ reverseResolve "wallet1" 31536000012 r.1 = (r.1, Some "alice")
  /\ isUsernameAvailable "ALICE" 31536000012 r.1 = (r.1, false).
Proof.
  apply (register_then_resolve "Alice" "wallet1" (Ret tt) "tx1" 10 11 12
           31536000012 "ALICE" empty); [reflexivity|reflexivity|lia].
Defined.

(** After a registration that succeeded, a further registration of the
    same name in any capitalisation, by any wallet, and a further
    registration of any name by the same wallet are both refused, and
    leave the registry as it is; an acceptable name is refused as taken.
    Nothing in a registration looks at the clock, so this holds after
    the record's expiry date too. *)
Theorem registration_is_exclusive (username w : string) (signing : result unit)
    (tx : string) (t1 t2 t3 : Z) (st : Registry)
    (username' w' : string) (signing' : result unit) (tx' : string)
    (t1' t2' t3' : Z) :
  let r := registerUsername username w signing tx t1 t2 t3 st in
  let r' := registerUsername username' w' signing' tx' t1' t2' t3' r.1 in
  success r.2 = true ->
  toLowerCase username' = toLowerCase username \/ w' = w ->
  r'.1 = r.1 /\ success r'.2 = false
  /\ (valid (validateUsername username') = true ->
      toLowerCase username' = toLowerCase username ->
      registration_error r'.2 = Some "Username is already taken").
Proof.
  intros r r' Hs Hsame. subst r r'.
  destruct (register_success _ _ _ _ _ _ _ _ Hs)
    as (Hv & Hfree & Hw & record & Ho & Hexp & ->).
  pose proof (valid_not_empty _ Hv) as Hne. simpl.
  assert (success (registerUsername username' w' signing' tx' t1' t2' t3'
            {| nameRegistry := <[toLowerCase username := record]> (nameRegistry st);
               reverseRegistry := <[w := toLowerCase username]> (reverseRegistry st) |}).2
          = false) as Hfail.
  { unfold registerUsername.
    destruct (valid (validateUsername username')); simpl; [|done].
    case_bool_decide as Htaken; simpl; [done|].
    destruct Hsame as [Hname| ->].
    - exfalso. apply Htaken. rewrite Hname, lookup_insert_eq. by eexists.
    - rewrite lookup_insert_eq.
      by destruct (toLowerCase username) as [|c rest]. }
  split; [by apply register_failure|]. split; [done|].
  intros Hv' Hname. unfold registerUsername. rewrite Hv'. simpl.
  rewrite Hname, lookup_insert_eq.
  by rewrite bool_decide_eq_true_2 by (by eexists).
Qed.

Lemma registration_is_exclusive_witness :
  let r := registerUsername "Alice" "wallet1" (Ret tt) "tx1" 10 11 12 empty in
  let r' := registerUsername "ALICE" "wallet2" (Ret tt) "tx2" 40000000000000
              40000000000000 40000000000000 r.1 in
  r'.1 = r.1 /\ success r'.2 = false
  /\ (valid (validateUsername "ALICE") = true ->
      toLowerCase "ALICE" = toLowerCase "Alice" ->
      registration_error r'.2 = Some "Username is already taken").
Proof.
  apply (registration_is_exclusive "Alice" "wallet1" (Ret tt) "tx1" 10 11 12 empty
           "ALICE" "wallet2" (Ret tt) "tx2");
    [reflexivity | left; reflexivity].
Defined.

(** A registered name whose record has expired stays taken for
    [registerUsername], which never looks at the clock; it is a lookup
    that frees it.  [isUsernameAvailable] answers yes and, like
    [resolveUsername], removes the name and its owner's entry; in the
    registry that is left the former owner can register the name again. *)
Theorem expired_name_is_freed_by_lookup (username : string)
    (record : SolanaNameRecord) (now : Z) (st : Registry)
    (w tx : string) (t1 t2 t3 : Z) :
  valid (validateUsername username) = true ->
  nameRegistry st !! toLowerCase username = Some record ->
  (expiresAt record < now)%Z ->
  let purged :=
    {| nameRegistry := delete (toLowerCase username) (nameRegistry st);
       reverseRegistry := delete (owner record) (reverseRegistry st) |} in
  registerUsername username w (Ret tt) tx t1 t2 t3 st
    = (st, mkRegistration false (Some "Username is already taken") None)
  /\ isUsernameAvailable username now st = (purged, true)
  /\ resolveUsername username now st = (purged, None)
  /\ success (registerUsername username (owner record) (Ret tt) tx t1 t2 t3
                purged).2 = true.
Proof.
  intros Hv Hrec Hexp purged. apply Z.ltb_lt in Hexp.
  split; [|split; [|split]].
  - unfold registerUsername. by rewrite Hv, Hrec.
  - unfold isUsernameAvailable. by rewrite Hv, Hrec, Hexp.
  - unfold resolveUsername. by rewrite Hrec, Hexp.
  - unfold registerUsername, purged. rewrite Hv. simpl.
    rewrite !lookup_delete_eq.
    by rewrite bool_decide_eq_false_2 by (by intros [? ?]).
Qed.

Lemma expired_name_is_freed_by_lookup_witness :
  let st := (registerUsername "Alice" "wallet1" (Ret tt) "tx1" 10 11 12 empty).1 in
  registerUsername "alice" "wallet2" (Ret tt) "tx2" 1 2 3 st
    = (st, mkRegistration false (Some "Username is already taken") None)
  /\ isUsernameAvailable "alice" 31536000013 st = (empty, true).
Proof.
  pose proof (expired_name_is_freed_by_lookup "alice"
    {| domain := "alice"; owner := "wallet1"; resolver := "wallet1";
       ttl := 86400;
       records := <["created" := pretty 10%Z]> {["wallet" := "wallet1"]};
       createdAt := 11; expiresAt := 12 + 365 * 24 * 60 * 60 * 1000 |}
    31536000013
    (registerUsername "Alice" "wallet1" (Ret tt) "tx1" 10 11 12 empty).1
    "wallet2" "tx2" 1 2 3 eq_refl eq_refl eq_refl) as (H1 & H2 & _).
  split; [exact H1|]. rewrite H2. reflexivity.
Defined.

(** ** Display names and user input *)

Lemma substring_all (s : string) : String.substring 0 (String.length s) s = s.
Proof. induction s as [|c s IH]; simpl; [done|]. by rewrite IH. Qed.

(** An accepted user name shown as a display name, with its at-sign, is
    read back by [parseUserInput] as that user name.  Typed without the
    at-sign it is read as a user name too, except when it has 32
    characters that are all letters or digits: then it is read as an
    address. *)
Theorem parse_accepted_username (address username : string) :
  valid (validateUsername username) = true ->
  parseUserInput (formatDisplayName address (Some username))
    = mkUserInput IsUsername username
  /\ parseUserInput username
     = mkUserInput
         (if (String.length username =? 32)%nat && allChars alnumChar username
          then IsAddress else IsUsername)
         username.
Proof.
  intros Hvalid.
  destruct (valid_unfold username Hvalid)
    as (Hmin & Hmax & Hclass & _).
  apply Nat.ltb_ge in Hmin. apply Nat.ltb_ge in Hmax.
  destruct username as [|c rest]; [done|].
  split.
  - unfold formatDisplayName, parseUserInput. simpl.
    by rewrite substring_all.
  - unfold parseUserInput, matchesClass in *.
    apply andb_true_iff in Hclass as [_ Hall].
    cbn [allChars] in Hall. apply andb_true_iff in Hall as [Hc _].
    cbn [startsWith]. rewrite (nameChar_not_at c Hc).
    cbn [String.eqb negb andb].
    replace (32 <=? String.length (String c rest))%nat
      with (String.length (String c rest) =? 32)%nat;
      [by destruct (_ && _)|].
    destruct (Nat.eqb_spec (String.length (String c rest)) 32) as [->|Hne];
      [done|].
    symmetry. apply Nat.leb_gt. lia.
Qed.

Lemma parse_accepted_username_witness :
  parseUserInput (formatDisplayName "wallet1" (Some "alice"))
    = mkUserInput IsUsername "alice"
  /\ parseUserInput "abcdefghijklmnopqrstuvwxyz012345"
     = mkUserInput IsAddress "abcdefghijklmnopqrstuvwxyz012345".
Proof.
  split.
  - exact (proj1 (parse_accepted_username "wallet1" "alice" eq_refl)).
  - exact (proj2 (parse_accepted_username "wallet1"
                    "abcdefghijklmnopqrstuvwxyz012345" eq_refl)).
Defined.

End NameServiceFacts.
